(** * Move-list reconciliation and session lifecycle of the chess bot

    A shallow embedding of the synchronisation code of
    [src/stockfish_bot.py] (class [StockfishBot]) and of the move-list cache
    of [src/grabbers/chesscom_grabber.py] (class [ChesscomGrabber]), with the
    properties of the specification stated over it.

    Conventions.
    - A Python [str] is a [string]: a sequence of code points below 256.
    - [None] is [None]; a call that may raise returns a sum or a dedicated
      result type whose constructors name the exception.
    - Wall-clock readings ([time.time()]) are integers, in milliseconds.
    - Every call into the browser ([self.grabber....]) is answered by an
      explicit observation supplied by the environment.  Where a property
      speaks of what the bot does to the outside (pipe, engine, mouse,
      sleeps), the function also returns the trace of these [Event]s. *)

From Stdlib Require Import List String Ascii Bool ZArith Arith Lia.
From Stdlib Require Import DecimalString.
Import ListNotations.
Open Scope string_scope.
Open Scope nat_scope.

(** ** Python string primitives *)

Module PyStr.

Definition chars := list ascii.

Definition code (c : ascii) : nat := nat_of_ascii c.

(** [str.isspace] on the code points below 256. *)
Definition is_space (c : ascii) : bool :=
  let n := code c in
  ((9 <=? n) && (n <=? 13)) || ((28 <=? n) && (n <=? 32))
  || (n =? 133) || (n =? 160).

Fixpoint lstrip_by (p : ascii -> bool) (s : chars) : chars :=
  match s with
  | [] => []
  | c :: r => if p c then lstrip_by p r else s
  end.

Definition rstrip_by (p : ascii -> bool) (s : chars) : chars :=
  rev (lstrip_by p (rev s)).

(** [s.strip()] *)
Definition strip (s : string) : string :=
  string_of_list_ascii
    (rstrip_by is_space (lstrip_by is_space (list_ascii_of_string s))).

Definition mem_char (c : ascii) (set : string) : bool :=
  existsb (Ascii.eqb c) (list_ascii_of_string set).

(** [s.rstrip(set)] *)
Definition rstrip_chars (set s : string) : string :=
  string_of_list_ascii
    (rstrip_by (fun c => mem_char c set) (list_ascii_of_string s)).

Fixpoint starts_with (p s : chars) : option chars :=
  match p, s with
  | [], _ => Some s
  | a :: p', b :: s' => if Ascii.eqb a b then starts_with p' s' else None
  | _ :: _, [] => None
  end.

(** [s.replace(old, new)] for a non-empty [old]: the occurrences are found
    from the left and do not overlap.  [fuel] bounds the scan by the length
    of the text. *)
Fixpoint replace_aux (fuel : nat) (old new s : chars) : chars :=
  match fuel with
  | O => s
  | S fuel' =>
      match s with
      | [] => []
      | c :: r =>
          match starts_with old s with
          | Some rest => (new ++ replace_aux fuel' old new rest)%list
          | None => c :: replace_aux fuel' old new r
          end
      end
  end.

Definition replace (old new s : string) : string :=
  let l := list_ascii_of_string s in
  string_of_list_ascii
    (replace_aux (List.length l) (list_ascii_of_string old)
                 (list_ascii_of_string new) l).

(** [s.lower()] on the code points below 256: the ASCII capitals and the
    Latin-1 capitals (192..222 but the multiplication sign 215). *)
Definition lower_char (c : ascii) : ascii :=
  let n := code c in
  if ((65 <=? n) && (n <=? 90))
     || ((192 <=? n) && (n <=? 222) && negb (n =? 215))
  then ascii_of_nat (n + 32) else c.

Definition lower (s : string) : string :=
  string_of_list_ascii (map lower_char (list_ascii_of_string s)).

Definition newline : ascii := ascii_of_nat 10.

Definition is_bang (c : ascii) : bool := mem_char c "!?".

(** [re.sub(r"[!?]+$", "", s)]: without [re.MULTILINE], [$] matches at the
    end of the text and just before a newline that ends the text.  A run
    of [!]/[?] is removed at the first of these places where there is one. *)
Definition sub_trailing_bangs (s : string) : string :=
  let r := rev (list_ascii_of_string s) in
  match r with
  | c :: r' =>
      if is_bang c then string_of_list_ascii (rev (lstrip_by is_bang r))
      else if Ascii.eqb c newline
           then string_of_list_ascii (rev (c :: lstrip_by is_bang r'))
           else s
  | [] => s
  end.

(** The body of [^(1-0|0-1|1/2-1/2|0.5-0.5)$] against a whole text; a dot
    matches any character but a newline. *)
Definition result_core (l : chars) : bool :=
  match l with
  | [a; b; c] =>
      let t := string_of_list_ascii l in
      String.eqb t "1-0" || String.eqb t "0-1"
  | [c0; d1; c2; c3; c4; d5; c6] =>
      String.eqb (string_of_list_ascii l) "1/2-1/2"
      || (Ascii.eqb c0 "0" && negb (Ascii.eqb d1 newline) && Ascii.eqb c2 "5"
          && Ascii.eqb c3 "-" && Ascii.eqb c4 "0"
          && negb (Ascii.eqb d5 newline) && Ascii.eqb c6 "5")%char
  | _ => false
  end.

(** [re.match(r"^(1-0|0-1|1/2-1/2|0.5-0.5)$", s)] is not [None]. *)
Definition match_result (s : string) : bool :=
  let l := list_ascii_of_string s in
  result_core l
  || match rev l with
     | c :: r => Ascii.eqb c newline && result_core (rev r)
     | [] => false
     end.

End PyStr.

(** ** Notation helpers of [StockfishBot] *)

(** [move_list_has_result] (stockfish_bot.py, 107-114). *)
Definition move_list_has_result (move_list : list string) : bool :=
  existsb (fun move => PyStr.match_result (PyStr.strip move)) move_list.

(** [_sanitize_san] (116-123).  An empty token is returned as it is. *)
Definition _sanitize_san (move_san : string) : string :=
  if String.eqb move_san "" then move_san
  else
    let s := PyStr.strip move_san in
    let s := PyStr.replace "0-0" "O-O" (PyStr.replace "0-0-0" "O-O-O" s) in
    let s := PyStr.replace " e.p." "" s in
    PyStr.sub_trailing_bangs s.

(** [_normalize_san] (125-132). *)
Definition _normalize_san (move_san : string) : string :=
  if String.eqb move_san "" then ""
  else
    let s := PyStr.strip move_san in
    let s := PyStr.replace "0-0" "O-O" (PyStr.replace "0-0-0" "O-O-O" s) in
    let s := PyStr.rstrip_chars "+#!?" s in
    let s := PyStr.replace "=" "" s in
    PyStr.lower s.

(** [_san_matches] (134-135). *)
Definition _san_matches (expected actual : string) : bool :=
  String.eqb (_normalize_san expected) (_normalize_san actual).

(** ** The chess library

    [chess.Board] and [chess.Move] come from the python-chess package, which
    is not part of the repository: the bot only uses it as a legality
    oracle.  The development is parametric in it.  [parse_san b s = None]
    stands for [b.parse_san(s)] raising ([ValueError] and its subclasses). *)

Class Chess : Type := {
  Board : Type;
  Move : Type;
  (** [chess.Board()] *)
  start_board : Board;
  parse_san : Board -> string -> option Move;
  (** [board.push(move)], on a copy *)
  push : Board -> Move -> Board;
  move_stack : Board -> list Move;
  is_game_over : Board -> bool;
  uci : Move -> string;
  (** [chess.Move.from_uci(s)] when it succeeds and is in
      [board.legal_moves] *)
  legal_uci : Board -> string -> option Move;
  move_stack_start : move_stack start_board = [];
  move_stack_push : forall b m, move_stack (push b m) = (move_stack b ++ [m])%list
}.

(** [board.push_san(san)]: parse, then push. *)
Definition push_san `{Chess} (b : Board) (san : string) : option Board :=
  match parse_san b san with
  | Some m => Some (push b m)
  | None => None
  end.

(** A small instance to run the model on: a board is the list of the
    tokens played so far, and the only moves it knows are those of two
    fixed games, an opening of five plies and the four plies of the fool's
    mate.  It accepts fewer moves than python-chess does, never more. *)
Module Book.

Definition lines : list (list string) :=
  [ ["e4"; "e5"; "Nf3"; "Nc6"; "Bb5"];
    ["f3"; "e5"; "g4"; "Qh4#"] ].

Fixpoint is_prefix (p l : list string) : bool :=
  match p, l with
  | [], _ => true
  | a :: p', b :: l' => String.eqb a b && is_prefix p' l'
  | _ :: _, [] => false
  end.

Definition known (played : list string) : bool :=
  existsb (is_prefix played) lines.

Definition parse (b : list string) (san : string) : option string :=
  if known (b ++ [san]) then Some san else None.

Definition mate (b : list string) : bool :=
  match rev b with
  | last :: _ => String.eqb last "Qh4#"
  | [] => false
  end.

#[export] Instance chess : Chess := {|
  Board := list string;
  Move := string;
  start_board := [];
  parse_san := parse;
  push := fun b m => (b ++ [m])%list;
  move_stack := fun b => b;
  is_game_over := mate;
  uci := fun m => m;
legal_uci := parse;
  move_stack_start := eq_refl;
  move_stack_push := fun b m => eq_refl
|}.

End Book.

(** ** Events

    What the bot does to the outside world, in the order it does it. *)
Inductive Event : Type :=
| EvResetMovesList                      (* grabber.reset_moves_list() *)
| EvGetMoveList                         (* grabber.get_move_list() *)
| EvIsStartingPosition                  (* grabber.is_starting_position() *)
| EvIsWhite                             (* grabber.is_white() *)
| EvIsGameOver                          (* grabber.is_game_over() *)
| EvUpdateBoardElem                     (* grabber.update_board_elem() *)
| EvMakeMove (move : string)            (* self.make_move(move) *)
| EvSetPosition (moves : list string)   (* stockfish.set_position(...) *)
| EvClearAccuracy                       (* the four accuracy lists .clear() *)
| EvPipeSend (msg : string)             (* self.pipe.send(msg) *)
| EvResync (reason : string)            (* entry of _resync_move_list_state *)
| EvFindNewOnlineMatch                  (* self.find_new_online_match() *)
| EvStartGameSession                    (* self._start_game_session(...) *)
| EvSleep (ms : Z).                     (* time.sleep *)

Definition Trace := list Event.

Definition is_get_move_list (e : Event) : bool :=
  match e with EvGetMoveList => true | _ => false end.

Definition is_resync (e : Event) : bool :=
  match e with EvResync _ => true | _ => false end.

Definition is_pipe_send (e : Event) : bool :=
  match e with EvPipeSend _ => true | _ => false end.

Definition is_make_move (e : Event) : bool :=
  match e with EvMakeMove _ => true | _ => false end.

(** Number of executions of a move in a trace. *)
Definition executions (t : Trace) : nat := List.length (filter is_make_move t).

(** The events by which a resync replaces the state of the game: the
    engine position, the accuracy lists, the move list sent to the
    supervising process. *)
Definition is_rebuild (e : Event) : bool :=
  match e with
  | EvSetPosition _ | EvClearAccuracy | EvPipeSend _ => true
  | _ => false
  end.

(** Number of snapshot fetches in a trace. *)
Definition fetches (t : Trace) : nat := List.length (filter is_get_move_list t).

(** [",".join(l)] *)
Fixpoint join_comma (l : list string) : string :=
  match l with
  | [] => ""
  | [a] => a
  | a :: r => a ++ "," ++ join_comma r
  end.

Section Bot.

Context `{C : Chess}.

(** [_is_san_legal] (137-144).  The candidate may be [None]. *)
Definition _is_san_legal (board : Board) (move_san : option string) : bool :=
  match move_san with
  | None => false
  | Some s =>
      if String.eqb s "" then false
      else match parse_san board (_sanitize_san s) with
           | Some _ => true
           | None => false
           end
  end.

(** The loop of [_try_build_board_from_moves], from any board. *)
Fixpoint replay (board : Board) (move_list : list string) : option Board :=
  match move_list with
  | [] => Some board
  | move :: rest =>
      match push_san board (_sanitize_san move) with
      | Some board' => replay board' rest
      | None => None
      end
  end.

(** [_try_build_board_from_moves] (165-173): [None] is the value returned
    by the [except Exception] handler. *)
Definition _try_build_board_from_moves (move_list : list string)
  : option Board :=
  replay start_board move_list.

(** The tokens of [move_list], sanitized, are legal moves played one after
    the other from [b]; [b'] is the position after the last. *)
Inductive Replays : Board -> list string -> Board -> Prop :=
| Replays_nil : forall b, Replays b [] b
| Replays_cons : forall b move m rest b',
    parse_san b (_sanitize_san move) = Some m ->
    Replays (push b m) rest b' ->
    Replays b (move :: rest) b'.

End Bot.

(** ** Calls into the browser

    A call of a grabber method returns a value or raises; the bot tells
    [StaleElementReferenceException] from the other exceptions. *)
Inductive Exn : Type :=
| ExnStale        (* StaleElementReferenceException *)
| ExnOther        (* another Exception raised by the browser driver *)
| ExnNameError    (* NameError raised by the bot's own code *)
| ExnEOF.         (* EOFError: the pipe was closed *)

Inductive Call (A : Type) : Type :=
| Returns (a : A)
| Raises (e : Exn).

Arguments Returns {A} a.
Arguments Raises {A} e.

(** What the grabber class offers ([hasattr] tests). *)
Record Caps : Type := {
  has_is_starting_position : bool;
  has_get_current_game_id : bool;
  has_is_game_over : bool
}.

(** The grabber of chess.com defines all three methods. *)
Definition chesscom_caps : Caps :=
  {| has_is_starting_position := true;
     has_get_current_game_id := true;
     has_is_game_over := true |}.

(** Truth value of [is_starting]: of [True], [False] and [None], only
    [True] is truthy. *)
Definition truthy (v : option bool) : bool :=
  match v with Some true => true | _ => false end.

(** ** Resynchronisation: [_resync_move_list_state] (175-234) *)

(** What the browser answers during one attempt of a resync. *)
Record ResyncObs : Type := {
  ro_move_list : Call (option (list string));   (* get_move_list() *)
  ro_starting : Call (option bool);             (* is_starting_position() *)
  ro_is_white : Call (option bool)              (* is_white() *)
}.

(** [extra_allowance] and [max_allowed] (190-192). *)
Definition max_allowed (expected_move_count : nat) : nat :=
  expected_move_count + (if expected_move_count <=? 2 then 2 else 4).

Definition too_long (expected_move_count : option nat) (l : list string) : bool :=
  match expected_move_count with
  | None => false
  | Some e => max_allowed e <? List.length l
  end.

(** The value of [is_starting] after lines 197-207.  The handler of the
    stale exception reads [poll_delay], a name that this method does not
    bind: entering it raises [NameError]. *)
Definition read_starting (caps : Caps) (c : Call (option bool))
  : Call (option bool) :=
  if has_is_starting_position caps then
    match c with
    | Returns r => Returns r
    | Raises ExnStale => Raises ExnNameError
    | Raises _ => Returns None
    end
  else Returns None.

Definition starting_events (caps : Caps) : Trace :=
  if has_is_starting_position caps then [EvIsStartingPosition] else [].

Section Resync.

Context `{C : Chess}.

Inductive AttemptOutcome : Type :=
| Retry                                   (* continue with the next attempt *)
| Accept (board : Board) (move_list : list string) (is_white : option bool)
| AttemptRaised (e : Exn).                (* an exception leaves the method *)

(** One turn of the [for attempt in range(max_attempts)] loop. *)
Definition resync_attempt (caps : Caps) (expected_move_count : option nat)
    (is_white : option bool) (o : ResyncObs) : AttemptOutcome * Trace :=
  let fetch := [EvResetMovesList; EvGetMoveList] in
  match ro_move_list o with
  | Raises e => (AttemptRaised e, fetch)
  | Returns None => (Retry, fetch ++ [EvSleep 100])
  | Returns (Some fresh_move_list) =>
      if move_list_has_result fresh_move_list then
        (Retry, fetch ++ [EvSleep 200])
      else if too_long expected_move_count fresh_move_list then
        (Retry, fetch ++ [EvSleep 200])
      else
        match read_starting caps (ro_starting o) with
        | Raises e => (AttemptRaised e, fetch ++ starting_events caps)
        | Returns is_starting =>
            if truthy is_starting then
              let clear :=
                match fresh_move_list with
                | [] => []
                | _ :: _ => [EvResetMovesList]
                end in
              let pre := fetch ++ starting_events caps ++ clear
                           ++ [EvSetPosition []; EvIsWhite] in
              match ro_is_white o with
              | Raises e => (AttemptRaised e, pre)
              | Returns detected_white =>
                  let white' :=
                    match detected_white with
                    | Some w => Some w
                    | None => is_white
                    end in
                  (Accept start_board [] white',
                   pre ++ [EvClearAccuracy;
                           EvPipeSend ("M_MOVE" ++ join_comma [])])
              end
            else
              match _try_build_board_from_moves fresh_move_list with
              | None =>
                  (Retry, fetch ++ starting_events caps ++ [EvSleep 200])
              | Some board =>
                  (Accept board fresh_move_list is_white,
                   fetch ++ starting_events caps
                     ++ [EvSetPosition (map uci (move_stack board));
                         EvClearAccuracy;
                         EvPipeSend ("M_MOVE" ++ join_comma fresh_move_list)])
              end
        end
  end%list.

Inductive ResyncResult : Type :=
| ResyncReturn (r : option (Board * list string))  (* [None] is (None, None) *)
| ResyncRaised (e : Exn).

Record ResyncRun : Type := {
  rr_result : ResyncResult;
  rr_is_white : option bool;      (* self.is_white afterwards *)
  rr_trace : Trace
}.

(** The attempts numbered [k], [k+1], ..., [k+n-1]; [env j] is what the
    browser shows during attempt [j]. *)
Fixpoint resync_attempts (caps : Caps) (expected_move_count : option nat)
    (env : nat -> ResyncObs) (is_white : option bool) (n k : nat) : ResyncRun :=
  match n with
  | O => {| rr_result := ResyncReturn None; rr_is_white := is_white; rr_trace := [] |}
  | S n' =>
      match resync_attempt caps expected_move_count is_white (env k) with
      | (Retry, t) =>
          let r := resync_attempts caps expected_move_count env is_white n' (S k) in
          {| rr_result := rr_result r; rr_is_white := rr_is_white r;
             rr_trace := (t ++ rr_trace r)%list |}
      | (Accept board move_list white', t) =>
          {| rr_result := ResyncReturn (Some (board, move_list));
             rr_is_white := white'; rr_trace := t |}
      | (AttemptRaised e, t) =>
          {| rr_result := ResyncRaised e; rr_is_white := is_white; rr_trace := t |}
      end
  end.

Definition _resync_move_list_state (caps : Caps) (env : nat -> ResyncObs)
    (is_white : option bool) (reason : string)
    (expected_move_count : option nat) (max_attempts : nat) : ResyncRun :=
  let r := resync_attempts caps expected_move_count env is_white max_attempts 0 in
  {| rr_result := rr_result r; rr_is_white := rr_is_white r;
     rr_trace := EvResync reason :: rr_trace r |}.

(** The default of the keyword argument [max_attempts]. *)
Definition default_max_attempts : nat := 10.

End Resync.

(** ** Waiting for the supervising process: [wait_for_gui_to_delete] (103-105)

    [inbox] lists, in order, how the coming calls of [self.pipe.recv()]
    end: with a message, or with [EOFError] once the other end is closed.
    When the list is used up nothing more arrives and [recv] blocks for
    ever: nothing in the loop reads a clock. *)
Inductive DeleteWait : Type :=
| DeleteReceived (discarded : list string) (rest : list (Call string))
| DeleteBlocked (discarded : list string)
| DeleteRaised (discarded : list string) (e : Exn).

Fixpoint wait_for_gui_to_delete_from (discarded : list string)
    (inbox : list (Call string)) : DeleteWait :=
  match inbox with
  | [] => DeleteBlocked discarded
  | Raises e :: _ => DeleteRaised discarded e
  | Returns msg :: rest =>
      if String.eqb msg "DELETE" then DeleteReceived discarded rest
      else wait_for_gui_to_delete_from (discarded ++ [msg])%list rest
  end.

Definition wait_for_gui_to_delete (inbox : list (Call string)) : DeleteWait :=
  wait_for_gui_to_delete_from [] inbox.

(** The end of [find_new_online_match] (512-515): tell the supervising
    process to clear its state, then wait for its answer.  The message sent
    and the result of the wait. *)
Definition notify_and_wait (inbox : list (Call string)) : Trace * DeleteWait :=
  ([EvPipeSend "RESTART"], wait_for_gui_to_delete inbox).

(** ** Move confirmation: [wait_for_move_confirmation] (146-163) *)

(** One turn of the [while] loop: the clock reading of the loop test and
    what [get_move_list()] answers if it is called. *)
Record ConfirmPoll : Type := {
  cp_now : Z;
  cp_move_list : option (list string)
}.

Inductive Confirmation : Type :=
| ConfirmReturn (ok : bool) (current : option (list string))
                (candidate : option string)
| ConfirmPending.     (* the observations end before the loop does *)

(** The test of line 154. *)
Definition grown (previous_move_list current_move_list : list string) : bool :=
  List.length previous_move_list + 1 <=? List.length current_move_list.

(** A turn of the loop that ends in [time.sleep(0.1)]: the clock is within
    the timeout and the list read is [None] or has not grown. *)
Definition keeps_waiting (previous_move_list : list string)
    (start_time timeout : Z) (p : ConfirmPoll) : bool :=
  (cp_now p - start_time <? timeout)%Z
  && match cp_move_list p with
     | None => true
     | Some current_move_list => negb (grown previous_move_list current_move_list)
     end.

(** The two [return True, ...] of the source differ by a debug print
    only, so [_san_matches] has no part in the value returned. *)
Fixpoint confirmation_loop (previous_move_list : list string)
    (start_time timeout : Z) (polls : list ConfirmPoll) : Confirmation * Trace :=
  match polls with
  | [] => (ConfirmPending, [])
  | p :: rest =>
      if (cp_now p - start_time <? timeout)%Z then
        match cp_move_list p with
        | None =>
            let '(r, t) := confirmation_loop previous_move_list start_time timeout rest in
            (r, EvGetMoveList :: EvSleep 100 :: t)
        | Some current_move_list =>
            if grown previous_move_list current_move_list
            then (ConfirmReturn true (Some current_move_list)
                    (nth_error current_move_list (List.length previous_move_list)),
                  [EvGetMoveList])
            else
              let '(r, t) := confirmation_loop previous_move_list start_time timeout rest in
              (r, EvGetMoveList :: EvSleep 100 :: t)
        end
      else (ConfirmReturn false None None, [])
  end.

Definition wait_for_move_confirmation (expected_san : string)
    (previous_move_list : list string) (timeout : Z)
    (start_time : Z) (polls : list ConfirmPoll) : Confirmation * Trace :=
  confirmation_loop previous_move_list start_time timeout polls.

(** The clock and the browser during one call of the wait. *)
Record ConfirmEnv : Type := {
  ce_start : Z;
  ce_polls : list ConfirmPoll
}.

(** ** Playing a move: the confirmation phase of [run] (757-773) *)

Inductive Played : Type :=
| PlayedConfirmed (current : option (list string)) (candidate : option string)
| PlayedFailed        (* ERR_RUNTIME sent, [run] returns *)
| PlayedPending.

Definition err_not_registered : string :=
  "ERR_RUNTIME|Failed to register move on the board. Make sure the game has started and the move list is visible.".

(** [for attempt in range(3)], attempts [k], [k+1], ... *)
Fixpoint play_attempts (move move_san : string) (move_list : list string)
    (env : nat -> ConfirmEnv) (n k : nat) : Played * Trace :=
  match n with
  | O => (PlayedFailed, [EvPipeSend err_not_registered])
  | S n' =>
      let e := env k in
      let '(c, t) := wait_for_move_confirmation move_san move_list 5000
                       (ce_start e) (ce_polls e) in
      let t := (EvUpdateBoardElem :: EvMakeMove move :: t)%list in
      match c with
      | ConfirmReturn true current candidate => (PlayedConfirmed current candidate, t)
      | ConfirmReturn false _ _ =>
          let '(r, t') := play_attempts move move_san move_list env n' (S k) in
          (r, t ++ EvSleep 200 :: t')%list
      | ConfirmPending => (PlayedPending, t)
      end
  end.

Definition play_and_confirm (move move_san : string) (move_list : list string)
    (env : nat -> ConfirmEnv) : Played * Trace :=
  play_attempts move move_san move_list env 3 0.

(** ** The game loop of [run] (586-1062), by parts *)

(** [max_parse_errors] (585). *)
Definition max_parse_errors : nat := 10.

Section GameLoop.

Context `{C : Chess}.

(** The variables of the loop that the parts below read or assign. *)
Record Game : Type := {
  g_board : Board;
  g_move_list : list string;
  g_is_white : option bool;
  g_parse_error_count : nat
}.

Definition with_count (g : Game) (n : nat) : Game :=
  {| g_board := g_board g; g_move_list := g_move_list g;
     g_is_white := g_is_white g; g_parse_error_count := n |}.

Definition rebuilt (g : Game) (board : Board) (move_list : list string)
    (is_white : option bool) (n : nat) : Game :=
  {| g_board := board; g_move_list := move_list;
     g_is_white := is_white; g_parse_error_count := n |}.

(** The game once the wait for the opponent has assigned
    [move_list = new_move_list] (943). *)
Definition advanced (g : Game) (new_move_list : list string) : Game :=
  rebuilt g (g_board g) new_move_list (g_is_white g) (g_parse_error_count g).

(** How a part of the loop body ends. *)
Inductive Flow (A : Type) : Type :=
| Proceed (a : A)             (* execution goes on below the part *)
| ContinueLoop (g : Game)     (* [continue]: next turn of the game loop *)
| NewMatch (parse_error_count : nat)
                              (* find_new_online_match(), then
                                 _start_game_session(...): [continue] with the
                                 new session, or return when there is none *)
| ReturnRun                   (* [return] *)
| RaisedRun (e : Exn).        (* an exception reaches the handler of [run] *)

Arguments Proceed {A} a.
Arguments ContinueLoop {A} g.
Arguments NewMatch {A} parse_error_count.
Arguments ReturnRun {A}.
Arguments RaisedRun {A} e.

Definition new_match_events : Trace := [EvFindNewOnlineMatch; EvStartGameSession].

(** The test at the head of the loop (592-605). *)
Definition parse_error_gate (enable_non_stop_matches : bool) (g : Game)
  : Flow Game * Trace :=
  if max_parse_errors <=? g_parse_error_count g then
    if enable_non_stop_matches then (NewMatch 0, new_match_events)
    else (ReturnRun, [])
  else (Proceed g, []).

(** Parsing the confirmed notation of the bot's own move (791-825).
    [move] is the move in engine notation, [move_san] the confirmed token;
    [g] holds the list already extended with it. *)
Definition confirmed_parse (caps : Caps) (g : Game) (move : string)
    (move_san : option string) (env : nat -> ResyncObs)
  : Flow (option Move * Game) * Trace :=
  let prev_board := g_board g in
  match move_san with
  | None => (Proceed (None, g), [])
  | Some san =>
      if String.eqb san "" then (Proceed (None, g), [])
      else
        match parse_san prev_board (_sanitize_san san) with
        | Some parsed_move => (Proceed (Some parsed_move, with_count g 0), [])
        | None =>
            let n := S (g_parse_error_count g) in
            let r := _resync_move_list_state caps env (g_is_white g)
                       "confirmed move parse failed"
                       (Some (List.length (move_stack (g_board g)) + 1))
                       default_max_attempts in
            match rr_result r with
            | ResyncReturn (Some (board, move_list)) =>
                (ContinueLoop (rebuilt g board move_list (rr_is_white r) n),
                 rr_trace r)
            | ResyncReturn None =>
                match legal_uci prev_board move with
                | Some parsed_move =>
                    (Proceed (Some parsed_move, with_count g 0), rr_trace r)
                | None =>
                    (ContinueLoop (with_count g n), rr_trace r ++ [EvSleep 500])
                end
            | ResyncRaised e => (RaisedRun e, rr_trace r)
            end
        end
  end%list.

(** Parsing the opponent's move (990-1027).  [game_over] is what
    [grabber.is_game_over()] answers if it is asked. *)
Definition opponent_parse (caps : Caps) (enable_non_stop_matches : bool)
    (g : Game) (env : nat -> ResyncObs) (game_over : bool)
  : Flow (Move * Game) * Trace :=
  match last (map Some (g_move_list g)) None with
  | None => (RaisedRun ExnOther, [])        (* move_list[-1]: IndexError *)
  | Some move =>
      match parse_san (g_board g) (_sanitize_san move) with
      | Some move_obj =>
          (Proceed (move_obj,
                    rebuilt g (push (g_board g) move_obj) (g_move_list g)
                            (g_is_white g) 0), [])
      | None =>
          let n := S (g_parse_error_count g) in
          let r := _resync_move_list_state caps env (g_is_white g)
                     "opponent move parse failed"
                     (Some (List.length (move_stack (g_board g)) + 1))
                     default_max_attempts in
          match rr_result r with
          | ResyncReturn None =>
              if game_over then
                if enable_non_stop_matches
                then (NewMatch 0, rr_trace r ++ EvIsGameOver :: new_match_events)
                else (ReturnRun, rr_trace r ++ [EvIsGameOver])
              else (ContinueLoop (with_count g n),
                    rr_trace r ++ [EvIsGameOver; EvSleep 500])
          | ResyncReturn (Some (board, move_list)) =>
              (ContinueLoop (rebuilt g board move_list (rr_is_white r) n),
               rr_trace r)
          | ResyncRaised e => (RaisedRun e, rr_trace r)
          end
      end
  end%list.

(** *** Waiting for the opponent (888-946) *)

(** What the browser shows during one turn of the wait. *)
Record PollObs : Type := {
  po_game_over : bool;                      (* is_game_over() *)
  po_move_list : option (list string);      (* get_move_list() *)
  po_resync : nat -> ResyncObs              (* during a resync, if any *)
}.

Inductive PollOutcome : Type :=
| PollAgain                     (* next turn of the wait, nothing assigned *)
| PollReturn                    (* [return] of [run] *)
| PollRestart                   (* break, [restart_requested] *)
| PollNewGame                   (* break, [new_game_started] *)
| PollResynced (board : Board) (move_list : list string) (is_white : option bool)
                                (* break, [resynced_in_wait] *)
| PollAdvanced (move_list : list string)
                                (* break, [move_list = new_move_list] *)
| PollRaised (e : Exn).

Definition opponent_poll (caps : Caps) (enable_non_stop_matches : bool)
    (g : Game) (previous_move_list : list string) (o : PollObs)
  : PollOutcome * Trace :=
  if po_game_over o then
    if enable_non_stop_matches
    then (PollRestart, [EvIsGameOver; EvFindNewOnlineMatch])
    else (PollReturn, [EvIsGameOver])
  else
    let seen := [EvIsGameOver; EvGetMoveList] in
    match po_move_list o with
    | None => (PollReturn, seen)
    | Some new_move_list =>
        if move_list_has_result new_move_list then
          if enable_non_stop_matches
          then (PollRestart, seen ++ [EvFindNewOnlineMatch])
          else (PollAgain, seen ++ [EvSleep 1000])
        else if List.length new_move_list <? List.length previous_move_list then
          (PollNewGame, seen)
        else if List.length previous_move_list + 1 <? List.length new_move_list then
          let r := _resync_move_list_state caps (po_resync o) (g_is_white g)
                     "move list jumped"
                     (Some (List.length (move_stack (g_board g)) + 1))
                     default_max_attempts in
          match rr_result r with
          | ResyncReturn None => (PollAgain, seen ++ rr_trace r ++ [EvSleep 200])
          | ResyncReturn (Some (board, move_list)) =>
              (PollResynced board move_list (rr_is_white r), seen ++ rr_trace r)
          | ResyncRaised e => (PollRaised e, seen ++ rr_trace r)
          end
        else if List.length previous_move_list <? List.length new_move_list then
          let candidate := nth_error new_move_list (List.length previous_move_list) in
          if _is_san_legal (g_board g) candidate
          then (PollAdvanced new_move_list, seen)
          else (PollAgain, seen ++ [EvSleep 200])
        else (PollAgain, seen ++ [EvSleep 100])
    end%list.

(** The [while True] of the wait over the observations of its turns; the
    outcome is [PollAgain] when the loop is still running after them. *)
Fixpoint opponent_wait (caps : Caps) (enable_non_stop_matches : bool)
    (g : Game) (previous_move_list : list string) (polls : list PollObs)
  : PollOutcome * Trace :=
  match polls with
  | [] => (PollAgain, [])
  | o :: rest =>
      match opponent_poll caps enable_non_stop_matches g previous_move_list o with
      | (PollAgain, t) =>
          let '(r, t') := opponent_wait caps enable_non_stop_matches g
                            previous_move_list rest in
          (r, t ++ t')%list
      | r => r
      end
  end.

End GameLoop.

Arguments Proceed {C A} a.
Arguments ContinueLoop {C A} g.
Arguments NewMatch {C A} parse_error_count.
Arguments ReturnRun {C A}.
Arguments RaisedRun {C A} e.

(** ** Session acquisition: [_wait_for_active_game] (236-440) *)

(** What the clock and the browser answer during one turn of the loop.  A
    field is read only if the turn gets to the call. *)
Record ActiveObs : Type := {
  ao_elapsed : Z;                              (* time.time() - start_time *)
  ao_board : Call bool;                        (* update_board_elem();
                                                  get_board() is not None *)
  ao_game_id : Call (option string);           (* get_current_game_id() *)
  ao_is_white : Call (option bool);            (* is_white() *)
  ao_starting : Call (option bool);            (* is_starting_position() *)
  ao_game_over : Call bool;                    (* is_game_over() *)
  ao_move_list : Call (option (list string));  (* get_move_list() *)
  ao_starting_again : Call (option bool)       (* is_starting_position(),
                                                  asked again after a None *)
}.

(** The local variables that live across the turns, and [self.is_white]. *)
Record ActiveState : Type := {
  as_last_move_list_len : option nat;
  as_ready_streak : nat;
  as_unknown_starting_streak : nat;
  as_is_white : option bool
}.

Definition active_init (is_white : option bool) : ActiveState :=
  {| as_last_move_list_len := None; as_ready_streak := 0;
     as_unknown_starting_streak := 0; as_is_white := is_white |}.

Definition set_ready (s : ActiveState) (n : nat) : ActiveState :=
  {| as_last_move_list_len := as_last_move_list_len s; as_ready_streak := n;
     as_unknown_starting_streak := as_unknown_starting_streak s;
     as_is_white := as_is_white s |}.

Definition set_unknown (s : ActiveState) (n : nat) : ActiveState :=
  {| as_last_move_list_len := as_last_move_list_len s;
     as_ready_streak := as_ready_streak s;
     as_unknown_starting_streak := n; as_is_white := as_is_white s |}.

Definition set_last_len (s : ActiveState) (l : option nat) : ActiveState :=
  {| as_last_move_list_len := l; as_ready_streak := as_ready_streak s;
     as_unknown_starting_streak := as_unknown_starting_streak s;
     as_is_white := as_is_white s |}.

Definition set_white (s : ActiveState) (w : option bool) : ActiveState :=
  {| as_last_move_list_len := as_last_move_list_len s;
     as_ready_streak := as_ready_streak s;
     as_unknown_starting_streak := as_unknown_starting_streak s;
     as_is_white := w |}.

(** [stable_required] (241) and [starting_unknown_required] (242). *)
Definition stable_required (previous_game_id : option string) : nat :=
  match previous_game_id with Some _ => 3 | None => 2 end.

Definition starting_unknown_required (previous_game_id : option string) : nat :=
  match previous_game_id with Some _ => 10 | None => 6 end.

(** A call wrapped in [try: ... except Exception: ... = None]. *)
Definition or_none {A : Type} (c : Call (option A)) : option A :=
  match c with Returns r => r | Raises _ => None end.

Section ActiveGame.

Context `{C : Chess}.

Inductive ActiveStep : Type :=
| ActiveNext (s : ActiveState)        (* sleep(poll_delay), next turn *)
| ActiveReturn (r : option (Board * list string)) (is_white : option bool)
| ActiveRaised (e : Exn).

(** [id_changed] after lines 269-279. *)
Definition id_changed (caps : Caps) (previous_game_id : option string)
    (o : ActiveObs) : bool :=
  match previous_game_id with
  | Some previous =>
      if has_get_current_game_id caps then
        match or_none (ao_game_id o) with
        | None => false
        | Some current => negb (String.eqb current previous)
        end
      else true
  | None => true
  end.

(** [expected_max_moves] (411): [1 if not self.is_white else 0]. *)
Definition expected_max_moves (is_white : option bool) : nat :=
  match is_white with Some true => 0 | _ => 1 end.

(** Lines 346-365: an empty list is a candidate only with the board at
    the starting position.  [inl] is a [continue], [inr] goes on. *)
Definition judge_empty (caps : Caps) (previous_game_id : option string)
    (s : ActiveState) (is_starting : option bool) (len : nat)
  : ActiveState + ActiveState :=
  if len =? 0 then
    if truthy is_starting then inr (set_unknown s 0)
    else
      let s := set_ready s 0 in
      if has_is_starting_position caps then inl s
      else
        let s := set_unknown s (S (as_unknown_starting_streak s)) in
        if as_unknown_starting_streak s <? starting_unknown_required previous_game_id
        then inl s else inr s
  else inr (set_unknown s 0).

(** Why a list read with the board at the starting position is taken for
    the rest of the game before: it holds a result marker (375), it
    replays to a finished game (395), or it is too long for a game that
    has just started (410-412). *)
Definition stale_list (previous_game_id : option string)
    (is_white : option bool) (move_list : list string) : Prop :=
  move_list_has_result move_list = true
  \/ exists board,
       _try_build_board_from_moves move_list = Some board
       /\ (is_game_over board = true
           \/ (previous_game_id <> None
               /\ expected_max_moves is_white + 5 < List.length move_list)).

(** Lines 346-440: the reading [move_list] is judged. *)
Definition active_judge (caps : Caps) (previous_game_id : option string)
    (s : ActiveState) (changed : bool) (is_starting : option bool)
    (move_list : list string) : ActiveStep :=
  let len := List.length move_list in
  let fresh := ActiveReturn (Some (start_board, [])) (as_is_white s) in
  match judge_empty caps previous_game_id s is_starting len with
  | inl s => ActiveNext s
  | inr s =>
      (* 367-373 *)
      let shrank :=
        match as_last_move_list_len s with
        | Some l => len <? l
        | None => false
        end in
      if shrank then ActiveNext (set_last_len s None)
      else
        let s := set_last_len s (Some len) in
        (* 375-385 *)
        if move_list_has_result move_list then
          if truthy is_starting then fresh else ActiveNext s
        else
          (* 388-392 *)
          match _try_build_board_from_moves move_list with
          | None => ActiveNext s
          | Some board =>
              (* 395-405 *)
              if is_game_over board then
                if truthy is_starting then fresh else ActiveNext s
              else
                let emax := expected_max_moves (as_is_white s) in
                (* 410-422 *)
                if match previous_game_id with
                   | Some _ => emax + 5 <? len
                   | None => false
                   end
                then if truthy is_starting then fresh else ActiveNext s
                else
                  (* 424-431 *)
                  if match previous_game_id with
                     | Some _ =>
                         negb changed
                         && negb (truthy is_starting || (len <=? emax + 1))
                     | None => false
                     end
                  then ActiveNext (set_ready s 0)
                  else
                    (* 433-440 *)
                    let s := set_ready s (S (as_ready_streak s)) in
                    if stable_required previous_game_id <=? as_ready_streak s
                    then ActiveReturn (Some (board, move_list)) (as_is_white s)
                    else ActiveNext s
          end
  end.

(** One turn of the [while True] loop (249-440). *)
Definition active_step (caps : Caps) (max_wait : Z)
    (previous_game_id : option string) (skip_modal_check : bool)
    (s : ActiveState) (o : ActiveObs) : ActiveStep :=
  if (max_wait <? ao_elapsed o)%Z then ActiveReturn None (as_is_white s)
  else
    match ao_board o with
    | Raises ExnStale => ActiveNext (set_ready s 0)
    | Raises e => ActiveRaised e
    | Returns false => ActiveNext s
    | Returns true =>
        let changed := id_changed caps previous_game_id o in
        match ao_is_white o with
        | Raises ExnStale => ActiveNext (set_ready s 0)
        | Raises e => ActiveRaised e
        | Returns None => ActiveNext (set_white s None)
        | Returns (Some w) =>
            let s := set_white s (Some w) in
            let starting1 :=
              if has_is_starting_position caps then or_none (ao_starting o)
              else None in
            (* 308-326: [None] goes on, [Some s'] is a [continue] *)
            let modal : option ActiveState :=
              if skip_modal_check then None
              else if has_is_game_over caps then
                match ao_game_over o with
                | Returns true => if truthy starting1 then None else Some s
                | Returns false => None
                | Raises ExnStale => Some (set_ready s 0)
                | Raises _ => None
                end
              else None in
            match modal with
            | Some s' => ActiveNext s'
            | None =>
                match ao_move_list o with
                | Raises ExnStale => ActiveNext (set_ready s 0)
                | Raises e => ActiveRaised e
                | Returns None => ActiveNext s
                | Returns (Some move_list) =>
                    let is_starting :=
                      match starting1 with
                      | None =>
                          if has_is_starting_position caps
                          then or_none (ao_starting_again o) else None
                      | Some v => Some v
                      end in
                    active_judge caps previous_game_id s changed is_starting move_list
                end
            end
        end
    end.

Inductive ActiveResult : Type :=
| ActiveDone (r : option (Board * list string)) (is_white : option bool)
| ActiveFailed (e : Exn)
| ActivePending (s : ActiveState).    (* still looping after the observations *)

Fixpoint active_loop (caps : Caps) (max_wait : Z)
    (previous_game_id : option string) (skip_modal_check : bool)
    (s : ActiveState) (obs : list ActiveObs) : ActiveResult :=
  match obs with
  | [] => ActivePending s
  | o :: rest =>
      match active_step caps max_wait previous_game_id skip_modal_check s o with
      | ActiveNext s' =>
          active_loop caps max_wait previous_game_id skip_modal_check s' rest
      | ActiveReturn r w => ActiveDone r w
      | ActiveRaised e => ActiveFailed e
      end
  end.

Definition _wait_for_active_game (caps : Caps) (is_white : option bool)
    (max_wait : Z) (previous_game_id : option string)
    (skip_modal_check : bool) (obs : list ActiveObs) : ActiveResult :=
  active_loop caps max_wait previous_game_id skip_modal_check
              (active_init is_white) obs.

End ActiveGame.

(** ** The move-list cache of [ChesscomGrabber] *)

Module Grabber.

(** The fields of the grabber that [get_move_list] and [reset_moves_list]
    use.  [moves_list] is a [dict] from node ids to notation tokens: a list
    of pairs in insertion order, without two pairs of the same key. *)
Record t : Type := {
  moves_list : list (string * string);
  _current_game_id : option string;
  _empty_visible_moves_count : nat
}.

(** A displayed move node of the visible container: whether it carries a
    truthy [data-processed] attribute, and what lines 336-399 compute for
    it, the node id and the token to store under it ([None] when the node
    is skipped: it is stale, or is not a move). *)
Record Node : Type := {
  nd_processed : bool;
  nd_move : option (string * string)
}.

(** What the page shows during one call of [get_move_list]. *)
Record Page : Type := {
  pg_game_id : option string;             (* get_current_game_id() *)
  pg_visible_moves : option (list Node)   (* [None]: no visible container *)
}.

(** [d[k] = v] *)
Fixpoint dict_set (d : list (string * string)) (k v : string)
  : list (string * string) :=
  match d with
  | [] => [(k, v)]
  | (k', v') :: r =>
      if String.eqb k k' then (k, v) :: r else (k', v') :: dict_set r k v
  end.

(** [list(d.values())] *)
Definition dict_values (d : list (string * string)) : list string := map snd d.

(** A dict is truthy when it is not empty. *)
Definition dict_truthy (d : list (string * string)) : bool :=
  match d with [] => false | _ :: _ => true end.

(** An optional string is truthy when it is a non-empty string. *)
Definition str_truthy (s : option string) : bool :=
  match s with
  | Some v => negb (String.eqb v "")
  | None => false
  end.

(** [reset_moves_list] (261-274). *)
Definition reset_moves_list (g : t) : t :=
  {| moves_list := []; _current_game_id := None;
     _empty_visible_moves_count := 0 |}.

(** The test of line 279: the game id read differs from the one known. *)
Definition game_id_changed (g : t) (p : Page) : bool :=
  str_truthy (pg_game_id p) && str_truthy (_current_game_id g)
  && match pg_game_id p, _current_game_id g with
     | Some a, Some b => negb (String.eqb a b)
     | _, _ => false
     end.

(** Lines 310-319: the debounce of an empty list of visible moves. *)
Definition debounce (g : t) (visible_moves : list Node) : t :=
  if (List.length visible_moves =? 0) && dict_truthy (moves_list g) then
    let n := S (_empty_visible_moves_count g) in
    if 3 <=? n then reset_moves_list g
    else {| moves_list := moves_list g; _current_game_id := _current_game_id g;
            _empty_visible_moves_count := n |}
  else {| moves_list := moves_list g; _current_game_id := _current_game_id g;
          _empty_visible_moves_count := 0 |}.

(** Lines 335-405: the selected nodes are stored. *)
Definition store (d : list (string * string)) (moves : list Node)
  : list (string * string) :=
  fold_left (fun d nd => match nd_move nd with
                         | Some (k, v) => dict_set d k v
                         | None => d
                         end) moves d.

(** [get_move_list] (276-407): the grabber afterwards and the value
    returned. *)
Definition get_move_list (g : t) (p : Page) : t * option (list string) :=
  let g1 :=
    {| moves_list := if game_id_changed g p then [] else moves_list g;
       _current_game_id := pg_game_id p;
       _empty_visible_moves_count := _empty_visible_moves_count g |} in
  match pg_visible_moves p with
  | None => (g1, None)
  | Some visible_moves =>
      let g2 := debounce g1 visible_moves in
      let moves :=
        if dict_truthy (moves_list g2)
        then filter (fun nd => negb (nd_processed nd)) visible_moves
        else visible_moves in
      let g3 :=
        {| moves_list := store (moves_list g2) moves;
           _current_game_id := _current_game_id g2;
           _empty_visible_moves_count := _empty_visible_moves_count g2 |} in
      (g3, Some (dict_values (moves_list g3)))
  end.

(** The grabber after the calls of [get_move_list] on a sequence of pages,
    with the value returned by the last call. *)
Fixpoint polls (g : t) (last : option (list string)) (ps : list Page)
  : t * option (list string) :=
  match ps with
  | [] => (g, last)
  | p :: r => let '(g', v) := get_move_list g p in polls g' v r
  end.

(** A page where the container is visible and holds no move. *)
Definition empty_page (game_id : option string) : Page :=
  {| pg_game_id := game_id; pg_visible_moves := Some [] |}.

End Grabber.

(** ** Worked cases

    Concrete observations, on the small chess instance, on which the model
    is run in the last part. *)

Module Cases.

Definition bot_game (count : nat) : Game (C := Book.chess) :=
  {| g_board := start_board (Chess := Book.chess); g_move_list := [];
     g_is_white := Some false; g_parse_error_count := count |}.

(** The browser shows no move list at all. *)
Definition quiet : ResyncObs :=
  {| ro_move_list := Returns None; ro_starting := Returns None;
     ro_is_white := Returns None |}.

(** The browser shows the list [l]; the board is not at the start. *)
Definition shows (l : list string) : ResyncObs :=
  {| ro_move_list := Returns (Some l); ro_starting := Returns (Some false);
     ro_is_white := Returns (Some true) |}.

(** Three attempts are given up (nothing to read, a finished game, a token
    that is no move) before a clean list is read. *)
Definition settling (attempt : nat) : ResyncObs :=
  match attempt with
  | 0 => quiet
  | 1 => shows ["e4"; "e5"; "1-0"]
  | 2 => shows ["e4"; "Zz9"]
  | _ => shows ["e4"; "e5"; "Nf3"]
  end.

(** The browser keeps showing a finished game. *)
Definition finished (attempt : nat) : ResyncObs := shows ["e4"; "e5"; "1-0"].

Definition poll_of (l : list string) : PollObs :=
  {| po_game_over := false; po_move_list := Some l; po_resync := settling |}.

(** The move never shows up: the list is still empty after 100 ms, and
    the next look at the clock is five seconds after the start. *)
Definition never_shown : ConfirmEnv :=
  {| ce_start := 0;
     ce_polls := [ {| cp_now := 100; cp_move_list := Some [] |};
                   {| cp_now := 5000; cp_move_list := Some ["e4"] |} ] |}.

(** Two moves show up at once, and the first is not the one played. *)
Definition other_moves : list ConfirmPoll :=
  [ {| cp_now := 10; cp_move_list := Some ["d4"; "d5"] |} ].

(** A turn of the session wait in which everything can be read. *)
Definition reading (starting : option bool) (l : option (list string))
  : ActiveObs :=
  {| ao_elapsed := 0; ao_board := Returns true; ao_game_id := Returns None;
     ao_is_white := Returns (Some true); ao_starting := Returns starting;
     ao_game_over := Returns false; ao_move_list := Returns l;
     ao_starting_again := Returns starting |}.

(** A turn in which the position of the board cannot be read, the
    element being stale at both calls, while the list is read. *)
Definition unreadable_position (l : list string) : ActiveObs :=
  {| ao_elapsed := 0; ao_board := Returns true; ao_game_id := Returns None;
     ao_is_white := Returns (Some true); ao_starting := Raises ExnStale;
     ao_game_over := Returns false; ao_move_list := Returns (Some l);
     ao_starting_again := Raises ExnStale |}.

Definition cached : Grabber.t :=
  {| Grabber.moves_list := [("0", "e4"); ("1", "e5")];
     Grabber._current_game_id := Some "live_1";
     Grabber._empty_visible_moves_count := 0 |}.

Definition blank : Grabber.Page := Grabber.empty_page (Some "live_1").

(** The page of another game, before its first move. *)
Definition next_game : Grabber.Page := Grabber.empty_page (Some "live_2").

End Cases.

(** ** More Python string primitives *)

Module PyText.

(** [s.split(c)] for a separator of one character. *)
Fixpoint split_on (c : ascii) (s : string) : list string :=
  match s with
  | EmptyString => [""]
  | String a r =>
      if Ascii.eqb a c then "" :: split_on c r
      else match split_on c r with
           | h :: t => String a h :: t
           | [] => [String a ""]
           end
  end.

(** [s[n:]] *)
Fixpoint drop (n : nat) (s : string) : string :=
  match n, s with
  | O, _ => s
  | S n', String _ r => drop n' r
  | S _, EmptyString => ""
  end.

(** [s[:n]] *)
Fixpoint take (n : nat) (s : string) : string :=
  match n, s with
  | O, _ => ""
  | S n', String a r => String a (take n' r)
  | S _, EmptyString => ""
  end.

(** [c in s] for a string [c] of one character. *)
Fixpoint contains (c : ascii) (s : string) : bool :=
  match s with
  | EmptyString => false
  | String a r => Ascii.eqb a c || contains c r
  end.

(** [str(n)] for a natural number. *)
Definition str_nat (n : nat) : string := NilEmpty.string_of_uint (Nat.to_uint n).

(** [l[i]] where the code has made sure that the index exists. *)
Definition item (l : list string) (i : nat) : string := nth i l "".

End PyText.

(** ** The supervising process

    The other end of the pipe: [PipeCommunicatorWorker._handle_message]
    (workers.py, 126-180), the slots of the main window that it reaches
    (gui_pyqt.py, 698-770) and the table of moves (widgets/moves_table.py). *)

Module Supervisor.

Import PyText.

(** The signals of [GUISignals] that the worker emits. *)
Inductive Signal : Type :=
| clear_moves
| bot_started
| restart_requested
| single_move (move : string)
| multiple_moves (moves : list string)
| eval_updated (eval_str wdl_str material_str bot_acc opp_acc : string)
| error_occurred (title message : string).

(** [error_map] (159-166), in the order of the dict. *)
Definition error_map : list (string * (string * string)) :=
  [ ("ERR_EXE", ("Error", "Stockfish path provided is not valid!"));
    ("ERR_PERM", ("Error", "Stockfish path provided is not executable!"));
    ("ERR_BOARD", ("Error", "Can't find board!"));
    ("ERR_COLOR", ("Error", "Can't find player color!"));
    ("ERR_MOVES", ("Error", "Can't find moves list!"));
    ("ERR_GAMEOVER", ("Error", "Game has already finished!")) ].

(** [key in error_map] and [error_map[key]]. *)
Fixpoint lookup (key : string) (d : list (string * (string * string)))
  : option (string * string) :=
  match d with
  | [] => None
  | (k, v) :: r => if String.eqb key k then Some v else lookup key r
  end.

(** The [for ... if data.startswith(key): ... break] of lines 177-180. *)
Fixpoint first_prefix (data : string) (d : list (string * (string * string)))
  : option (string * string) :=
  match d with
  | [] => None
  | (k, v) :: r => if String.prefix k data then Some v else first_prefix data r
  end.

(** [_handle_message]: the signals emitted for a message, in order. *)
Definition _handle_message (data : string) : list Signal :=
  if String.eqb data "START" then [clear_moves; bot_started]
  else if String.eqb data "RESTART" then [restart_requested]
  else if String.prefix "S_MOVE" data then [single_move (drop 6 data)]
  else if String.prefix "M_MOVE" data then
    let moves_str := drop 6 data in
    [multiple_moves (if String.eqb moves_str "" then []
                     else split_on "," moves_str)]
  else if String.prefix "EVAL|" data then
    let parts := split_on "|" data in
    if 6 <=? List.length parts
    then [eval_updated (item parts 1) (item parts 2) (item parts 3)
                       (item parts 4) (item parts 5)]
    else []
  else if String.prefix "ERR_" data then
    if String.prefix "ERR_RUNTIME" data then
      let error_msg :=
        if contains "|" data then item (split_on "|" data) 1
        else "Unknown error" in
      [error_occurred "Runtime Error"
         ("Bot encountered an error: " ++ error_msg)]
    else
      match lookup (take 12 data) error_map with
      | Some (title, message) => [error_occurred title message]
      | None =>
          match first_prefix data error_map with
          | Some (title, message) => [error_occurred title message]
          | None => []
          end
      end
  else [].

(** *** The table of moves ([MovesTable]) *)

(** The items of a row: the move number, White's move, and Black's move
    when the cell holds an item. *)
Record Row : Type := {
  cell0 : string;
  cell1 : string;
  cell2 : option string
}.

Record MovesTable : Type := {
  rows : list Row;
  _moves : list string
}.

(** [clear_moves] (81-84). *)
Definition table_clear (t : MovesTable) : MovesTable :=
  {| rows := []; _moves := [] |}.

(** [_set_cell(i, 2, move)] *)
Fixpoint set_cell2 (i : nat) (move : string) (l : list Row) : list Row :=
  match l, i with
  | [], _ => []
  | r :: l', O =>
      {| cell0 := cell0 r; cell1 := cell1 r; cell2 := Some move |} :: l'
  | r :: l', S i' => r :: set_cell2 i' move l'
  end.

(** The row inserted at index [row] for White's move. *)
Definition white_row (row : nat) (move : string) (black : option string) : Row :=
  {| cell0 := str_nat (row + 1); cell1 := move; cell2 := black |}.

(** [add_move] (45-62). *)
Definition add_move (t : MovesTable) (move : string) : MovesTable :=
  let row_count := List.length (rows t) in
  let last_has_black :=
    match nth_error (rows t) (row_count - 1) with
    | Some r => match cell2 r with Some _ => true | None => false end
    | None => false
    end in
  {| rows :=
       if (row_count =? 0) || last_has_black
       then rows t ++ [white_row row_count move None]
       else set_cell2 (row_count - 1) move (rows t);
     _moves := _moves t ++ [move] |}%list.

(** [range(0, n, 2)] *)
Definition range_by_two (n : nat) : list nat :=
  map (fun k => 2 * k) (seq 0 ((n + 1) / 2)).

(** [set_moves] (64-79). *)
Definition set_moves (t : MovesTable) (moves : list string) : MovesTable :=
  {| rows :=
       fold_left
         (fun rows i =>
            rows ++ [white_row (List.length rows) (item moves i)
                       (if i + 1 <? List.length moves
                        then Some (item moves (i + 1)) else None)])%list
         (range_by_two (List.length moves)) [];
     _moves := moves |}.

(** [get_moves] (86-88). *)
Definition get_moves (t : MovesTable) : list string := _moves t.

(** The rows that pair the moves of a list, the first row at index [k]. *)
Fixpoint paired (k : nat) (moves : list string) : list Row :=
  match moves with
  | [] => []
  | w :: rest =>
      match rest with
      | [] => [white_row k w None]
      | b :: rest' => white_row k w (Some b) :: paired (S k) rest'
      end
  end.

(** *** The main window *)

(** What the slots below use of the window: the list [match_moves], the
    table, whether [stockfish_bot_pipe] is set, and the flag [running]. *)
Record Window : Type := {
  match_moves : list string;
  moves_table : MovesTable;
  has_pipe : bool;
  running : bool
}.

(** [_stop_bot] (gui_pyqt.py, 569-610): ["DELETE"] is sent when the pipe is
    set, the pipe is dropped and the bot no longer runs.  The process of
    the bot is killed, so that no message of the bot follows. *)
Definition _stop_bot (g : Window) : Window * list string :=
  ({| match_moves := match_moves g; moves_table := moves_table g;
      has_pipe := false; running := false |},
   if has_pipe g then ["DELETE"] else []).

(** The slot of a signal (gui_pyqt.py, 698-770): the window afterwards
    and the messages sent to the bot. *)
Definition slot (g : Window) (s : Signal) : Window * list string :=
  match s with
  | clear_moves =>                                   (* _on_clear_moves *)
      ({| match_moves := []; moves_table := table_clear (moves_table g);
          has_pipe := has_pipe g; running := running g |}, [])
  | bot_started =>                                   (* _on_bot_started *)
      ({| match_moves := match_moves g; moves_table := moves_table g;
          has_pipe := has_pipe g; running := true |}, [])
  | restart_requested =>                             (* _on_restart_requested *)
      (g, if has_pipe g then ["DELETE"] else [])
  | single_move move =>                              (* _on_single_move *)
      ({| match_moves := match_moves g ++ [move];
          moves_table := add_move (moves_table g) move;
          has_pipe := has_pipe g; running := running g |}, [])
  | multiple_moves moves =>                          (* _on_multiple_moves *)
      ({| match_moves := moves;
          moves_table := set_moves (moves_table g) moves;
          has_pipe := has_pipe g; running := running g |}, [])
  | eval_updated _ _ _ _ _ => (g, [])                (* _on_eval_updated *)
  | error_occurred _ _ =>                            (* _on_error *)
      if running g then _stop_bot g else (g, [])
  end%list.

Definition slots (g : Window) (signals : list Signal) : Window * list string :=
  fold_left (fun '(g, out) s => let '(g', o) := slot g s in (g', out ++ o)%list)
            signals (g, []).

(** The window after the messages of the bot, received in order, and the
    messages sent back. *)
Definition receive (g : Window) (messages : list string) : Window * list string :=
  fold_left (fun '(g, out) data =>
               let '(g', o) := slots g (_handle_message data) in
               (g', out ++ o)%list)
            messages (g, []).

End Supervisor.

(** The messages that a trace sends on the pipe, in order. *)
Fixpoint sent (t : Trace) : list string :=
  match t with
  | [] => []
  | EvPipeSend msg :: r => msg :: sent r
  | _ :: r => sent r
  end.

(** ** Starting and leaving a game *)

(** What the methods below do besides the events of a resync. *)
Inductive Act : Type :=
| Ev (e : Event)
| ActClickGameNext             (* grabber.click_game_next() *)
| ActGetCurrentGameId          (* grabber.get_current_game_id() *)
| ActMoveTo (square : string)  (* pyautogui.moveTo at the square *)
| ActDragTo (square : string)  (* pyautogui.dragTo at the square *)
| ActClick.                    (* pyautogui.click(button='left') *)

(** The messages that a sequence of acts sends on the pipe, in order. *)
Definition messages (acts : list Act) : list string :=
  sent (flat_map (fun a => match a with Ev e => [e] | _ => [] end) acts).

Definition is_click_game_next (a : Act) : bool :=
  match a with ActClickGameNext => true | _ => false end.

(** What [send_eval_data] (1082-1182) puts on the pipe: one message made
    of five fields, or nothing when an exception stops it before. *)
Definition send_eval_data (fields : option (string * string * string * string * string))
  : list Act :=
  match fields with
  | Some (eval_str, wdl_str, material, bot_accuracy, opponent_accuracy) =>
      [Ev (EvPipeSend ("EVAL|" ++ eval_str ++ "|" ++ wdl_str ++ "|" ++ material
                         ++ "|" ++ bot_accuracy ++ "|" ++ opponent_accuracy))]
  | None => []
  end.

(** *** [find_new_online_match] (478-515) *)

(** One turn of the wait for the game-over modal to go: the clock and what
    [is_game_over()] answers. *)
Record ModalPoll : Type := {
  mp_now : Z;
  mp_game_over : Call bool
}.

Record LeaveEnv : Type := {
  le_click : bool;                (* click_game_next() *)
  le_click_again : bool;          (* click_game_next(), second try *)
  le_modal_start : Z;             (* time.time() before the wait *)
  le_modal : list ModalPoll;
  le_inbox : list (Call string)   (* what pipe.recv() will return *)
}.

(** The [while ... < 15] loop (494-503): its acts, and whether it has
    ended within the observations given. *)
Fixpoint modal_wait (start : Z) (polls : list ModalPoll) : list Act * bool :=
  match polls with
  | [] => ([], false)
  | p :: rest =>
      if (mp_now p - start <? 15000)%Z then
        match mp_game_over p with
        | Returns false => ([Ev EvIsGameOver], true)
        | Raises _ => ([Ev EvIsGameOver], true)
        | Returns true =>
            let '(t, ended) := modal_wait start rest in
            (Ev EvIsGameOver :: Ev (EvSleep 500) :: t, ended)
        end
      else ([], true)
  end.

Inductive Left : Type :=
| LeftDone (rest : list (Call string))   (* the method returns *)
| LeftBlocked                            (* for ever in pipe.recv() *)
| LeftRaised (e : Exn)
| LeftPending.                           (* still waiting for the modal *)

Definition find_new_online_match (env : LeaveEnv) : list Act * Left :=
  let clicks :=
    Ev (EvSleep 1500) :: ActClickGameNext
      :: (if le_click env then []
          else [Ev (EvSleep 2000); ActClickGameNext]) in
  let '(modal, ended) := modal_wait (le_modal_start env) (le_modal env) in
  if ended then
    ((clicks ++ modal
        ++ [Ev (EvSleep 1000); Ev EvResetMovesList; Ev (EvPipeSend "RESTART")])%list,
     match wait_for_gui_to_delete (le_inbox env) with
     | DeleteReceived _ rest => LeftDone rest
     | DeleteBlocked _ => LeftBlocked
     | DeleteRaised _ e => LeftRaised e
     end)
  else ((clicks ++ modal)%list, LeftPending).

(** *** [_start_game_session] (442-476) *)

Definition err_timed_out : string :=
  "ERR_RUNTIME|Timed out waiting for a new game. Make sure your new game is visible and try again.".

Section Session.

Context `{C : Chess}.

Inductive Started : Type :=
| SessionStarted (board : Board) (move_list : list string)
                 (is_white : option bool) (last_game_id : option string)
| SessionNone (is_white : option bool)     (* [return None] *)
| SessionRaised (e : Exn)
| SessionPending.

(** [game_id] is what [get_current_game_id()] answers, [eval] what
    [send_eval_data] sends. *)
Definition _start_game_session (caps : Caps) (is_white : option bool)
    (last_game_id previous_game_id : option string) (skip_modal_check : bool)
    (obs : list ActiveObs) (game_id : Call (option string))
    (eval : option (string * string * string * string * string))
  : list Act * Started :=
  let max_wait_seconds :=
    match previous_game_id with Some _ => 60000%Z | None => 30000%Z end in
  match _wait_for_active_game caps is_white max_wait_seconds previous_game_id
          skip_modal_check obs with
  | ActivePending _ => ([], SessionPending)
  | ActiveFailed e => ([], SessionRaised e)
  | ActiveDone None w => ([Ev (EvPipeSend err_timed_out)], SessionNone w)
  | ActiveDone (Some (board, move_list)) w =>
      let id_acts := if has_get_current_game_id caps then [ActGetCurrentGameId] else [] in
      let last_game_id' :=
        if has_get_current_game_id caps then
          match game_id with
          | Returns id => id
          | Raises _ => last_game_id
          end
        else last_game_id in
      (id_acts ++ [Ev (EvSetPosition (map uci (move_stack board)))]
         ++ send_eval_data eval ++ [Ev (EvPipeSend "START")]
         ++ match move_list with
            | [] => []
            | _ :: _ => [Ev (EvPipeSend ("M_MOVE" ++ join_comma move_list))]
            end,
       SessionStarted board move_list w last_game_id')
  end%list.

(** *** The branch of [run] for a game that has started anew (948-975) *)

Inductive Renewed : Type :=
| RenewedGame (g : Game)                 (* [continue] with the new game *)
| RenewedBlocked
| RenewedRaised (e : Exn).

(** [fresh] is what [get_move_list()] answers after the reset (951),
    [white] what [is_white()] answers (965); an exception of either leaves
    the branch, and [run], before anything is sent. *)
Definition new_game_branch (g : Game) (fresh : Call (option (list string)))
    (white : Call (option bool))
    (eval : option (string * string * string * string * string))
    (inbox : list (Call string)) : list Act * Renewed :=
  match fresh with
  | Raises e => ([Ev EvResetMovesList; Ev EvGetMoveList], RenewedRaised e)
  | Returns fresh =>
      let fresh_move_list := match fresh with Some l => l | None => [] end in
      let '(fresh_move_list, board) :=
        match _try_build_board_from_moves fresh_move_list with
        | Some board => (fresh_move_list, board)
        | None => ([], start_board)
        end in
      let position :=
        [Ev EvResetMovesList; Ev EvGetMoveList;
         Ev (EvSetPosition (map uci (move_stack board))); Ev EvIsWhite] in
      match white with
      | Raises e => (position, RenewedRaised e)
      | Returns white =>
          let before := position ++ [Ev (EvPipeSend "RESTART")] in
          match wait_for_gui_to_delete inbox with
          | DeleteBlocked _ => (before, RenewedBlocked)
          | DeleteRaised _ e => (before, RenewedRaised e)
          | DeleteReceived _ _ =>
              (before ++ send_eval_data eval ++ [Ev (EvPipeSend "START")]
                 ++ match fresh_move_list with
                    | [] => []
                    | _ :: _ =>
                        [Ev (EvPipeSend ("M_MOVE" ++ join_comma fresh_move_list))]
                    end,
               RenewedGame {| g_board := board; g_move_list := fresh_move_list;
                              g_is_white := white;
                              g_parse_error_count := g_parse_error_count g |})
          end
      end
  end%list.

End Session.

(** The window shows the list of moves [move_list]. *)
Definition window_shows (g : Supervisor.Window) (move_list : list string) : Prop :=
  Supervisor.match_moves g = move_list
  /\ Supervisor.get_moves (Supervisor.moves_table g) = move_list
  /\ Supervisor.rows (Supervisor.moves_table g) = Supervisor.paired 0 move_list.

(** The board holds as many moves as the move list has tokens. *)
Definition consistent `{C : Chess} (g : Game) : Prop :=
  List.length (move_stack (g_board g)) = List.length (g_move_list g).

(** Worked cases for the start and the end of a game. *)
Module Cases2.

(** The first click fails; the modal is still there at the first look and
    gone at the second; the supervising process answers ["DELETE"]. *)
Definition leaving : LeaveEnv :=
  {| le_click := false; le_click_again := true; le_modal_start := 0;
     le_modal := [ {| mp_now := 10; mp_game_over := Returns true |};
                   {| mp_now := 520; mp_game_over := Returns false |} ];
     le_inbox := [Returns "DELETE"] |}.

Definition window : Supervisor.Window :=
  {| Supervisor.match_moves := ["d4"];
     Supervisor.moves_table :=
       Supervisor.add_move (Supervisor.table_clear
                              {| Supervisor.rows := []; Supervisor._moves := [] |})
                           "d4";
     Supervisor.has_pipe := true;
     Supervisor.running := true |}.

Definition fields : option (string * string * string * string * string) :=
  Some ("0.31", "40.0/50.0/10.0", "0", "-", "-").

End Cases2.

(** ** Squares and pieces on the page *)

(** [char_to_num] (utilities.py, 8-9): [ord(char) - ord("a") + 1]. *)
Definition char_to_num (char : ascii) : Z :=
  (Z.of_nat (nat_of_ascii char) - Z.of_nat (nat_of_ascii "a") + 1)%Z.

(** [int(c)] for a string [c] of one character: its value when [c] is a
    decimal digit, [None] for the [ValueError] otherwise. *)
Definition int_of_char (c : ascii) : option nat :=
  let n := nat_of_ascii c in
  if (48 <=? n) && (n <=? 57) then Some (n - 48) else None.

Module Board.

(** [_square_id_to_coord] (chesscom_grabber.py, 58-69). *)
Definition _square_id_to_coord (square_id : string) : option string :=
  match square_id with
  | String c0 (String c1 _) =>
      match int_of_char c0, int_of_char c1 with
      | Some file_num, Some rank_num =>
          if (file_num <? 1) || (8 <? file_num)
             || (rank_num <? 1) || (8 <? rank_num)
          then None
          else Some (String (ascii_of_nat (nat_of_ascii "a" + file_num - 1))
                            (PyText.str_nat rank_num))
      | _, _ => None
      end
  | _ => None
  end.

(** [expected] (88-93), in the order of the dict. *)
Definition expected : list (string * string) :=
  [ ("a1", "wr"); ("b1", "wn"); ("c1", "wb"); ("d1", "wq");
    ("e1", "wk"); ("f1", "wb"); ("g1", "wn"); ("h1", "wr");
    ("a2", "wp"); ("b2", "wp"); ("c2", "wp"); ("d2", "wp");
    ("e2", "wp"); ("f2", "wp"); ("g2", "wp"); ("h2", "wp");
    ("a7", "bp"); ("b7", "bp"); ("c7", "bp"); ("d7", "bp");
    ("e7", "bp"); ("f7", "bp"); ("g7", "bp"); ("h7", "bp");
    ("a8", "br"); ("b8", "bn"); ("c8", "bb"); ("d8", "bq");
    ("e8", "bk"); ("f8", "bb"); ("g8", "bn"); ("h8", "br") ].

(** [c in piece_classes], the set of the values of [expected]. *)
Definition is_piece_class (c : string) : bool :=
  existsb (fun kv => String.eqb c (snd kv)) expected.

(** [d.get(key)] *)
Fixpoint dict_get (d : list (string * string)) (key : string) : option string :=
  match d with
  | [] => None
  | (k, v) :: r => if String.eqb key k then Some v else dict_get r key
  end.

(** The body of the loop over the pieces (97-108) for the classes of one
    piece: [found] afterwards. *)
Definition note_piece (found : list (string * string)) (classes : list string)
  : list (string * string) :=
  match find (String.prefix "square-") classes, find is_piece_class classes with
  | Some square_class, Some piece_class =>
      let square_id := PyText.item (PyText.split_on "-" square_class) 1 in
      match _square_id_to_coord square_id with
      | Some coord =>
          if String.eqb coord "" then found
          else Grabber.dict_set found coord piece_class
      | None => found
      end
  | _, _ => found
  end.

(** The loop over the pieces; reading the classes of a piece may raise. *)
Fixpoint note_pieces (found : list (string * string))
    (pieces : list (Call (list string))) : Call (list (string * string)) :=
  match pieces with
  | [] => Returns found
  | Returns classes :: rest => note_pieces (note_piece found classes) rest
  | Raises e :: _ => Raises e
  end.

(** [is_starting_position] (71-117).  [pieces] is [None] when no board is
    displayed or its pieces cannot be listed; else it holds, for every
    element of class [piece], the list [get_attribute("class").split()].
    A stale element makes the method return [None]; any other exception
    leaves it. *)
Definition is_starting_position (pieces : option (list (Call (list string))))
  : Call (option bool) :=
  match pieces with
  | None => Returns None
  | Some [] => Returns None
  | Some ps =>
      match note_pieces [] ps with
      | Raises ExnStale => Returns None
      | Raises e => Raises e
      | Returns found =>
          if List.length found <? List.length expected then Returns (Some false)
          else Returns (Some (forallb (fun kv =>
                                         match dict_get found (fst kv) with
                                         | Some piece => String.eqb piece (snd kv)
                                         | None => false
                                         end) expected))
      end
  end.

End Board.

(** ** Playing a move with the mouse: [make_move] (77-101)

    The place of a square on the screen ([move_to_screen_pos], in
    floating point) is left symbolic: the acts name the square. *)

(** [offset_map.get(piece)] (91-92). *)
Definition promotion_offset (piece : ascii) : option Z :=
  if Ascii.eqb piece "q" then Some 0%Z
  else if Ascii.eqb piece "r" then Some 1%Z
  else if Ascii.eqb piece "b" then Some 2%Z
  else if Ascii.eqb piece "n" then Some 3%Z
  else None.

(** [move[i:j]] *)
Definition slice (i j : nat) (s : string) : string :=
  PyText.take (j - i) (PyText.drop i s).

(** Whether [move_to_screen_pos(square)] gets through [int(square[1])]. *)
Definition on_screen (square : string) : bool :=
  match square with
  | String _ (String rank _) =>
      match int_of_char rank with Some _ => true | None => false end
  | _ => false
  end.

Definition make_move (is_white : option bool) (mouse_latency : Z) (move : string)
  : Call (list Act) :=
  if negb (on_screen (slice 0 2 move) && on_screen (slice 2 4 move))
  then Raises ExnOther             (* get_move_pos: IndexError or ValueError *)
  else
    let drag :=
      [ActMoveTo (slice 0 2 move); Ev (EvSleep mouse_latency);
       ActDragTo (slice 2 4 move)] in
    if String.length move =? 5 then
      match String.get 4 move, String.get 3 move, String.get 2 move with
      | Some p, Some rank, Some file =>
          match promotion_offset (PyStr.lower_char p) with
          | None => Returns (drag ++ [Ev (EvSleep 100)])%list
          | Some offset =>
              let direction :=
                match is_white with Some true => (-1)%Z | _ => 1%Z end in
              match int_of_char rank with
              | None => Raises ExnOther        (* int(move[3]): ValueError *)
              | Some r =>
                  let target_rank := (Z.of_nat r + direction * offset)%Z in
                  let square :=
                    if (1 <=? target_rank)%Z && (target_rank <=? 8)%Z
                    then String file (PyText.str_nat (Z.to_nat target_rank))
                    else slice 2 4 move in
                  Returns (drag ++ [Ev (EvSleep 100); ActMoveTo square; ActClick])%list
              end
          end
      | _, _, _ => Returns drag
      end
    else Returns drag.

(** ** The game as text: [get_pgn] (moves_table.py, 90-105) *)

(** [sep.join(parts)] *)
Fixpoint join (sep : string) (parts : list string) : string :=
  match parts with
  | [] => ""
  | [a] => a
  | a :: r => a ++ sep ++ join sep r
  end.

Definition get_pgn (t : Supervisor.MovesTable) : string :=
  let moves := Supervisor._moves t in
  join " "
    (fold_left
       (fun pgn_parts i =>
          let move_num := i / 2 + 1 in
          let white_move := PyText.item moves i in
          if i + 1 <? List.length moves
          then
            let black_move := PyText.item moves (i + 1) in
            pgn_parts ++ [(PyText.str_nat move_num ++ ". " ++ white_move
                             ++ " " ++ black_move)%string]
          else
            pgn_parts ++ [(PyText.str_nat move_num ++ ". " ++ white_move)%string])%list
       (Supervisor.range_by_two (List.length moves)) []).

(** A row of the table read from left to right, a dot after the number
    and a space between the moves. *)
Definition row_text (r : Supervisor.Row) : string :=
  match Supervisor.cell2 r with
  | Some b => Supervisor.cell0 r ++ ". " ++ Supervisor.cell1 r ++ " " ++ b
  | None => Supervisor.cell0 r ++ ". " ++ Supervisor.cell1 r
  end.

(** ** Material: [calculate_material_advantage] (stockfish_bot.py, 1184-1207) *)

Inductive PieceType : Type := PAWN | KNIGHT | BISHOP | ROOK | QUEEN | KING.

(** [piece_values], in the order of the dict. *)
Definition piece_values : list (PieceType * Z) :=
  [(PAWN, 1); (KNIGHT, 3); (BISHOP, 3); (ROOK, 5); (QUEEN, 9)]%Z.

(** [str(z)] for an integer. *)
Definition str_int (z : Z) : string :=
  if (z <? 0)%Z then "-" ++ PyText.str_nat (Z.to_nat (- z))
  else PyText.str_nat (Z.to_nat z).

(** The board is used through [len(board.pieces(piece_type, color))]
    only, here [pieces piece_type color]; [chess.WHITE] is [true]. *)
Definition calculate_material_advantage (pieces : PieceType -> bool -> nat)
  : string :=
  let '(white_material, black_material) :=
    fold_left
      (fun '(white_material, black_material) '(piece_type, value) =>
         (white_material + Z.of_nat (pieces piece_type true) * value,
          black_material + Z.of_nat (pieces piece_type false) * value)%Z)
      piece_values (0, 0)%Z in
  let advantage := (white_material - black_material)%Z in
  if (advantage >? 0)%Z then "+" ++ str_int advantage
  else if (advantage <? 0)%Z then str_int advantage
  else "0".

(** Worked cases for the page of a board. *)
Module Cases3.

(** The classes of the element of a piece on the page. *)
Definition piece (piece_class square_id : string) : Call (list string) :=
  Returns ["piece"; piece_class; "square-" ++ square_id].

Definition first_piece : Call (list string) := piece "wr" "11".

(** The other thirty-one pieces of a game not yet begun, black first. *)
Definition other_pieces : list (Call (list string)) :=
  [ piece "br" "18"; piece "bn" "28"; piece "bb" "38"; piece "bq" "48";
    piece "bk" "58"; piece "bb" "68"; piece "bn" "78"; piece "br" "88";
    piece "bp" "17"; piece "bp" "27"; piece "bp" "37"; piece "bp" "47";
    piece "bp" "57"; piece "bp" "67"; piece "bp" "77"; piece "bp" "87";
    piece "wp" "12"; piece "wp" "22"; piece "wp" "32"; piece "wp" "42";
    piece "wp" "52"; piece "wp" "62"; piece "wp" "72"; piece "wp" "82";
    piece "wn" "21"; piece "wb" "31"; piece "wq" "41"; piece "wk" "51";
    piece "wb" "61"; piece "wn" "71"; piece "wr" "81" ].

(** What the loop over these pieces leaves in [found]. *)
Definition found : list (string * string) :=
  match Board.note_pieces [] (first_piece :: other_pieces) with
  | Returns f => f
  | Raises _ => []
  end.

End Cases3.

(** * Properties *)

Open Scope list_scope.

(** ** Notation helpers on examples *)

Example sanitize_castle : _sanitize_san " 0-0-0!? " = "O-O-O".
Proof. reflexivity. Qed.

Example sanitize_ep : _sanitize_san "exd6 e.p." = "exd6".
Proof. reflexivity. Qed.

Example normalize_promo : _normalize_san "e8=Q+" = "e8q".
Proof. reflexivity. Qed.

Example has_result_yes : move_list_has_result ["e4"; "e5"; " 1-0 "] = true.
Proof. reflexivity. Qed.

Example has_result_dot : move_list_has_result ["0x5-0y5"] = true.
Proof. reflexivity. Qed.

Example has_result_no : move_list_has_result ["e4"; "O-O"] = false.
Proof. reflexivity. Qed.

Example san_matches_check : _san_matches "Qh4#" " qh4 " = true.
Proof. reflexivity. Qed.

Example san_differs : _san_matches "e4" "d4" = false.
Proof. reflexivity. Qed.

(** ** Rebuilding a board from a move list *)

Section ReplayFacts.

Context `{C : Chess}.

Lemma replay_app (l1 l2 : list string) : forall b,
  replay b (l1 ++ l2) =
  match replay b l1 with
  | Some b' => replay b' l2
  | None => None
  end.
Proof.
  induction l1 as [|m l1 IH]; intros b; simpl; [reflexivity|].
  destruct (push_san b (_sanitize_san m)); [apply IH | reflexivity].
Qed.

Lemma replay_Replays (l : list string) : forall b b',
  replay b l = Some b' <-> Replays b l b'.
Proof.
  induction l as [|m l IH]; intros b b'; simpl.
  - split; [intros [= <-]; constructor | intros H; inversion H; reflexivity].
  - unfold push_san. destruct (parse_san b (_sanitize_san m)) as [mv|] eqn:E.
    + rewrite IH. split; intros H.
      * econstructor; eassumption.
      * inversion H; subst. congruence.
    + split; [discriminate|]. intros H; inversion H; congruence.
Qed.

Lemma replay_stack (l : list string) : forall b b',
  replay b l = Some b' ->
  List.length (move_stack b') = List.length (move_stack b) + List.length l.
Proof.
  induction l as [|m l IH]; intros b b'; simpl.
  - intros [= <-]. lia.
  - unfold push_san. destruct (parse_san b (_sanitize_san m)) as [mv|]; [|discriminate].
    intros H. apply IH in H. rewrite H, move_stack_push, length_app. simpl. lia.
Qed.

Lemma replay_fails (l : list string) : forall b,
  replay b l = None <->
  exists pre tok post b',
    l = (pre ++ tok :: post)%list /\ replay b pre = Some b'
    /\ parse_san b' (_sanitize_san tok) = None.
Proof.
  induction l as [|m l IH]; intros b; simpl.
  - split; [discriminate|]. intros (pre & tok & post & b' & H & _).
    destruct pre; discriminate.
  - unfold push_san. destruct (parse_san b (_sanitize_san m)) as [mv|] eqn:E.
    + rewrite IH. split.
      * intros (pre & tok & post & b' & -> & Hp & Hn).
        exists (m :: pre), tok, post, b'. simpl. unfold push_san. rewrite E. auto.
      * intros (pre & tok & post & b' & Hl & Hp & Hn).
        destruct pre as [|x pre]; simpl in *.
        -- injection Hl as -> ->. injection Hp as <-. congruence.
        -- injection Hl as -> ->. unfold push_san in Hp. rewrite E in Hp.
           exists pre, tok, post, b'. auto.
    + split; [|reflexivity]. intros _. exists [], m, l, b. auto.
Qed.

(** C10.  Whatever the list of tokens, [_try_build_board_from_moves]
    returns a value (it is a total function: no exception leaves it), and
    this value is either the board reached by playing every sanitized
    token, in order, from the starting position, or [None], exactly when
    some token is not a legal move in the position reached by the tokens
    before it.  A board returned holds as many moves as the list has
    tokens, so it never stands for a proper prefix of the list. *)
Theorem try_build_all_or_nothing (move_list : list string) :
  (forall b, _try_build_board_from_moves move_list = Some b <->
             Replays start_board move_list b)
  /\ (_try_build_board_from_moves move_list = None <->
      exists pre tok post b',
        move_list = (pre ++ tok :: post)%list
        /\ _try_build_board_from_moves pre = Some b'
        /\ parse_san b' (_sanitize_san tok) = None)
  /\ (forall b, _try_build_board_from_moves move_list = Some b ->
                List.length (move_stack b) = List.length move_list).
Proof.
  unfold _try_build_board_from_moves. repeat split.
  - apply replay_Replays.
  - apply replay_Replays.
  - apply replay_fails.
  - apply replay_fails.
  - intros b H. apply replay_stack in H. rewrite move_stack_start in H. exact H.
Qed.

End ReplayFacts.

Example build_opening :
  _try_build_board_from_moves (C := Book.chess) ["e4"; "e5"; " Nf3!"]
  = Some ["e4"; "e5"; "Nf3"].
Proof. reflexivity. Qed.

Example build_stops_at_bad_token :
  _try_build_board_from_moves (C := Book.chess) ["e4"; "Zz9"; "Nf3"] = None.
Proof. reflexivity. Qed.

(** ** Resynchronisation *)

Lemma fetches_app (t1 t2 : Trace) : fetches (t1 ++ t2) = fetches t1 + fetches t2.
Proof. unfold fetches. rewrite filter_app, length_app. reflexivity. Qed.

Lemma existsb_app_false {A} (f : A -> bool) (l1 l2 : list A) :
  existsb f l1 = false -> existsb f l2 = false -> existsb f (l1 ++ l2) = false.
Proof. intros H1 H2. rewrite existsb_app, H1, H2. reflexivity. Qed.

Section ResyncFacts.

Context `{C : Chess}.

Variable caps : Caps.
Variable expected_move_count : option nat.

Ltac attempt_cases :=
  unfold resync_attempt, starting_events;
  repeat match goal with
         | |- context [match ?x with _ => _ end] => destruct x eqn:?
         end.

(** Every attempt fetches the move list exactly once. *)
Lemma attempt_fetches_once (w : option bool) (o : ResyncObs) :
  fetches (snd (resync_attempt caps expected_move_count w o)) = 1.
Proof. attempt_cases; reflexivity. Qed.

(** An attempt that is given up leaves the state of the game alone. *)
Lemma attempt_retry_no_rebuild (w : option bool) (o : ResyncObs) :
  fst (resync_attempt caps expected_move_count w o) = Retry ->
  existsb is_rebuild (snd (resync_attempt caps expected_move_count w o)) = false.
Proof. attempt_cases; simpl; intros H; try discriminate H; reflexivity. Qed.

(** What an accepted attempt has seen. *)
Lemma attempt_accept (w : option bool) (o : ResyncObs) b ml w' t :
  resync_attempt caps expected_move_count w o = (Accept b ml w', t) ->
  exists fresh v,
    ro_move_list o = Returns (Some fresh)
    /\ move_list_has_result fresh = false
    /\ too_long expected_move_count fresh = false
    /\ read_starting caps (ro_starting o) = Returns v
    /\ (if truthy v then ml = [] /\ b = start_board
        else ml = fresh /\ _try_build_board_from_moves fresh = Some b).
Proof.
  unfold resync_attempt.
  destruct (ro_move_list o) as [[fresh|]|ex]; try discriminate.
  destruct (move_list_has_result fresh) eqn:Hres; try discriminate.
  destruct (too_long expected_move_count fresh) eqn:Hlong; try discriminate.
  destruct (read_starting caps (ro_starting o)) as [v|ex]; try discriminate.
  destruct (truthy v) eqn:Htruthy.
  - destruct (ro_is_white o) as [dw|ew]; try discriminate.
    intros [= <- <- <- <-]. exists fresh, v. rewrite Htruthy. repeat split; auto.
  - destruct (_try_build_board_from_moves fresh) as [bd|] eqn:Hbuild; try discriminate.
    intros [= <- <- <- <-]. exists fresh, v. rewrite Htruthy. repeat split; auto.
Qed.

(** An attempt on a list that holds a result marker is given up before
    anything is rebuilt. *)
Lemma attempt_result_marker (w : option bool) (o : ResyncObs) fresh :
  ro_move_list o = Returns (Some fresh) ->
  move_list_has_result fresh = true ->
  resync_attempt caps expected_move_count w o
  = (Retry, [EvResetMovesList; EvGetMoveList; EvSleep 200]).
Proof.
  intros H1 H2. unfold resync_attempt. rewrite H1, H2. reflexivity.
Qed.

Variable env : nat -> ResyncObs.
Variable is_white : option bool.

Lemma attempts_fetches (n : nat) : forall k,
  fetches (rr_trace (resync_attempts caps expected_move_count env is_white n k)) <= n.
Proof.
  induction n as [|n IH]; intros k; simpl; [apply Nat.le_refl|].
  pose proof (attempt_fetches_once is_white (env k)) as F.
  destruct (resync_attempt caps expected_move_count is_white (env k))
    as [[|b ml w'|e] t]; simpl in *.
  - rewrite fetches_app, F. specialize (IH (S k)). lia.
  - lia.
  - lia.
Qed.

Lemma attempts_success (n : nat) : forall k b ml,
  rr_result (resync_attempts caps expected_move_count env is_white n k)
  = ResyncReturn (Some (b, ml)) ->
  exists i w' t,
    k <= i < k + n
    /\ (forall j, k <= j < i ->
          fst (resync_attempt caps expected_move_count is_white (env j)) = Retry)
    /\ resync_attempt caps expected_move_count is_white (env i)
       = (Accept b ml w', t).
Proof.
  induction n as [|n IH]; intros k b ml; simpl; [discriminate|].
  destruct (resync_attempt caps expected_move_count is_white (env k))
    as [[|b0 ml0 w0|e] t] eqn:E; simpl.
  - intros H. destruct (IH _ _ _ H) as (i & w' & t' & Hi & Hj & Ha).
    exists i, w', t'. split; [lia|]. split; [|exact Ha].
    intros j Hjk. destruct (Nat.eq_dec j k) as [->|]; [rewrite E; reflexivity|].
    apply Hj. lia.
  - intros [= <- <-]. exists k, w0, t. split; [lia|]. split; [|exact E].
    intros j Hj. lia.
  - discriminate.
Qed.

Lemma attempts_exhausted (n : nat) : forall k,
  (forall i, k <= i < k + n ->
     fst (resync_attempt caps expected_move_count is_white (env i)) = Retry) ->
  let r := resync_attempts caps expected_move_count env is_white n k in
  rr_result r = ResyncReturn None /\ rr_is_white r = is_white
  /\ existsb is_rebuild (rr_trace r) = false.
Proof.
  induction n as [|n IH]; intros k H; simpl; [auto|].
  assert (Hk : fst (resync_attempt caps expected_move_count is_white (env k)) = Retry)
    by (apply H; lia).
  pose proof (attempt_retry_no_rebuild is_white (env k) Hk) as Hn.
  destruct (resync_attempt caps expected_move_count is_white (env k))
    as [[|b0 ml0 w0|e] t]; simpl in *; try discriminate.
  destruct (IH (S k)) as (R1 & R2 & R3); [intros i Hi; apply H; lia|].
  repeat split; auto. apply existsb_app_false; assumption.
Qed.

(** C2.  When a resync returns a board and a move list, one attempt [i]
    within the budget was accepted after the attempts before it had all
    been given up, however many they were; the list returned is the
    snapshot [fresh] fetched by that attempt, or the empty list, with the
    starting board, when the board was seen at the starting position; and
    in both cases the board returned is the one obtained by replaying
    exactly the tokens of the list returned from the starting position. *)
Theorem resync_returns_final_snapshot (reason : string) (max_attempts : nat)
    (b : Board) (ml : list string) :
  rr_result (_resync_move_list_state caps env is_white reason
               expected_move_count max_attempts)
  = ResyncReturn (Some (b, ml)) ->
  exists i fresh v,
    i < max_attempts
    /\ (forall j, j < i ->
          fst (resync_attempt caps expected_move_count is_white (env j)) = Retry)
    /\ ro_move_list (env i) = Returns (Some fresh)
    /\ read_starting caps (ro_starting (env i)) = Returns v
    /\ (if truthy v then ml = [] /\ b = start_board else ml = fresh)
    /\ _try_build_board_from_moves ml = Some b.
Proof.
  unfold _resync_move_list_state. cbn [rr_result]. intros H.
  destruct (attempts_success _ _ _ _ H) as (i & w' & t & Hi & Hj & Ha).
  destruct (attempt_accept _ _ _ _ _ _ Ha) as (fresh & v & H1 & _ & _ & H4 & H5).
  exists i, fresh, v. repeat split; try lia; try assumption.
  - intros j Hji. apply Hj. lia.
  - destruct (truthy v); [exact H5 | tauto].
  - destruct (truthy v); destruct H5 as [-> H5]; [subst; reflexivity | exact H5].
Qed.

(** C5.  A resync fetches the move list at most [max_attempts] times; a
    list returned by it comes from a snapshot without result marker, and
    an attempt whose snapshot holds one is given up before anything is
    rebuilt; when every attempt is given up the resync returns
    [(None, None)], leaves [self.is_white] as it was and has replaced
    nothing (no engine position set, no accuracy list cleared, no move list
    sent). *)
Theorem resync_bounded_and_guarded (reason : string) (max_attempts : nat) :
  let r := _resync_move_list_state caps env is_white reason
             expected_move_count max_attempts in
  fetches (rr_trace r) <= max_attempts
  /\ (forall b ml, rr_result r = ResyncReturn (Some (b, ml)) ->
        exists i fresh,
          i < max_attempts /\ ro_move_list (env i) = Returns (Some fresh)
          /\ move_list_has_result fresh = false
          /\ (ml = fresh \/ ml = []))
  /\ (forall i fresh,
        ro_move_list (env i) = Returns (Some fresh) ->
        move_list_has_result fresh = true ->
        resync_attempt caps expected_move_count is_white (env i)
        = (Retry, [EvResetMovesList; EvGetMoveList; EvSleep 200]))
  /\ ((forall i, i < max_attempts ->
         fst (resync_attempt caps expected_move_count is_white (env i)) = Retry) ->
      rr_result r = ResyncReturn None /\ rr_is_white r = is_white
      /\ existsb is_rebuild (rr_trace r) = false).
Proof.
  unfold _resync_move_list_state. cbn [rr_result rr_trace rr_is_white].
  split; [|split; [|split]].
  - change (fetches (EvResync reason :: ?t)) with (fetches t).
    apply attempts_fetches.
  - intros b ml H.
    destruct (attempts_success _ _ _ _ H) as (i & w' & t & Hi & _ & Ha).
    destruct (attempt_accept _ _ _ _ _ _ Ha) as (fresh & v & H1 & H2 & _ & _ & H5).
    exists i, fresh. repeat split; try lia; try assumption.
    destruct (truthy v); destruct H5; auto.
  - intros i fresh. apply attempt_result_marker.
  - intros H. destruct (attempts_exhausted max_attempts 0) as (R1 & R2 & R3).
    + intros i Hi. apply H. lia.
    + repeat split; assumption.
Qed.

End ResyncFacts.

(** ** The acknowledgement of the supervising process *)

Lemma wait_from_received (inbox : list (Call string)) : forall acc d rest,
  wait_for_gui_to_delete_from acc inbox = DeleteReceived d rest <->
  exists pre, d = acc ++ pre
    /\ inbox = map Returns pre ++ Returns "DELETE" :: rest
    /\ ~ In "DELETE" pre.
Proof.
  induction inbox as [|[msg|e] inbox IH]; intros acc d rest; simpl.
  - split; [discriminate|]. intros (pre & _ & H & _). destruct pre; discriminate.
  - destruct (String.eqb_spec msg "DELETE") as [->|Hne].
    + split.
      * intros [= <- <-]. exists []. rewrite app_nil_r. simpl. auto.
      * intros (pre & -> & H & Hn). destruct pre as [|x pre]; simpl in *.
        -- injection H as <-. rewrite app_nil_r. reflexivity.
        -- injection H as <- _. exfalso. apply Hn. auto.
    + rewrite IH. split.
      * intros (pre & -> & -> & Hn). exists (msg :: pre). rewrite <- app_assoc.
        simpl. repeat split; auto. intros [H|H]; [congruence | auto].
      * intros (pre & -> & H & Hn). destruct pre as [|x pre]; simpl in *.
        -- injection H as -> _. congruence.
        -- injection H as <- ->. exists pre. rewrite <- app_assoc. simpl.
           repeat split; auto.
  - split; [discriminate|]. intros (pre & _ & H & _). destruct pre; discriminate.
Qed.

Lemma wait_from_blocked (inbox : list (Call string)) : forall acc d,
  wait_for_gui_to_delete_from acc inbox = DeleteBlocked d <->
  exists pre, d = acc ++ pre /\ inbox = map Returns pre /\ ~ In "DELETE" pre.
Proof.
  induction inbox as [|[msg|e] inbox IH]; intros acc d; simpl.
  - split.
    + intros [= <-]. exists []. rewrite app_nil_r. simpl. auto.
    + intros (pre & -> & H & _). destruct pre; [|discriminate].
      rewrite app_nil_r. reflexivity.
  - destruct (String.eqb_spec msg "DELETE") as [->|Hne].
    + split; [discriminate|]. intros (pre & _ & H & Hn).
      destruct pre as [|x pre]; [discriminate|]. injection H as <- _.
      exfalso. apply Hn. simpl. auto.
    + rewrite IH. split.
      * intros (pre & -> & -> & Hn). exists (msg :: pre). rewrite <- app_assoc.
        simpl. repeat split; auto. intros [H|H]; [congruence | auto].
      * intros (pre & -> & H & Hn). destruct pre as [|x pre]; [discriminate|].
        simpl in *. injection H as <- ->. exists pre. rewrite <- app_assoc. simpl.
        repeat split; auto.
  - split; [discriminate|]. intros (pre & _ & H & _). destruct pre; discriminate.
Qed.

(** C9.  The wait of the transition returns exactly when the supervising
    process has sent the message [DELETE]: the messages received before it
    are dropped, whatever they are, and the wait resumes; after any number
    of messages none of which is [DELETE] the wait is still blocked in
    [recv].  Its outcome is a function of the messages alone: the wait reads
    no clock, so no timeout ends it.  The wait is entered right after the
    message [RESTART] is sent. *)
Theorem wait_unblocked_by_DELETE_only (inbox : list (Call string)) :
  (forall discarded rest,
     wait_for_gui_to_delete inbox = DeleteReceived discarded rest <->
     inbox = map Returns discarded ++ Returns "DELETE" :: rest
     /\ ~ In "DELETE" discarded)
  /\ (forall discarded,
        wait_for_gui_to_delete inbox = DeleteBlocked discarded <->
        inbox = map Returns discarded /\ ~ In "DELETE" discarded)
  /\ notify_and_wait inbox
     = ([EvPipeSend "RESTART"], wait_for_gui_to_delete inbox).
Proof.
  unfold wait_for_gui_to_delete. split; [|split; [|reflexivity]].
  - intros d rest. rewrite wait_from_received. simpl. split.
    + intros (pre & -> & H). exact H.
    + intros H. exists d. auto.
  - intros d. rewrite wait_from_blocked. simpl. split.
    + intros (pre & -> & H). exact H.
    + intros H. exists d. auto.
Qed.

Example wait_discards_other_messages :
  wait_for_gui_to_delete [Returns "START"; Returns "delete"; Returns "DELETE"; Returns "X"]
  = DeleteReceived ["START"; "delete"] [Returns "X"].
Proof. reflexivity. Qed.

Example wait_blocks_without_DELETE :
  wait_for_gui_to_delete [Returns "START"; Returns "RESTART"]
  = DeleteBlocked ["START"; "RESTART"].
Proof. reflexivity. Qed.

(** ** Confirmation of a move played *)

Section ConfirmFacts.

Variable previous_move_list : list string.
Variables start_time timeout : Z.

Local Abbreviation loop := (confirmation_loop previous_move_list start_time timeout).
Local Abbreviation waits := (keeps_waiting previous_move_list start_time timeout).

Lemma confirmation_true (polls : list ConfirmPoll) : forall current candidate t,
  loop polls = (ConfirmReturn true current candidate, t) ->
  exists pre p cur c rest,
    polls = pre ++ p :: rest
    /\ forallb waits pre = true
    /\ (cp_now p - start_time < timeout)%Z
    /\ cp_move_list p = Some cur
    /\ List.length previous_move_list + 1 <= List.length cur
    /\ current = Some cur
    /\ candidate = Some c
    /\ nth_error cur (List.length previous_move_list) = Some c.
Proof.
  induction polls as [|p polls IH]; intros current candidate t; simpl; [discriminate|].
  destruct (Z.ltb_spec (cp_now p - start_time) timeout) as [Hin|Hout]; [|discriminate].
  assert (Hrec : forall t',
    (let '(r, t0) := loop polls in (r, EvGetMoveList :: EvSleep 100 :: t0))
      = (ConfirmReturn true current candidate, t') ->
    waits p = true ->
    exists pre p0 cur c rest,
      p :: polls = pre ++ p0 :: rest /\ forallb waits pre = true
      /\ (cp_now p0 - start_time < timeout)%Z /\ cp_move_list p0 = Some cur
      /\ List.length previous_move_list + 1 <= List.length cur
      /\ current = Some cur /\ candidate = Some c
      /\ nth_error cur (List.length previous_move_list) = Some c).
  { intros t' H Hw. destruct (loop polls) as [r t0] eqn:E. injection H as -> _.
    destruct (IH _ _ _ eq_refl) as (pre & p0 & cur & c & rest & -> & H1 & H2).
    exists (p :: pre), p0, cur, c, rest. simpl. rewrite Hw, H1. auto. }
  assert (Hlt : (cp_now p - start_time <? timeout)%Z = true) by (apply Z.ltb_lt; exact Hin).
  destruct (cp_move_list p) as [cur|] eqn:Hl.
  - destruct (grown previous_move_list cur) eqn:Hg.
    + intros [= <- <- <-]. unfold grown in Hg. apply Nat.leb_le in Hg.
      destruct (nth_error cur (List.length previous_move_list)) as [c|] eqn:Hn.
      * exists [], p, cur, c, polls. simpl. repeat split; auto.
      * apply nth_error_None in Hn. lia.
    + intros H. apply (Hrec t H). unfold keeps_waiting. rewrite Hlt, Hl, Hg. reflexivity.
  - intros H. apply (Hrec t H). unfold keeps_waiting. rewrite Hlt, Hl. reflexivity.
Qed.

Lemma confirmation_false (polls : list ConfirmPoll) : forall current candidate t,
  loop polls = (ConfirmReturn false current candidate, t) ->
  current = None /\ candidate = None
  /\ exists pre p rest,
       polls = pre ++ p :: rest
       /\ forallb waits pre = true
       /\ (timeout <= cp_now p - start_time)%Z.
Proof.
  induction polls as [|p polls IH]; intros current candidate t; simpl; [discriminate|].
  destruct (Z.ltb_spec (cp_now p - start_time) timeout) as [Hin|Hout].
  - assert (Hlt : (cp_now p - start_time <? timeout)%Z = true) by (apply Z.ltb_lt; exact Hin).
    assert (Hrec : forall t',
      (let '(r, t0) := loop polls in (r, EvGetMoveList :: EvSleep 100 :: t0))
        = (ConfirmReturn false current candidate, t') ->
      waits p = true ->
      current = None /\ candidate = None
      /\ exists pre p0 rest, p :: polls = pre ++ p0 :: rest
           /\ forallb waits pre = true /\ (timeout <= cp_now p0 - start_time)%Z).
    { intros t' H Hw. destruct (loop polls) as [r t0] eqn:E. injection H as -> _.
      destruct (IH _ _ _ eq_refl) as (-> & -> & pre & p0 & rest & -> & H1 & H2).
      repeat split; auto. exists (p :: pre), p0, rest. simpl. rewrite Hw, H1. auto. }
    destruct (cp_move_list p) as [cur|] eqn:Hl.
    + destruct (grown previous_move_list cur) eqn:Hg; [discriminate|].
      intros H. apply (Hrec t H). unfold keeps_waiting. rewrite Hlt, Hl, Hg. reflexivity.
    + intros H. apply (Hrec t H). unfold keeps_waiting. rewrite Hlt, Hl. reflexivity.
  - intros [= <- <- <-]. repeat split; auto. exists [], p, polls. simpl. auto.
Qed.

(** The wait returns once the clock has passed the timeout. *)
Lemma confirmation_returns (polls : list ConfirmPoll) :
  (exists p, In p polls /\ (timeout <= cp_now p - start_time)%Z) ->
  fst (loop polls) <> ConfirmPending.
Proof.
  induction polls as [|p polls IH]; simpl; intros (q & Hq & Ht); [contradiction|].
  destruct (Z.ltb_spec (cp_now p - start_time) timeout) as [Hin|Hout];
    [|simpl; discriminate].
  assert (Hrest : fst (loop polls) <> ConfirmPending).
  { apply IH. destruct Hq as [->|Hq]; [lia|]. exists q. auto. }
  destruct (cp_move_list p) as [cur|];
    [destruct (grown previous_move_list cur); [simpl; discriminate|] |];
    destruct (loop polls) as [r t0]; simpl in *; exact Hrest.
Qed.

Lemma confirmation_no_execution (polls : list ConfirmPoll) :
  executions (snd (loop polls)) = 0.
Proof.
  induction polls as [|p polls IH]; simpl; [reflexivity|].
  destruct (cp_now p - start_time <? timeout)%Z; [|reflexivity].
  destruct (cp_move_list p) as [cur|];
    [destruct (grown previous_move_list cur); [reflexivity|] |];
    destruct (loop polls) as [r t0]; simpl in *; exact IH.
Qed.

End ConfirmFacts.

Lemma executions_app (t1 t2 : Trace) :
  executions (t1 ++ t2) = executions t1 + executions t2.
Proof. unfold executions. rewrite filter_app, length_app. reflexivity. Qed.

Lemma play_attempts_executions (move move_san : string) (move_list : list string)
    (env : nat -> ConfirmEnv) (n : nat) : forall k,
  executions (snd (play_attempts move move_san move_list env n k)) <= n.
Proof.
  induction n as [|n IH]; intros k; simpl; [auto|].
  unfold wait_for_move_confirmation.
  pose proof (confirmation_no_execution move_list (ce_start (env k)) 5000
                (ce_polls (env k))) as E.
  destruct (confirmation_loop move_list (ce_start (env k)) 5000 (ce_polls (env k)))
    as [c t]. simpl in E.
  destruct c as [[|] current candidate|].
  - simpl. change (executions (EvUpdateBoardElem :: EvMakeMove move :: t))
      with (S (executions t)). lia.
  - specialize (IH (S k)).
    destruct (play_attempts move move_san move_list env n (S k)) as [r t'].
    simpl in *. change (executions (EvUpdateBoardElem :: EvMakeMove move :: t ++ EvSleep 200 :: t'))
      with (S (executions (t ++ EvSleep 200 :: t'))).
    rewrite executions_app. change (executions (EvSleep 200 :: t')) with (executions t'). lia.
  - simpl. change (executions (EvUpdateBoardElem :: EvMakeMove move :: t))
      with (S (executions t)). lia.
Qed.

(** C3, as the code has it.  The wait reports success exactly at the
    first turn, begun while less than [timeout] has elapsed, whose move list
    is at least one entry longer than the list before the move; the
    candidate returned is the entry of that list at the index of the old
    length, and the notation expected has no part in the value returned.
    The wait reports failure at the first turn whose clock reading has
    reached the timeout, which is five seconds in the game loop: once the
    clock has reached it the wait has returned.  A move is executed three
    times at most. *)
Theorem confirmation_on_growth (expected_san : string)
    (previous_move_list : list string) (timeout start_time : Z)
    (polls : list ConfirmPoll) :
  let r := wait_for_move_confirmation expected_san previous_move_list timeout
             start_time polls in
  (forall current candidate t,
     r = (ConfirmReturn true current candidate, t) ->
     exists pre p cur c rest,
       polls = pre ++ p :: rest
       /\ forallb (keeps_waiting previous_move_list start_time timeout) pre = true
       /\ (cp_now p - start_time < timeout)%Z
       /\ cp_move_list p = Some cur
       /\ List.length previous_move_list + 1 <= List.length cur
       /\ current = Some cur
       /\ candidate = Some c
       /\ nth_error cur (List.length previous_move_list) = Some c)
  /\ (forall current candidate t,
        r = (ConfirmReturn false current candidate, t) ->
        current = None /\ candidate = None
        /\ exists pre p rest,
             polls = pre ++ p :: rest
             /\ forallb (keeps_waiting previous_move_list start_time timeout) pre = true
             /\ (timeout <= cp_now p - start_time)%Z)
  /\ ((exists p, In p polls /\ (timeout <= cp_now p - start_time)%Z) ->
      fst r <> ConfirmPending)
  /\ (forall other_san,
        wait_for_move_confirmation other_san previous_move_list timeout
          start_time polls = r)
  /\ (forall move env,
        executions (snd (play_and_confirm move expected_san previous_move_list env)) <= 3).
Proof.
  unfold wait_for_move_confirmation. cbv zeta.
  split; [|split; [|split; [|split]]].
  - apply confirmation_true.
  - apply confirmation_false.
  - apply confirmation_returns.
  - reflexivity.
  - intros move env. apply play_attempts_executions.
Qed.

Lemma confirmation_no_send (previous_move_list : list string)
    (start_time timeout : Z) (polls : list ConfirmPoll) :
  existsb is_pipe_send
    (snd (confirmation_loop previous_move_list start_time timeout polls)) = false.
Proof.
  induction polls as [|p polls IH]; simpl; [reflexivity|].
  destruct (cp_now p - start_time <? timeout)%Z; [|reflexivity].
  destruct (cp_move_list p) as [cur|];
    [destruct (grown previous_move_list cur); [reflexivity|] |];
    destruct (confirmation_loop previous_move_list start_time timeout polls) as [r t0];
    simpl in *; exact IH.
Qed.

Section PlayFacts.

Variables move move_san : string.
Variable move_list : list string.
Variable env : nat -> ConfirmEnv.

Local Abbreviation wait_of k :=
  (wait_for_move_confirmation move_san move_list 5000
     (ce_start (env k)) (ce_polls (env k))).

Lemma play_attempts_all_fail (n : nat) : forall k,
  (forall i, k <= i < k + n -> fst (wait_of i) = ConfirmReturn false None None) ->
  exists t,
    play_attempts move move_san move_list env n k
    = (PlayedFailed, t ++ [EvPipeSend err_not_registered])
    /\ executions t = n /\ existsb is_pipe_send t = false.
Proof.
  induction n as [|n IH]; intros k H; simpl.
  - exists []. auto.
  - assert (Hk : fst (wait_of k) = ConfirmReturn false None None) by (apply H; lia).
    pose proof (confirmation_no_execution move_list (ce_start (env k)) 5000
                  (ce_polls (env k))) as E.
    pose proof (confirmation_no_send move_list (ce_start (env k)) 5000
                  (ce_polls (env k))) as P.
    unfold wait_for_move_confirmation in *.
    destruct (confirmation_loop move_list (ce_start (env k)) 5000 (ce_polls (env k)))
      as [c t]. simpl in Hk, E, P. subst c.
    destruct (IH (S k)) as (t' & -> & He & Hp); [intros i Hi; apply H; lia|].
    exists (EvUpdateBoardElem :: EvMakeMove move :: t ++ EvSleep 200 :: t').
    split; [|split].
    + simpl. rewrite <- app_assoc. reflexivity.
    + change (executions (EvUpdateBoardElem :: EvMakeMove move :: t ++ EvSleep 200 :: t'))
        with (S (executions (t ++ EvSleep 200 :: t'))).
      rewrite executions_app.
      change (executions (EvSleep 200 :: t')) with (executions t'). lia.
    + simpl. rewrite existsb_app, P. simpl. exact Hp.
Qed.

Lemma play_attempts_failed_sends (n : nat) : forall k,
  fst (play_attempts move move_san move_list env n k) = PlayedFailed ->
  exists t, snd (play_attempts move move_san move_list env n k)
            = t ++ [EvPipeSend err_not_registered].
Proof.
  induction n as [|n IH]; intros k; simpl.
  - intros _. exists []. reflexivity.
  - destruct (wait_of k) as [c t]. destruct c as [[|] current candidate|];
      simpl; try discriminate.
    specialize (IH (S k)).
    destruct (play_attempts move move_san move_list env n (S k)) as [r t'].
    simpl in *. intros Hr. destruct (IH Hr) as (t0 & ->).
    exists (EvUpdateBoardElem :: EvMakeMove move :: t ++ EvSleep 200 :: t0).
    simpl. rewrite <- app_assoc. reflexivity.
Qed.

(** C6.  When none of the three executions of the move is confirmed, the
    last thing the bot does is to send an [ERR_RUNTIME] message on the
    pipe, after which [run] returns; and whenever the phase ends unconfirmed
    this message has been sent: the failure is never dropped in silence. *)
Theorem unconfirmed_move_is_reported :
  ((forall k, k < 3 -> fst (wait_of k) = ConfirmReturn false None None) ->
   exists t,
     play_and_confirm move move_san move_list env
     = (PlayedFailed, t ++ [EvPipeSend err_not_registered])
     /\ executions t = 3 /\ existsb is_pipe_send t = false)
  /\ (fst (play_and_confirm move move_san move_list env) = PlayedFailed ->
      exists t, snd (play_and_confirm move move_san move_list env)
                = t ++ [EvPipeSend err_not_registered])
  /\ String.prefix "ERR_RUNTIME|" err_not_registered = true.
Proof.
  split; [|split; [|reflexivity]].
  - intros H. apply play_attempts_all_fail. intros i Hi. apply H. lia.
  - apply play_attempts_failed_sends.
Qed.

End PlayFacts.

(** ** The counter of parse failures *)

Section CounterFacts.

Context `{C : Chess}.

Variable caps : Caps.
Variable enable_non_stop_matches : bool.

(** C7, as the code has it.  The counter of parse failures lives in the state
    of the game loop.  At the head of a turn, a counter that has reached
    [max_parse_errors] (10) is reset and the bot, without any resync, starts
    a new match when continuous play is enabled and returns otherwise; a
    smaller counter lets the turn go on.  A notation that parses resets the
    counter to 0.  A notation that does not parse adds one to the counter
    and starts a resync at once; the turn that follows carries the counter
    so increased, unless the engine move served as a fallback or a new
    match is started, which reset it. *)
Theorem parse_errors_counted_and_capped (g : Game) :
  (max_parse_errors <= g_parse_error_count g ->
   parse_error_gate enable_non_stop_matches g
   = (if enable_non_stop_matches then (NewMatch 0, new_match_events)
      else (ReturnRun, []))
   /\ existsb is_resync (snd (parse_error_gate enable_non_stop_matches g)) = false)
  /\ (g_parse_error_count g < max_parse_errors ->
      parse_error_gate enable_non_stop_matches g = (Proceed g, []))
  /\ (forall move san env,
        san <> "" ->
        match parse_san (g_board g) (_sanitize_san san) with
        | Some m =>
            confirmed_parse caps g move (Some san) env
            = (Proceed (Some m, with_count g 0), [])
        | None =>
            In (EvResync "confirmed move parse failed")
               (snd (confirmed_parse caps g move (Some san) env))
            /\ match fst (confirmed_parse caps g move (Some san) env) with
               | ContinueLoop g' =>
                   g_parse_error_count g' = S (g_parse_error_count g)
               | Proceed (_, g') => g_parse_error_count g' = 0
               | RaisedRun _ => True
               | NewMatch _ | ReturnRun => False
               end
        end)
  /\ (forall env game_over pre move,
        g_move_list g = pre ++ [move] ->
        match parse_san (g_board g) (_sanitize_san move) with
        | Some m =>
            exists g',
              opponent_parse caps enable_non_stop_matches g env game_over
              = (Proceed (m, g'), [])
              /\ g_parse_error_count g' = 0 /\ g_board g' = push (g_board g) m
        | None =>
            In (EvResync "opponent move parse failed")
               (snd (opponent_parse caps enable_non_stop_matches g env game_over))
            /\ match fst (opponent_parse caps enable_non_stop_matches g env game_over) with
               | ContinueLoop g' =>
                   g_parse_error_count g' = S (g_parse_error_count g)
               | NewMatch n => n = 0
               | ReturnRun | RaisedRun _ => True
               | Proceed _ => False
               end
        end).
Proof.
  split; [|split; [|split]].
  - intros H. unfold parse_error_gate.
    apply Nat.leb_le in H. rewrite H.
    destruct enable_non_stop_matches; split; reflexivity.
  - intros H. unfold parse_error_gate.
    apply Nat.leb_gt in H. rewrite H. reflexivity.
  - intros move san env Hsan. unfold confirmed_parse.
    apply String.eqb_neq in Hsan. rewrite Hsan.
    destruct (parse_san (g_board g) (_sanitize_san san)) as [m|]; [reflexivity|].
    set (r := _resync_move_list_state caps env (g_is_white g) _ _ _).
    assert (Hin : In (EvResync "confirmed move parse failed") (rr_trace r))
      by (left; reflexivity).
    clearbody r.
    destruct (rr_result r) as [[[board ml]|]|e]; simpl.
    + split; [exact Hin | reflexivity].
    + destruct (legal_uci (g_board g) move); simpl.
      * split; [exact Hin | reflexivity].
      * split; [apply in_or_app; left; exact Hin | reflexivity].
    + split; [exact Hin | exact I].
  - intros env game_over pre move Hl. unfold opponent_parse. rewrite Hl.
    rewrite map_app. cbn [map]. rewrite last_last.
    destruct (parse_san (g_board g) (_sanitize_san move)) as [m|].
    + eexists. split; [reflexivity|]. split; reflexivity.
    + set (r := _resync_move_list_state caps env (g_is_white g) _ _ _).
      assert (Hin : In (EvResync "opponent move parse failed") (rr_trace r))
        by (left; reflexivity).
      clearbody r.
      destruct (rr_result r) as [[[board ml]|]|e]; simpl.
      * split; [exact Hin | reflexivity].
      * destruct game_over; [destruct enable_non_stop_matches|]; simpl;
          (split; [apply in_or_app; left; exact Hin | auto]).
      * split; [exact Hin | exact I].
Qed.

End CounterFacts.

(** ** Waiting for the opponent *)

Section OpponentFacts.

Context `{C : Chess}.

Variable caps : Caps.
Variable enable_non_stop_matches : bool.

(** A board returned by a resync is the replay of the list returned. *)
Lemma resync_result_replays (env : nat -> ResyncObs) (w : option bool)
    (reason : string) (e : option nat) (n : nat) b ml :
  rr_result (_resync_move_list_state caps env w reason e n)
  = ResyncReturn (Some (b, ml)) ->
  _try_build_board_from_moves ml = Some b.
Proof.
  unfold _resync_move_list_state. cbn [rr_result]. intros H.
  destruct (attempts_success _ _ _ _ _ _ _ _ H) as (i & w' & t & _ & _ & Ha).
  destruct (attempt_accept _ _ _ _ _ _ _ _ Ha) as (fresh & v & _ & _ & _ & _ & H5).
  destruct (truthy v); destruct H5 as [-> H5]; [subst; reflexivity | exact H5].
Qed.

(** C1, as the code has it.  On a turn of the wait that reads a move list
    (no game-over signal, no result marker in the list):
    - a list as long as the known one leaves everything as it is, and the
      wait goes on;
    - a list longer by one whose new token is a legal move ends the wait:
      the list read becomes the move list, it ends with that token, and
      exactly that one move is pushed on the board;
    - a list longer by one whose new token is not a legal move is ignored:
      nothing is assigned, no resync is started and the wait goes on;
    - a list longer by more than one starts a resync and nothing is
      appended: the wait ends with the state rebuilt by the resync, a board
      that replays the list it returns, or goes on when the resync gave
      up. *)
Theorem opponent_poll_counting (g : Game) (previous_move_list : list string)
    (o : PollObs) (new_move_list : list string) :
  po_game_over o = false ->
  po_move_list o = Some new_move_list ->
  move_list_has_result new_move_list = false ->
  let r := opponent_poll caps enable_non_stop_matches g previous_move_list o in
  let seen := [EvIsGameOver; EvGetMoveList] in
  (List.length new_move_list = List.length previous_move_list ->
   r = (PollAgain, seen ++ [EvSleep 100]))
  /\ (List.length new_move_list = List.length previous_move_list + 1 ->
      if _is_san_legal (g_board g)
           (nth_error new_move_list (List.length previous_move_list))
      then
        r = (PollAdvanced new_move_list, seen)
        /\ exists tok m,
             new_move_list
             = firstn (List.length previous_move_list) new_move_list ++ [tok]
             /\ parse_san (g_board g) (_sanitize_san tok) = Some m
             /\ (forall env game_over,
                   exists g',
                     opponent_parse caps enable_non_stop_matches
                       (advanced g new_move_list) env game_over
                     = (Proceed (m, g'), [])
                     /\ g_move_list g' = new_move_list
                     /\ move_stack (g_board g') = move_stack (g_board g) ++ [m])
      else r = (PollAgain, seen ++ [EvSleep 200]))
  /\ (List.length previous_move_list + 1 < List.length new_move_list ->
      In (EvResync "move list jumped") (snd r)
      /\ match fst r with
         | PollResynced board move_list _ =>
             _try_build_board_from_moves move_list = Some board
         | PollAgain | PollRaised _ => True
         | PollAdvanced _ | PollReturn | PollRestart | PollNewGame => False
         end).
Proof.
  intros Hover Hlist Hres. cbv zeta. unfold opponent_poll.
  rewrite Hover, Hlist, Hres. split; [|split].
  - intros Hlen. rewrite Hlen, Nat.ltb_irrefl.
    replace (List.length previous_move_list + 1 <? List.length previous_move_list)
      with false by (symmetry; apply Nat.ltb_ge; lia).
    reflexivity.
  - intros Hlen. rewrite Hlen.
    replace (List.length previous_move_list + 1 <? List.length previous_move_list)
      with false by (symmetry; apply Nat.ltb_ge; lia).
    rewrite Nat.ltb_irrefl.
    replace (List.length previous_move_list <? List.length previous_move_list + 1)
      with true by (symmetry; apply Nat.ltb_lt; lia).
    destruct (nth_error new_move_list (List.length previous_move_list)) as [tok|] eqn:Hn;
      [|apply nth_error_None in Hn; lia].
    destruct (_is_san_legal (g_board g) (Some tok)) eqn:Hlegal; [|reflexivity].
    split; [reflexivity|].
    unfold _is_san_legal in Hlegal.
    destruct (String.eqb tok ""); [discriminate|].
    destruct (parse_san (g_board g) (_sanitize_san tok)) as [m|] eqn:Hp; [|discriminate].
    assert (Hsplit : new_move_list
                     = firstn (List.length previous_move_list) new_move_list ++ [tok]).
    { rewrite <- (firstn_skipn (List.length previous_move_list) new_move_list) at 1.
      f_equal. pose proof (length_skipn (List.length previous_move_list) new_move_list) as Hs.
      rewrite <- (firstn_skipn (List.length previous_move_list) new_move_list) in Hn.
      rewrite nth_error_app2 in Hn by (rewrite length_firstn; lia).
      rewrite length_firstn in Hn.
      replace (List.length previous_move_list
               - Nat.min (List.length previous_move_list) (List.length new_move_list))
        with 0 in Hn by lia.
      destruct (skipn (List.length previous_move_list) new_move_list) as [|x [|y l]];
        simpl in *; try lia; try discriminate. congruence. }
    exists tok, m. split; [exact Hsplit|]. split; [exact Hp|].
    intros env game_over. unfold opponent_parse, advanced. cbn [rebuilt g_move_list g_board].
    assert (Hlast : last (map Some new_move_list) None = Some tok)
      by (rewrite Hsplit, map_app; cbn [map]; apply last_last).
    rewrite Hlast, Hp.
    eexists. split; [reflexivity|]. cbn [rebuilt g_move_list g_board].
    split; [reflexivity | apply move_stack_push].
  - intros Hlen.
    replace (List.length new_move_list <? List.length previous_move_list)
      with false by (symmetry; apply Nat.ltb_ge; lia).
    replace (List.length previous_move_list + 1 <? List.length new_move_list)
      with true by (symmetry; apply Nat.ltb_lt; lia).
    set (r := _resync_move_list_state caps (po_resync o) (g_is_white g) _ _ _).
    assert (Hin : In (EvResync "move list jumped") (rr_trace r)) by (left; reflexivity).
    pose proof (fun b ml => resync_result_replays (po_resync o) (g_is_white g)
                  "move list jumped"
                  (Some (List.length (move_stack (g_board g)) + 1))
                  default_max_attempts b ml) as Hbuild.
    fold r in Hbuild. clearbody r.
    destruct (rr_result r) as [[[board ml]|]|e]; cbn [fst snd].
    + split; [|apply Hbuild; reflexivity].
      apply in_or_app; right; exact Hin.
    + split; [|exact I].
      apply in_or_app; right; apply in_or_app; left; exact Hin.
    + split; [|exact I].
      apply in_or_app; right; exact Hin.
Qed.

End OpponentFacts.

(** ** Session acquisition *)

Section ActiveFacts.

Context `{C : Chess}.

Variable caps : Caps.
Variable max_wait : Z.
Variable previous_game_id : option string.
Variable skip_modal_check : bool.

Ltac split_matches :=
  repeat match goal with
         | |- context [match ?x with _ => _ end] => destruct x eqn:?
         end.

Lemma stable_required_ge_2 : 2 <= stable_required previous_game_id.
Proof. unfold stable_required. destruct previous_game_id; lia. Qed.

Lemma judge_empty_streak (s : ActiveState) (is_starting : option bool)
    (len : nat) (a : ActiveState) :
  judge_empty caps previous_game_id s is_starting len = inr a
  \/ judge_empty caps previous_game_id s is_starting len = inl a ->
  (as_ready_streak a = 0 \/ as_ready_streak a = as_ready_streak s)
  /\ as_is_white a = as_is_white s.
Proof.
  unfold judge_empty. cbv zeta. split_matches;
    intros [H|H]; try discriminate H; injection H as <-; cbn; auto.
Qed.

(** How the judgement of a reading can return. *)
Lemma judge_return (s : ActiveState) (changed : bool) (is_starting : option bool)
    (move_list : list string) b l w :
  active_judge caps previous_game_id s changed is_starting move_list
  = ActiveReturn (Some (b, l)) w ->
  (truthy is_starting = true /\ b = start_board /\ l = []
   /\ stale_list previous_game_id (as_is_white s) move_list)
  \/ (l = move_list
      /\ _try_build_board_from_moves move_list = Some b
      /\ move_list_has_result move_list = false
      /\ is_game_over b = false
      /\ stable_required previous_game_id <= S (as_ready_streak s)).
Proof.
  unfold active_judge, stale_list. cbv zeta.
  destruct (judge_empty caps previous_game_id s is_starting (List.length move_list))
    as [a|a] eqn:Ha; [discriminate|].
  destruct (judge_empty_streak _ _ _ _ (or_introl Ha)) as (Hs & Hw).
  destruct (as_last_move_list_len a) as [n|];
    [destruct (List.length move_list <? n); [discriminate|] |];
    (destruct (move_list_has_result move_list) eqn:Hres;
     [ destruct (truthy is_starting); [|discriminate];
       intros [= <- <- <-]; left; auto |]);
    (destruct (_try_build_board_from_moves move_list) as [bd|] eqn:Hb; [|discriminate]);
    (destruct (is_game_over bd) eqn:Hover;
     [ destruct (truthy is_starting); [|discriminate];
       intros [= <- <- <-]; left; repeat split; auto; right; exists bd; auto |]);
    cbn [as_is_white set_last_len set_ready as_ready_streak];
    (destruct previous_game_id as [pid|] eqn:Hpid;
     [ destruct (expected_max_moves (as_is_white a) + 5 <? List.length move_list) eqn:Hlong;
       [ destruct (truthy is_starting); [|discriminate];
         intros [= <- <- <-]; left; repeat split; auto; right; exists bd;
         split; [reflexivity|]; right; split; [discriminate|];
         apply Nat.ltb_lt in Hlong; rewrite <- Hw; exact Hlong
       | destruct (negb changed && negb (truthy is_starting
                     || (List.length move_list <=? expected_max_moves (as_is_white a) + 1)));
         [discriminate|] ]
     | ]);
    (match goal with
     | |- context [?x <=? ?y] => destruct (Nat.leb_spec x y); [|discriminate]
     end;
     intros [= <- <- <-]; right; repeat split; auto; lia).
Qed.

(** The streak moves by one step at most, or falls to zero. *)
Lemma judge_next (s : ActiveState) (changed : bool) (is_starting : option bool)
    (move_list : list string) s' :
  active_judge caps previous_game_id s changed is_starting move_list
  = ActiveNext s' ->
  as_ready_streak s' <= S (as_ready_streak s).
Proof.
  unfold active_judge. cbv zeta.
  destruct (judge_empty caps previous_game_id s is_starting (List.length move_list))
    as [a|a] eqn:Ha.
  - destruct (judge_empty_streak _ _ _ _ (or_intror Ha)) as (Hs & _).
    intros [= <-]. lia.
  - destruct (judge_empty_streak _ _ _ _ (or_introl Ha)) as (Hs & _).
    split_matches; intros H; try discriminate H;
      injection H as <-; cbn; lia.
Qed.

Lemma step_return (s : ActiveState) (o : ActiveObs) b l w :
  active_step caps max_wait previous_game_id skip_modal_check s o
  = ActiveReturn (Some (b, l)) w ->
  (b = start_board /\ l = []
   /\ exists move_list,
        ao_move_list o = Returns (Some move_list)
        /\ (or_none (ao_starting o) = Some true
            \/ or_none (ao_starting_again o) = Some true)
        /\ stale_list previous_game_id w move_list)
  \/ (ao_move_list o = Returns (Some l)
      /\ _try_build_board_from_moves l = Some b
      /\ move_list_has_result l = false
      /\ is_game_over b = false
      /\ stable_required previous_game_id <= S (as_ready_streak s)).
Proof.
  unfold active_step.
  destruct (max_wait <? ao_elapsed o)%Z; [discriminate|].
  destruct (ao_board o) as [[|]|[]]; try discriminate.
  destruct (ao_is_white o) as [[w0|]|[]]; try discriminate.
  match goal with
  | |- context [match ?m with Some s' => ActiveNext s' | None => _ end] =>
      destruct m; [discriminate|]
  end.
  destruct (ao_move_list o) as [[ml|]|[]]; try discriminate.
  intros H.
  assert (Hw : w = Some w0).
  { revert H. unfold active_judge. cbv zeta.
    destruct (judge_empty _ _ _ _ _) as [a|a] eqn:Ha; [discriminate|].
    destruct (judge_empty_streak _ _ _ _ (or_introl Ha)) as (_ & Hw).
    cbn [as_is_white set_white set_last_len set_ready] in *.
    split_matches; intros H; try discriminate H; injection H as _ _ <-;
      cbn [as_is_white set_white set_last_len set_ready]; congruence. }
  apply judge_return in H.
  destruct H as [(Ht & -> & -> & Hst)|(-> & H1 & H2 & H3 & H4)].
  - left. repeat split. exists ml. split; [reflexivity|].
    cbn [as_is_white set_white] in Hst. rewrite Hw. split; [|exact Hst].
    destruct (has_is_starting_position caps); [|discriminate Ht].
    destruct (or_none (ao_starting o)) as [[|]|]; try discriminate Ht; auto.
    destruct (or_none (ao_starting_again o)) as [[|]|]; try discriminate Ht; auto.
  - right. repeat split; auto.
Qed.

Lemma step_next (s : ActiveState) (o : ActiveObs) s' :
  active_step caps max_wait previous_game_id skip_modal_check s o = ActiveNext s' ->
  as_ready_streak s' <= S (as_ready_streak s).
Proof.
  unfold active_step.
  destruct (max_wait <? ao_elapsed o)%Z; [discriminate|].
  destruct (ao_board o) as [[|]|[]]; try discriminate;
    try (intros [= <-]; cbn; lia).
  destruct (ao_is_white o) as [[w0|]|[]]; try discriminate;
    try (intros [= <-]; cbn; lia).
  match goal with
  | |- context [match ?m with Some s' => ActiveNext s' | None => _ end] =>
      destruct m as [sm|] eqn:Hm
  end.
  - intros [= <-]. revert Hm. split_matches; intros Hm; try discriminate Hm;
      injection Hm as <-; cbn; lia.
  - destruct (ao_move_list o) as [[ml|]|[]]; try discriminate;
      try (intros [= <-]; cbn; lia).
    intros H. apply judge_next in H. exact H.
Qed.

Lemma loop_return (obs : list ActiveObs) : forall s b l w,
  active_loop caps max_wait previous_game_id skip_modal_check s obs
  = ActiveDone (Some (b, l)) w ->
  (b = start_board /\ l = [])
  \/ (stable_required previous_game_id <= as_ready_streak s + List.length obs
      /\ _try_build_board_from_moves l = Some b
      /\ exists o, In o obs /\ ao_move_list o = Returns (Some l)).
Proof.
  induction obs as [|o obs IH]; intros s b l w; simpl; [discriminate|].
  destruct (active_step caps max_wait previous_game_id skip_modal_check s o)
    as [s'|r w'|e] eqn:E; try discriminate.
  - intros H. apply IH in H. apply step_next in E.
    destruct H as [H|(H1 & H2 & o' & H3 & H4)]; [left; exact H|].
    right. split; [lia|]. split; [exact H2|]. exists o'. auto.
  - intros [= -> ->]. apply step_return in E.
    destruct E as [(E1 & E2 & _)|(E1 & E2 & _ & _ & E5)]; [left; auto|].
    right. split; [lia|]. split; [exact E2|]. exists o. auto.
Qed.




End ActiveFacts.

(** ** The debounce of the move-list cache *)

Section GrabberFacts.

Import Grabber.

(** A call that sees an empty list of moves in the visible container,
    with moves in the cache and no change of game id. *)
Lemma get_move_list_empty (g : Grabber.t) (p : Page) :
  moves_list g <> [] ->
  game_id_changed g p = false ->
  pg_visible_moves p = Some [] ->
  get_move_list g p =
  if 3 <=? S (_empty_visible_moves_count g)
  then (reset_moves_list g, Some [])
  else ({| moves_list := moves_list g; _current_game_id := pg_game_id p;
           _empty_visible_moves_count := S (_empty_visible_moves_count g) |},
        Some (dict_values (moves_list g))).
Proof.
  intros Hne Hid Hvis. unfold get_move_list, debounce. rewrite Hid, Hvis.
  cbn [moves_list _current_game_id _empty_visible_moves_count List.length].
  destruct (moves_list g) as [|kv d] eqn:Hd; [congruence|].
  cbn [dict_truthy Nat.eqb andb].
  destruct (3 <=? S (_empty_visible_moves_count g)); reflexivity.
Qed.

Lemma get_move_list_seen_resets_count (g : Grabber.t) (p : Page) (nodes : list Node) :
  pg_visible_moves p = Some nodes -> nodes <> [] ->
  _empty_visible_moves_count (fst (get_move_list g p)) = 0.
Proof.
  intros Hvis Hne. unfold get_move_list, debounce. rewrite Hvis.
  destruct nodes as [|nd nodes]; [congruence|]. reflexivity.
Qed.

(** C4, as the code has it.  With moves in the cache, a first and a second
    call in a row that find the visible container without any move, and
    detect no change of game id, leave the cached moves as they are and
    return them, counting 1 and 2; the third such call empties the cache,
    forgets the game id, puts the counter back to 0 and returns the empty
    list.  Any call that sees a move puts the counter back to 0. *)
Theorem empty_list_debounced (g : Grabber.t) (p1 p2 p3 : Page) :
  let r1 := get_move_list g p1 in
  let r2 := get_move_list (fst r1) p2 in
  let r3 := get_move_list (fst r2) p3 in
  moves_list g <> [] ->
  _empty_visible_moves_count g = 0 ->
  pg_visible_moves p1 = Some [] ->
  pg_visible_moves p2 = Some [] ->
  pg_visible_moves p3 = Some [] ->
  game_id_changed g p1 = false ->
  game_id_changed (fst r1) p2 = false ->
  game_id_changed (fst r2) p3 = false ->
  (moves_list (fst r1) = moves_list g
   /\ snd r1 = Some (dict_values (moves_list g))
   /\ _empty_visible_moves_count (fst r1) = 1)
  /\ (moves_list (fst r2) = moves_list g
      /\ snd r2 = Some (dict_values (moves_list g))
      /\ _empty_visible_moves_count (fst r2) = 2)
  /\ (fst r3 = {| moves_list := []; _current_game_id := None;
                  _empty_visible_moves_count := 0 |}
      /\ snd r3 = Some [])
  /\ (forall g' p nodes,
        pg_visible_moves p = Some nodes -> nodes <> [] ->
        _empty_visible_moves_count (fst (get_move_list g' p)) = 0).
Proof.
  cbv zeta. intros Hne Hc V1 V2 V3 I1.
  rewrite (get_move_list_empty g p1 Hne I1 V1), Hc. cbn [Nat.leb fst snd].
  intros I2.
  rewrite (get_move_list_empty
             {| moves_list := moves_list g; _current_game_id := pg_game_id p1;
                _empty_visible_moves_count := 1 |} p2 Hne I2 V2).
  cbn [Nat.leb fst snd moves_list _empty_visible_moves_count].
  intros I3.
  rewrite (get_move_list_empty
             {| moves_list := moves_list g; _current_game_id := pg_game_id p2;
                _empty_visible_moves_count := 2 |} p3 Hne I3 V3).
  cbn [Nat.leb fst snd moves_list _empty_visible_moves_count reset_moves_list].
  repeat split. apply get_move_list_seen_resets_count.
Qed.

End GrabberFacts.

(** * The model at work

    The theorems above applied to the worked cases, and the cases on which
    the code departs from the wording of the specification. *)

(** A resync that gives up three snapshots returns the fourth, with the
    board that replays it. *)
Lemma resync_returns_final_snapshot_witness :
  exists i fresh v,
    i < 10
    /\ (forall j, j < i ->
          fst (resync_attempt (C := Book.chess) chesscom_caps (Some 3)
                 (Some false) (Cases.settling j)) = Retry)
    /\ ro_move_list (Cases.settling i) = Returns (Some fresh)
    /\ read_starting chesscom_caps (ro_starting (Cases.settling i)) = Returns v
    /\ (if truthy v
        then ["e4"; "e5"; "Nf3"] = [] /\ ["e4"; "e5"; "Nf3"] = @start_board Book.chess
        else ["e4"; "e5"; "Nf3"] = fresh)
    /\ _try_build_board_from_moves (C := Book.chess) ["e4"; "e5"; "Nf3"]
       = Some ["e4"; "e5"; "Nf3"].
Proof.
  apply (resync_returns_final_snapshot (C := Book.chess) chesscom_caps (Some 3)
           Cases.settling (Some false) "move list jumped" 10).
  reflexivity.
Defined.

(** A resync that only ever sees a finished game fetches ten times and
    returns [(None, None)], nothing replaced. *)
Lemma resync_bounded_and_guarded_witness :
  fetches (rr_trace (_resync_move_list_state (C := Book.chess) chesscom_caps
                       Cases.finished (Some false) "move list jumped" (Some 3) 10))
  <= 10
  /\ rr_result (_resync_move_list_state (C := Book.chess) chesscom_caps
                  Cases.finished (Some false) "move list jumped" (Some 3) 10)
     = ResyncReturn None
  /\ existsb is_rebuild
       (rr_trace (_resync_move_list_state (C := Book.chess) chesscom_caps
                    Cases.finished (Some false) "move list jumped" (Some 3) 10))
     = false.
Proof.
  destruct (resync_bounded_and_guarded (C := Book.chess) chesscom_caps (Some 3)
              Cases.finished (Some false) "move list jumped" 10)
    as (F & _ & _ & E).
  split; [exact F|].
  destruct E as (E1 & _ & E3); [intros i _; reflexivity|].
  split; [exact E1 | exact E3].
Defined.

Example resync_fetches_ten_times :
  fetches (rr_trace (_resync_move_list_state (C := Book.chess) chesscom_caps
                       Cases.finished (Some false) "move list jumped" (Some 3) 10))
  = 10.
Proof. reflexivity. Qed.

(** A single legal token ends the wait for the opponent. *)
Lemma opponent_poll_counting_witness :
  opponent_poll (C := Book.chess) chesscom_caps true (Cases.bot_game 0) []
    (Cases.poll_of ["e4"])
  = (PollAdvanced ["e4"], [EvIsGameOver; EvGetMoveList]).
Proof.
  destruct (opponent_poll_counting (C := Book.chess) chesscom_caps true
              (Cases.bot_game 0) [] (Cases.poll_of ["e4"]) ["e4"]
              eq_refl eq_refl eq_refl) as (_ & A & _).
  destruct (A eq_refl) as (R & _). exact R.
Defined.

(** C1, counterexample.  The list read is longer by exactly one and its
    new token is no legal move: the turn ends in a sleep, the wait goes on,
    and no resync is started. *)
Lemma illegal_token_starts_no_resync :
  opponent_poll (C := Book.chess) chesscom_caps true (Cases.bot_game 0) []
    (Cases.poll_of ["Zz9"])
  = (PollAgain, [EvIsGameOver; EvGetMoveList; EvSleep 200])
  /\ List.length ["Zz9"] = List.length (@nil string) + 1
  /\ _is_san_legal (C := Book.chess) (g_board (Cases.bot_game 0)) (Some "Zz9")
     = false
  /\ existsb is_resync [EvIsGameOver; EvGetMoveList; EvSleep 200] = false.
Proof. repeat split. Qed.

Example jumped_list_is_resynced :
  fst (opponent_poll (C := Book.chess) chesscom_caps true (Cases.bot_game 0) []
         (Cases.poll_of ["e4"; "e5"; "Nf3"]))
  = PollResynced (C := Book.chess) ["e4"; "e5"; "Nf3"] ["e4"; "e5"; "Nf3"]
      (Some false).
Proof. reflexivity. Qed.

(** C3, counterexample.  The move list has grown by two entries and the
    entry at the old length, [d4], is not the move expected, [e4]: the
    wait reports success all the same. *)
Lemma confirmation_without_match :
  wait_for_move_confirmation "e4" [] 5000 0 Cases.other_moves
  = (ConfirmReturn true (Some ["d4"; "d5"]) (Some "d4"), [EvGetMoveList])
  /\ _san_matches "e4" "d4" = false
  /\ List.length ["d4"; "d5"] = List.length (@nil string) + 2.
Proof. repeat split. Qed.

Example confirmation_times_out :
  wait_for_move_confirmation "e4" [] 5000 (ce_start Cases.never_shown)
    (ce_polls Cases.never_shown)
  = (ConfirmReturn false None None, [EvGetMoveList; EvSleep 100]).
Proof. reflexivity. Qed.

(** Three executions without confirmation end in the error message. *)
Lemma unconfirmed_move_is_reported_witness :
  exists t,
    play_and_confirm "e2e4" "e4" [] (fun _ => Cases.never_shown)
    = (PlayedFailed, t ++ [EvPipeSend err_not_registered])
    /\ executions t = 3 /\ existsb is_pipe_send t = false.
Proof.
  apply (proj1 (unconfirmed_move_is_reported "e2e4" "e4" []
                  (fun _ => Cases.never_shown))).
  intros k _. reflexivity.
Defined.

(** C7, counterexample.  With the counter at the ceiling and continuous
    play disabled the loop returns at once; with continuous play enabled a
    new match is started.  No resync is started in either case. *)
Lemma ceiling_starts_no_resync :
  parse_error_gate (C := Book.chess) false (Cases.bot_game 10) = (ReturnRun, [])
  /\ parse_error_gate (C := Book.chess) true (Cases.bot_game 10)
     = (NewMatch 0, [EvFindNewOnlineMatch; EvStartGameSession])
  /\ existsb is_resync [EvFindNewOnlineMatch; EvStartGameSession] = false.
Proof. repeat split. Qed.

Example failed_parse_resyncs_and_counts :
  fst (confirmed_parse (C := Book.chess) chesscom_caps (Cases.bot_game 4)
         "e2e4" (Some "Zz9") Cases.finished)
  = ContinueLoop (Cases.bot_game 5).
Proof. reflexivity. Qed.


(** A stale element met by [is_starting_position] does not put the streak
    back to zero: with the position unreadable at both turns, the second
    reading of the list is the second valid reading and the wait returns. *)
Example stale_position_reading_counts :
  _wait_for_active_game (C := Book.chess) chesscom_caps None 30000 None true
    [Cases.unreadable_position ["e4"]; Cases.unreadable_position ["e4"]]
  = ActiveDone (C := Book.chess) (Some (["e4"], ["e4"])) (Some true).
Proof. reflexivity. Qed.

Example session_needs_three_after_a_game :
  _wait_for_active_game (C := Book.chess) chesscom_caps None 30000
    (Some "live_1") true
    [Cases.reading (Some true) (Some []); Cases.reading (Some true) (Some [])]
  = ActivePending
      {| as_last_move_list_len := Some 0; as_ready_streak := 2;
         as_unknown_starting_streak := 0; as_is_white := Some true |}.
Proof. reflexivity. Qed.

(** Three polls of a page without moves, with two moves in the cache. *)
Lemma empty_list_debounced_witness :
  (Grabber.moves_list (fst (Grabber.get_move_list Cases.cached Cases.blank))
   = Grabber.moves_list Cases.cached
   /\ snd (Grabber.get_move_list Cases.cached Cases.blank) = Some ["e4"; "e5"])
  /\ snd (Grabber.get_move_list
            (fst (Grabber.get_move_list
                    (fst (Grabber.get_move_list Cases.cached Cases.blank))
                    Cases.blank))
            Cases.blank)
     = Some [].
Proof.
  destruct (empty_list_debounced Cases.cached Cases.blank Cases.blank Cases.blank)
    as ((A1 & A2 & _) & _ & (_ & C2) & _);
    try reflexivity; try discriminate.
  split; [split; [exact A1 | exact A2] | exact C2].
Defined.

(** C4, counterexample.  Two moves are cached for the game [live_1]; the
    page now shows the game [live_2] and no move yet.  The first call
    already empties the cache and returns the empty list: the change of
    game id is acted upon before the debounce. *)
Lemma new_game_id_empties_cache_at_once :
  Grabber.get_move_list Cases.cached Cases.next_game
  = ({| Grabber.moves_list := [];
        Grabber._current_game_id := Some "live_2";
        Grabber._empty_visible_moves_count := 0 |}, Some [])
  /\ Grabber.moves_list Cases.cached = [("0", "e4"); ("1", "e5")]
  /\ Grabber.pg_visible_moves Cases.next_game = Some [].
Proof. repeat split. Qed.

(** * Further properties

    ** The messages of the bot, as the supervising process reads them *)

Section SplitFacts.

Import PyText.

Variable c : ascii.

Lemma split_on_nonempty (s : string) : split_on c s <> [].
Proof.
  destruct s as [|a r]; simpl; [discriminate|].
  destruct (Ascii.eqb a c); [discriminate|].
  destruct (split_on c r); discriminate.
Qed.

Lemma split_on_whole (x : string) :
  contains c x = false -> split_on c x = [x].
Proof.
  induction x as [|a r IH]; simpl; [reflexivity|].
  destruct (Ascii.eqb a c); simpl; [discriminate|].
  intros H. rewrite (IH H). reflexivity.
Qed.

Lemma split_on_first (x y : string) :
  contains c x = false ->
  split_on c (x ++ String c y) = x :: split_on c y.
Proof.
  induction x as [|a r IH]; simpl.
  - intros _. rewrite Ascii.eqb_refl. reflexivity.
  - destruct (Ascii.eqb a c); simpl; [discriminate|].
    intros H. rewrite (IH H). reflexivity.
Qed.

End SplitFacts.

Lemma contains_app (c : ascii) (x y : string) :
  PyText.contains c (x ++ y) = PyText.contains c x || PyText.contains c y.
Proof.
  induction x as [|a r IH]; simpl; [reflexivity|].
  rewrite IH. apply orb_assoc.
Qed.

Lemma prefix_empty (x : string) : String.prefix "" x = true.
Proof. destruct x; reflexivity. Qed.

Lemma string_app_assoc (x y z : string) : ((x ++ y) ++ z = x ++ (y ++ z))%string.
Proof. induction x as [|a r IH]; simpl; [reflexivity | rewrite IH; reflexivity]. Qed.

(** Splitting at the commas undoes [",".join] on a list, not empty, of
    tokens without comma. *)
Lemma split_join_comma (l : list string) :
  Forall (fun tok => PyText.contains "," tok = false) l ->
  l <> [] ->
  PyText.split_on "," (join_comma l) = l.
Proof.
  induction l as [|a l IH]; intros Hl Hne; [congruence|].
  inversion Hl as [|x l' Ha Hrest]; subst.
  destruct l as [|b l]; simpl.
  - apply split_on_whole. exact Ha.
  - change (a ++ String "," (join_comma (b :: l)))%string
      with (a ++ String "," (join_comma (b :: l)))%string.
    rewrite split_on_first by exact Ha.
    f_equal. apply IH; [exact Hrest | discriminate].
Qed.

Section MessageFacts.

Import PyText Supervisor.

Lemma handle_M_MOVE (body : string) :
  _handle_message ("M_MOVE" ++ body)
  = [multiple_moves (if String.eqb body "" then [] else split_on "," body)].
Proof.
  unfold _handle_message.
  change (String.eqb ("M_MOVE" ++ body) "START") with false.
  change (String.eqb ("M_MOVE" ++ body) "RESTART") with false.
  change (String.prefix "S_MOVE" ("M_MOVE" ++ body)) with false.
  change (String.prefix "M_MOVE" ("M_MOVE" ++ body)) with (String.prefix "" body).
  rewrite prefix_empty. reflexivity.
Qed.

Lemma join_comma_empty (l : list string) :
  join_comma l = "" -> l = [] \/ l = [""].
Proof.
  destruct l as [|a [|b l]]; simpl; auto.
  - intros ->. auto.
  - destruct a; discriminate.
Qed.

Lemma read_move_list (move_list : list string) :
  Forall (fun tok => contains "," tok = false) move_list ->
  move_list <> [""] ->
  (if String.eqb (join_comma move_list) "" then []
   else split_on "," (join_comma move_list)) = move_list.
Proof.
  intros Hl Hne.
  destruct (String.eqb_spec (join_comma move_list) "") as [E|E].
  - destruct (join_comma_empty _ E); congruence.
  - apply split_join_comma; [exact Hl|]. intros ->. apply E. reflexivity.
Qed.

(** X1.  The list of moves that the bot sends in an [M_MOVE] message is the
    list that the supervising process reads out of it, provided that no
    token holds a comma and that the list is not the single empty token. *)
Theorem move_list_message_round_trip (move_list : list string) :
  Forall (fun tok => contains "," tok = false) move_list ->
  move_list <> [""] ->
  _handle_message ("M_MOVE" ++ join_comma move_list) = [multiple_moves move_list].
Proof.
  intros Hl Hne. rewrite handle_M_MOVE.
  rewrite read_move_list by assumption. reflexivity.
Qed.

(** X2.  The text of a runtime error reaches the user up to its first
    [|]: a text without [|] is shown in full, after a fixed preamble, and
    anything from a [|] on is lost. *)
Theorem runtime_error_text (msg : string) :
  _handle_message ("ERR_RUNTIME|" ++ msg)
  = [error_occurred "Runtime Error"
       ("Bot encountered an error: " ++ hd "" (split_on "|" msg))]
  /\ (contains "|" msg = false ->
      _handle_message ("ERR_RUNTIME|" ++ msg)
      = [error_occurred "Runtime Error" ("Bot encountered an error: " ++ msg)])
  /\ (forall text rest,
        contains "|" text = false ->
        _handle_message ("ERR_RUNTIME|" ++ text ++ "|" ++ rest)
        = [error_occurred "Runtime Error" ("Bot encountered an error: " ++ text)]).
Proof.
  assert (G : forall m,
    _handle_message ("ERR_RUNTIME|" ++ m)
    = [error_occurred "Runtime Error"
         ("Bot encountered an error: " ++ hd "" (split_on "|" m))]).
  { intros m. unfold _handle_message.
    change (String.eqb ("ERR_RUNTIME|" ++ m) "START") with false.
    change (String.eqb ("ERR_RUNTIME|" ++ m) "RESTART") with false.
    change (String.prefix "S_MOVE" ("ERR_RUNTIME|" ++ m)) with false.
    change (String.prefix "M_MOVE" ("ERR_RUNTIME|" ++ m)) with false.
    change (String.prefix "EVAL|" ("ERR_RUNTIME|" ++ m)) with false.
    change (String.prefix "ERR_" ("ERR_RUNTIME|" ++ m)) with true.
    change (String.prefix "ERR_RUNTIME" ("ERR_RUNTIME|" ++ m)) with true.
    change (contains "|" ("ERR_RUNTIME|" ++ m)) with true.
    cbv iota zeta.
    change ("ERR_RUNTIME|" ++ m)%string with ("ERR_RUNTIME" ++ String "|" m)%string.
    rewrite split_on_first by reflexivity.
    unfold item. simpl nth.
    pose proof (split_on_nonempty "|" m) as Hne.
    destruct (split_on "|" m); [congruence | reflexivity]. }
  split; [apply G|]. split.
  - intros H. rewrite G, split_on_whole by exact H. reflexivity.
  - intros text rest H. rewrite G.
    change (text ++ "|" ++ rest)%string with (text ++ String "|" rest)%string.
    rewrite split_on_first by exact H. reflexivity.
Qed.

(** X3.  The five fields of an evaluation message, when none holds a
    [|], are the five values that the supervising process reads out of
    it. *)
Theorem eval_message_round_trip (eval_str wdl_str material bot_acc opp_acc : string) :
  contains "|" eval_str = false ->
  contains "|" wdl_str = false ->
  contains "|" material = false ->
  contains "|" bot_acc = false ->
  contains "|" opp_acc = false ->
  _handle_message
    ("EVAL|" ++ eval_str ++ "|" ++ wdl_str ++ "|" ++ material ++ "|"
       ++ bot_acc ++ "|" ++ opp_acc)
  = [eval_updated eval_str wdl_str material bot_acc opp_acc].
Proof.
  intros H1 H2 H3 H4 H5. unfold _handle_message.
  set (body := (eval_str ++ "|" ++ wdl_str ++ "|" ++ material ++ "|"
                  ++ bot_acc ++ "|" ++ opp_acc)%string).
  change (String.eqb ("EVAL|" ++ body) "START") with false.
  change (String.eqb ("EVAL|" ++ body) "RESTART") with false.
  change (String.prefix "S_MOVE" ("EVAL|" ++ body)) with false.
  change (String.prefix "M_MOVE" ("EVAL|" ++ body)) with false.
  change (String.prefix "EVAL|" ("EVAL|" ++ body)) with (String.prefix "" body).
  rewrite prefix_empty.
  cbv iota zeta.
  change ("EVAL|" ++ body)%string with ("EVAL" ++ String "|" body)%string.
  rewrite split_on_first by reflexivity.
  unfold body.
  change (eval_str ++ "|" ++ wdl_str ++ "|" ++ material ++ "|" ++ bot_acc ++ "|" ++ opp_acc)%string
    with (eval_str ++ String "|" (wdl_str ++ String "|" (material ++ String "|"
            (bot_acc ++ String "|" opp_acc))))%string.
  rewrite !split_on_first by assumption.
  rewrite split_on_whole by assumption.
  reflexivity.
Qed.

End MessageFacts.

(** ** The table of moves *)

Section TableFacts.

Import PyText Supervisor.

Lemma skipn_cons_nth {A} (n : nat) : forall (l : list A) w r d,
  skipn n l = w :: r ->
  nth n l d = w /\ skipn (S n) l = r /\ List.length l = n + S (List.length r).
Proof.
  induction n as [|n IH]; intros l w r d H.
  - simpl in H. subst l. simpl. auto.
  - destruct l as [|x l]; [discriminate|]. simpl in H.
    destruct (IH l w r d H) as (H1 & H2 & H3). simpl. repeat split; auto.
Qed.

Lemma half_zero (n : nat) : (n + 1) / 2 = 0 -> n = 0.
Proof.
  intros H. destruct n as [|n]; [reflexivity|].
  assert (1 <= (S n + 1) / 2) by (apply Nat.div_le_lower_bound; lia). lia.
Qed.

Lemma half_step (n : nat) : (S (S n) + 1) / 2 = S ((n + 1) / 2).
Proof.
  replace (S (S n) + 1) with ((n + 1) + 1 * 2) by lia.
  rewrite Nat.div_add by lia. lia.
Qed.

Section Loop.

Variable moves : list string.

Let step := fun (rows : list Row) (i : nat) =>
  rows ++ [white_row (List.length rows) (item moves i)
             (if i + 1 <? List.length moves
              then Some (item moves (i + 1)) else None)].

Lemma set_moves_loop (m : nat) : forall a acc rest,
  List.length acc = a ->
  skipn (2 * a) moves = rest ->
  m = (List.length rest + 1) / 2 ->
  fold_left step (map (fun k => 2 * k) (seq a m)) acc = acc ++ paired a rest.
Proof.
  induction m as [|m IH]; intros a acc rest Hacc Hrest Hm.
  - symmetry in Hm. apply half_zero in Hm. destruct rest; [|discriminate].
    simpl. rewrite app_nil_r. reflexivity.
  - destruct rest as [|w r1]; [discriminate|].
    destruct (skipn_cons_nth _ _ _ _ "" Hrest) as (Hw & Hskip & Hlen).
    cbn [seq map fold_left]. unfold step at 2. unfold item. rewrite Hw, Hacc.
    destruct r1 as [|b r2].
    + replace (2 * a + 1 <? List.length moves) with false
        by (symmetry; apply Nat.ltb_ge; simpl in Hlen; lia).
      simpl in Hm. injection Hm as ->. reflexivity.
    + replace (2 * a + 1 <? List.length moves) with true
        by (symmetry; apply Nat.ltb_lt; simpl in Hlen; lia).
      replace (2 * a + 1) with (S (2 * a)) by lia.
      destruct (skipn_cons_nth _ _ _ _ "" Hskip) as (Hb & Hskip2 & _).
      rewrite Hb.
      rewrite (IH (S a) _ r2).
      * rewrite <- app_assoc. reflexivity.
      * rewrite length_app. simpl. lia.
      * replace (2 * S a) with (S (S (2 * a))) by lia. exact Hskip2.
      * cbn [List.length] in Hm. rewrite half_step in Hm. lia.
Qed.

End Loop.

(** The rows built by [set_moves] pair the moves two by two. *)
Lemma set_moves_rows (t : MovesTable) (moves : list string) :
  rows (set_moves t moves) = paired 0 moves.
Proof.
  unfold set_moves, range_by_two. cbn [rows].
  rewrite (set_moves_loop moves _ 0 [] moves); reflexivity.
Qed.

Lemma set_cell2_last (pre : list Row) (r : Row) (move : string) :
  set_cell2 (List.length pre) move (pre ++ [r])
  = pre ++ [{| cell0 := cell0 r; cell1 := cell1 r; cell2 := Some move |}].
Proof. induction pre as [|x pre IH]; simpl; [reflexivity | rewrite IH; reflexivity]. Qed.

(** One more move on a table that pairs the moves [p] after the rows
    [pre], the last of which is full. *)
Lemma add_move_paired (n : nat) : forall (p : list string) (pre : list Row)
    (t : MovesTable) (move : string),
  List.length p <= n ->
  (forall r, nth_error pre (List.length pre - 1) = Some r -> cell2 r <> None) ->
  rows t = pre ++ paired (List.length pre) p ->
  rows (add_move t move) = pre ++ paired (List.length pre) (p ++ [move]).
Proof.
  induction n as [|n IH]; intros p pre t move Hn Hpre Hrows.
  - destruct p; [|simpl in Hn; lia]. simpl in Hrows. rewrite app_nil_r in Hrows.
    unfold add_move. cbn [rows]. rewrite Hrows. simpl paired.
    destruct pre as [|x pre]; [reflexivity|].
    destruct (nth_error (x :: pre) (List.length (x :: pre) - 1)) as [r|] eqn:E.
    + specialize (Hpre r eq_refl). destruct (cell2 r); [|congruence].
      rewrite orb_true_r. reflexivity.
    + apply nth_error_None in E. simpl in E. lia.
  - destruct p as [|w [|b p]].
    + apply (IH [] pre t move); [simpl; lia | exact Hpre | exact Hrows].
    + simpl in Hrows. unfold add_move. cbn [rows]. rewrite Hrows.
      rewrite length_app. cbn [List.length].
      replace (List.length pre + 1 - 1) with (List.length pre) by lia.
      replace (List.length pre + 1 =? 0) with false
        by (symmetry; apply Nat.eqb_neq; lia).
      rewrite nth_error_app2 by lia. rewrite Nat.sub_diag. cbn.
      rewrite set_cell2_last. reflexivity.
    + cbn [paired] in Hrows. cbn [app paired].
      replace (pre ++ white_row (List.length pre) w (Some b)
                 :: paired (S (List.length pre)) (p ++ [move]))
        with ((pre ++ [white_row (List.length pre) w (Some b)])
                ++ paired (S (List.length pre)) (p ++ [move]))
        by (rewrite <- app_assoc; reflexivity).
      replace (S (List.length pre))
        with (List.length (pre ++ [white_row (List.length pre) w (Some b)]))
        by (rewrite length_app; simpl; lia).
      apply IH.
      * simpl in Hn. lia.
      * intros r. rewrite length_app. cbn [List.length].
        replace (List.length pre + 1 - 1) with (List.length pre) by lia.
        rewrite nth_error_app2 by lia. rewrite Nat.sub_diag. cbn.
        intros [= <-]. discriminate.
      * rewrite Hrows, <- app_assoc, length_app. cbn [List.length app].
        replace (List.length pre + 1) with (S (List.length pre)) by lia.
        reflexivity.
Qed.

Lemma add_moves_paired (l : list string) : forall (t : MovesTable) (p : list string),
  rows t = paired 0 p -> _moves t = p ->
  rows (fold_left add_move l t) = paired 0 (p ++ l)
  /\ _moves (fold_left add_move l t) = p ++ l.
Proof.
  induction l as [|m l IH]; intros t p Hr Hm; simpl.
  - rewrite app_nil_r. auto.
  - replace (p ++ m :: l) with ((p ++ [m]) ++ l) by (rewrite <- app_assoc; reflexivity).
    apply IH.
    + apply (add_move_paired (List.length p) p [] t m).
      * lia.
      * intros r H. destruct (List.length (@nil Row) - 1); discriminate.
      * exact Hr.
    + cbn [add_move _moves]. rewrite Hm. reflexivity.
Qed.

(** X4.  Replacing the moves of the table by a list gives the very table
    that adding the moves of the list one by one to a cleared table
    gives. *)
Theorem set_moves_is_repeated_add_move (t : MovesTable) (moves : list string) :
  set_moves t moves = fold_left add_move moves (table_clear t).
Proof.
  destruct (add_moves_paired moves (table_clear t) [] eq_refl eq_refl) as (Hr & Hm).
  simpl in Hr, Hm.
  pose proof (set_moves_rows t moves) as Hs.
  destruct (fold_left add_move moves (table_clear t)) as [r m].
  cbn [rows _moves] in *. subst r m. unfold set_moves in *. cbn [rows] in Hs.
  rewrite Hs. reflexivity.
Qed.

Lemma paired_length (l : list string) : forall k n,
  List.length l <= n -> List.length (paired k l) = (List.length l + 1) / 2.
Proof.
  intros k n. revert k l.
  induction n as [|n IH]; intros k l Hn.
  - destruct l; [reflexivity | simpl in Hn; lia].
  - destruct l as [|w [|b r]]; try reflexivity.
    cbn [paired List.length]. rewrite (IH (S k) r) by (simpl in Hn; lia).
    rewrite half_step. reflexivity.
Qed.

Lemma paired_row (i : nat) : forall k l,
  2 * i < List.length l ->
  nth_error (paired k l) i
  = Some (white_row (k + i) (item l (2 * i)) (nth_error l (2 * i + 1))).
Proof.
  induction i as [|i IH]; intros k l Hi.
  - destruct l as [|w [|b r]]; [simpl in Hi; lia | |];
      simpl; rewrite Nat.add_0_r; reflexivity.
  - destruct l as [|w [|b r]]; [simpl in Hi; lia | simpl in Hi; lia |].
    cbn [paired nth_error]. rewrite IH by (simpl in Hi; lia).
    replace (2 * S i) with (S (S (2 * i))) by lia.
    replace (S k + i) with (k + S i) by lia.
    unfold item. reflexivity.
Qed.

(** X5.  After [set_moves] the table has one row for every two moves,
    half a row counted as one; the row [i] shows the number [i + 1], the
    move of index [2 i] as White's and the move of index [2 i + 1], if
    there is one, as Black's; and [get_moves] returns the list. *)
Theorem set_moves_layout (t : MovesTable) (moves : list string) (i : nat) :
  2 * i < List.length moves ->
  nth_error (rows (set_moves t moves)) i
  = Some {| cell0 := str_nat (i + 1); cell1 := item moves (2 * i);
            cell2 := nth_error moves (2 * i + 1) |}
  /\ List.length (rows (set_moves t moves)) = (List.length moves + 1) / 2
  /\ get_moves (set_moves t moves) = moves.
Proof.
  intros Hi. rewrite set_moves_rows. split; [|split].
  - rewrite paired_row by exact Hi. reflexivity.
  - apply (paired_length moves 0 (List.length moves)). lia.
  - reflexivity.
Qed.

End TableFacts.

(** ** From the bot to the table of moves *)

Section WindowFacts.

Import PyText Supervisor.

Lemma receive_fst_any_out (msgs : list string) : forall g out,
  fst (fold_left (fun '(g, out) data =>
                    let '(g', o) := slots g (_handle_message data) in
                    (g', out ++ o))
                 msgs (g, out))
  = fst (receive g msgs).
Proof.
  unfold receive.
  induction msgs as [|m msgs IH]; intros g out; [reflexivity|].
  cbn [fold_left]. destruct (slots g (_handle_message m)) as [g' o].
  rewrite IH. symmetry. apply IH.
Qed.

Lemma receive_cons (g : Window) (m : string) (ms : list string) :
  fst (receive g (m :: ms))
  = fst (receive (fst (slots g (_handle_message m))) ms).
Proof.
  unfold receive at 1. cbn [fold_left].
  destruct (slots g (_handle_message m)) as [g' o]. apply receive_fst_any_out.
Qed.

Lemma receive_move_list (g : Window) (move_list : list string) :
  Forall (fun tok => contains "," tok = false) move_list ->
  move_list <> [""] ->
  window_shows (fst (slots g (_handle_message ("M_MOVE" ++ join_comma move_list))))
               move_list.
Proof.
  intros Hl Hne. rewrite handle_M_MOVE, read_move_list by assumption.
  unfold window_shows, slots. cbn [fold_left slot fst match_moves moves_table].
  split; [reflexivity|]. split; [reflexivity | apply set_moves_rows].
Qed.

Lemma receive_START (g : Window) :
  window_shows (fst (slots g (_handle_message "START"))) []
  /\ has_pipe (fst (slots g (_handle_message "START"))) = has_pipe g.
Proof. unfold window_shows. cbn. auto. Qed.

(** An evaluation message leaves the moves of the window alone. *)
Lemma receive_EVAL (g : Window) (body : string) :
  fst (slots g (_handle_message ("EVAL|" ++ body))) = g.
Proof.
  unfold _handle_message.
  change (String.eqb ("EVAL|" ++ body) "START") with false.
  change (String.eqb ("EVAL|" ++ body) "RESTART") with false.
  change (String.prefix "S_MOVE" ("EVAL|" ++ body)) with false.
  change (String.prefix "M_MOVE" ("EVAL|" ++ body)) with false.
  change (String.prefix "EVAL|" ("EVAL|" ++ body)) with (String.prefix "" body).
  rewrite prefix_empty. cbv iota zeta.
  destruct (6 <=? List.length (split_on "|" ("EVAL|" ++ body))); reflexivity.
Qed.

Lemma receive_eval_data (g : Window) eval (ms : list string) :
  fst (receive g (messages (send_eval_data eval) ++ ms)) = fst (receive g ms).
Proof.
  destruct eval as [[[[[a b] c] d] e]|]; [|reflexivity].
  cbn [send_eval_data messages flat_map sent app].
  rewrite receive_cons.
  change ("EVAL|" ++ a ++ "|" ++ b ++ "|" ++ c ++ "|" ++ d ++ "|" ++ e)%string
    with ("EVAL|" ++ (a ++ "|" ++ b ++ "|" ++ c ++ "|" ++ d ++ "|" ++ e))%string.
  rewrite receive_EVAL. reflexivity.
Qed.

End WindowFacts.

Lemma sent_app (t1 t2 : Trace) : sent (t1 ++ t2) = sent t1 ++ sent t2.
Proof.
  induction t1 as [|e t1 IH]; [reflexivity|].
  destruct e; simpl; rewrite IH; reflexivity.
Qed.

Lemma messages_app (a1 a2 : list Act) : messages (a1 ++ a2) = messages a1 ++ messages a2.
Proof. unfold messages. rewrite flat_map_app. apply sent_app. Qed.

Section ResyncMessages.

Context `{C : Chess}.

Variable caps : Caps.
Variable expected_move_count : option nat.

Lemma attempt_sent (w : option bool) (o : ResyncObs) out t :
  resync_attempt caps expected_move_count w o = (out, t) ->
  sent t = match out with
           | Accept _ move_list _ => ["M_MOVE" ++ join_comma move_list]%string
           | Retry | AttemptRaised _ => []
           end.
Proof.
  set (P := fun out : AttemptOutcome =>
              match out with
              | Accept _ move_list _ => ["M_MOVE" ++ join_comma move_list]%string
              | Retry | AttemptRaised _ => []
              end).
  change (resync_attempt caps expected_move_count w o = (out, t) -> sent t = P out).
  unfold resync_attempt, starting_events.
  repeat match goal with
         | |- context [match ?x with _ => _ end] => destruct x eqn:?
         end; intros [= <- <-]; reflexivity.
Qed.

Lemma attempts_sent (env : nat -> ResyncObs) (w : option bool) (n : nat) :
  forall k b ml,
  rr_result (resync_attempts caps expected_move_count env w n k)
  = ResyncReturn (Some (b, ml)) ->
  sent (rr_trace (resync_attempts caps expected_move_count env w n k))
  = ["M_MOVE" ++ join_comma ml]%string.
Proof.
  induction n as [|n IH]; intros k b ml; simpl; [discriminate|].
  destruct (resync_attempt caps expected_move_count w (env k))
    as [[|b0 ml0 w0|e] t] eqn:E; simpl in *.
  - intros H. rewrite sent_app, (attempt_sent _ _ _ _ E). simpl. apply (IH _ _ _ H).
  - intros [= <- <-]. apply (attempt_sent _ _ _ _ E).
  - discriminate.
Qed.

(** X6.  When a resync returns a board and a list of moves, what it has
    sent on the pipe is one [M_MOVE] message, and a window that receives
    it shows this list, move by move, in its table, whatever it showed
    before; this for tokens without comma and a list that is not the single
    empty token. *)
Theorem resync_reaches_moves_table (env : nat -> ResyncObs) (w : option bool)
    (reason : string) (max_attempts : nat) (b : Board) (ml : list string)
    (g : Supervisor.Window) :
  rr_result (_resync_move_list_state caps env w reason expected_move_count
               max_attempts) = ResyncReturn (Some (b, ml)) ->
  Forall (fun tok => PyText.contains "," tok = false) ml ->
  ml <> [""] ->
  sent (rr_trace (_resync_move_list_state caps env w reason expected_move_count
                    max_attempts)) = ["M_MOVE" ++ join_comma ml]%string
  /\ window_shows
       (fst (Supervisor.receive g
               (sent (rr_trace (_resync_move_list_state caps env w reason
                                  expected_move_count max_attempts)))))
       ml.
Proof.
  intros H Hl Hne. unfold _resync_move_list_state in *. cbn [rr_result rr_trace] in *.
  change (sent (EvResync reason :: ?t)) with (sent t).
  rewrite (attempts_sent env w max_attempts 0 b ml H).
  split; [reflexivity|].
  rewrite receive_cons. apply receive_move_list; assumption.
Qed.

End ResyncMessages.

(** ** Leaving a game and starting the next *)

Section LeavingFacts.

Import Supervisor.

Lemma modal_wait_silent (start : Z) (polls : list ModalPoll) :
  messages (fst (modal_wait start polls)) = []
  /\ filter is_click_game_next (fst (modal_wait start polls)) = [].
Proof.
  induction polls as [|p polls IH]; simpl; [auto|].
  destruct (mp_now p - start <? 15000)%Z; [|auto].
  destruct (mp_game_over p) as [[|]|e]; try (simpl; now auto).
  destruct (modal_wait start polls) as [t ended]. simpl in *. exact IH.
Qed.

Lemma modal_wait_ends (start : Z) (polls : list ModalPoll) :
  (exists p, In p polls /\ (15000 <= mp_now p - start)%Z) ->
  snd (modal_wait start polls) = true.
Proof.
  induction polls as [|p polls IH]; simpl; intros (q & Hq & Ht); [contradiction|].
  destruct (Z.ltb_spec (mp_now p - start) 15000) as [Hin|Hout]; [|reflexivity].
  destruct (mp_game_over p) as [[|]|e]; try reflexivity.
  assert (H : snd (modal_wait start polls) = true).
  { apply IH. destruct Hq as [->|Hq]; [lia|]. exists q. auto. }
  destruct (modal_wait start polls) as [t ended]. exact H.
Qed.

(** X7.  Leaving a game clicks on the button for a new game once, and a
    second time only if the first click failed.  The wait for the modal is
    over at the first clock reading 15 s or more after its start, if the
    modal has not gone before; the only message then sent is [RESTART],
    the last act of the method before it waits for the answer, right after
    the cache of moves has been reset; and the method returns exactly when
    [DELETE] is received. *)
Theorem leaving_a_game (env : LeaveEnv) :
  let r := find_new_online_match env in
  List.length (filter is_click_game_next (fst r))
  = (if le_click env then 1 else 2)
  /\ ((exists p, In p (le_modal env)
                 /\ (15000 <= mp_now p - le_modal_start env)%Z) ->
      snd r <> LeftPending)
  /\ (snd r <> LeftPending ->
      messages (fst r) = ["RESTART"]
      /\ exists before,
           fst r = before ++ [Ev EvResetMovesList; Ev (EvPipeSend "RESTART")])
  /\ (forall rest,
        snd r = LeftDone rest <->
        snd r <> LeftPending
        /\ exists discarded,
             wait_for_gui_to_delete (le_inbox env) = DeleteReceived discarded rest).
Proof.
  cbv zeta. unfold find_new_online_match.
  pose proof (modal_wait_silent (le_modal_start env) (le_modal env)) as (Hm & Hc).
  pose proof (modal_wait_ends (le_modal_start env) (le_modal env)) as He.
  destruct (modal_wait (le_modal_start env) (le_modal env)) as [modal ended].
  cbn [fst snd] in *.
  destruct ended; cbn [fst snd].
  - split; [|split; [|split]].
    + rewrite !filter_app, Hc. destruct (le_click env); reflexivity.
    + intros _. destruct (wait_for_gui_to_delete (le_inbox env)); discriminate.
    + intros _. split.
      * rewrite !messages_app, Hm. destruct (le_click env); reflexivity.
      * exists ((Ev (EvSleep 1500) :: ActClickGameNext
                   :: (if le_click env then []
                       else [Ev (EvSleep 2000); ActClickGameNext]))
                  ++ modal ++ [Ev (EvSleep 1000)]).
        rewrite <- !app_assoc. reflexivity.
    + intros rest.
      destruct (wait_for_gui_to_delete (le_inbox env)) as [d r|d|d e]; split;
        try discriminate.
      * intros [= <-]. split; [discriminate|]. exists d. reflexivity.
      * intros (_ & d' & [= _ <-]). reflexivity.
      * intros (_ & d' & H). discriminate.
      * intros (_ & d' & H). discriminate.
  - split; [|split; [|split]].
    + rewrite !filter_app, Hc. destruct (le_click env); reflexivity.
    + intros H. apply He in H. discriminate.
    + intros H. congruence.
    + intros rest. split; [discriminate|]. intros (H & _). congruence.
Qed.

Lemma receive_RESTART (g : Window) :
  receive g ["RESTART"] = (g, if has_pipe g then ["DELETE"] else []).
Proof. reflexivity. Qed.

(** X8.  The handshake of the transition completes against the
    supervising process: a window that holds the pipe answers the
    [RESTART] of [find_new_online_match] with [DELETE], keeping its moves
    as they are, and on this answer the method returns. *)
Theorem leaving_handshake (env : LeaveEnv) (g : Window) (later : list (Call string)) :
  has_pipe g = true ->
  snd (modal_wait (le_modal_start env) (le_modal env)) = true ->
  le_inbox env
  = map Returns (snd (receive g (messages (fst (find_new_online_match env)))))
      ++ later ->
  snd (find_new_online_match env) = LeftDone later
  /\ receive g (messages (fst (find_new_online_match env))) = (g, ["DELETE"]).
Proof.
  intros Hp Hended.
  assert (Hmsg : messages (fst (find_new_online_match env)) = ["RESTART"]).
  { unfold find_new_online_match.
    pose proof (modal_wait_silent (le_modal_start env) (le_modal env)) as (Hm & _).
    destruct (modal_wait (le_modal_start env) (le_modal env)) as [modal ended].
    cbn [fst snd] in *. subst ended. cbn [fst].
    rewrite !messages_app, Hm. destruct (le_click env); reflexivity. }
  rewrite Hmsg, receive_RESTART, Hp. cbn [snd map app].
  intros Hin. split; [|reflexivity].
  unfold find_new_online_match.
  destruct (modal_wait (le_modal_start env) (le_modal env)) as [modal ended].
  cbn [snd] in Hended. subst ended. cbn [snd]. rewrite Hin. reflexivity.
Qed.

End LeavingFacts.

Section SessionFacts.

Context `{C : Chess}.

Variable caps : Caps.

Lemma judge_not_none (prev : option string) (s : ActiveState) (changed : bool)
    (is_starting : option bool) (move_list : list string) w :
  active_judge caps prev s changed is_starting move_list <> ActiveReturn None w.
Proof.
  unfold active_judge. cbv zeta.
  repeat match goal with
         | |- context [match ?x with _ => _ end] => destruct x eqn:?
         end; discriminate.
Qed.

Lemma step_none (max_wait : Z) (prev : option string) (skip : bool)
    (s : ActiveState) (o : ActiveObs) w :
  active_step caps max_wait prev skip s o = ActiveReturn None w ->
  (max_wait < ao_elapsed o)%Z.
Proof.
  unfold active_step.
  destruct (Z.ltb_spec max_wait (ao_elapsed o)) as [H|H]; [intros _; exact H|].
  destruct (ao_board o) as [[|]|[]]; try discriminate.
  destruct (ao_is_white o) as [[w0|]|[]]; try discriminate.
  match goal with
  | |- context [match ?m with Some s' => ActiveNext s' | None => _ end] =>
      destruct m; [discriminate|]
  end.
  destruct (ao_move_list o) as [[ml|]|[]]; try discriminate.
  intros E. exfalso. exact (judge_not_none _ _ _ _ _ _ E).
Qed.

Lemma loop_none (max_wait : Z) (prev : option string) (skip : bool)
    (obs : list ActiveObs) : forall s w,
  active_loop caps max_wait prev skip s obs = ActiveDone None w ->
  exists o, In o obs /\ (max_wait < ao_elapsed o)%Z.
Proof.
  induction obs as [|o obs IH]; intros s w; simpl; [discriminate|].
  destruct (active_step caps max_wait prev skip s o) as [s'|r w'|e] eqn:E;
    try discriminate.
  - intros H. destruct (IH _ _ H) as (o' & Hin & Ht). exists o'. auto.
  - intros [= -> ->]. exists o. split; [left; reflexivity|].
    exact (step_none _ _ _ _ _ _ E).
Qed.

(** A session found replays its list of moves. *)
Lemma active_game_replays (max_wait : Z) (prev : option string) (skip : bool)
    (w : option bool) (obs : list ActiveObs) b ml w' :
  _wait_for_active_game caps w max_wait prev skip obs = ActiveDone (Some (b, ml)) w' ->
  _try_build_board_from_moves ml = Some b.
Proof.
  unfold _wait_for_active_game. intros H. apply loop_return in H.
  destruct H as [(-> & ->)|(_ & H & _)]; [reflexivity | exact H].
Qed.

Variable is_white : option bool.
Variables last_game_id previous_game_id : option string.
Variable skip_modal_check : bool.
Variable obs : list ActiveObs.
Variable game_id : Call (option string).
Variable eval : option (string * string * string * string * string).

Local Abbreviation session :=
  (_start_game_session caps is_white last_game_id previous_game_id
     skip_modal_check obs game_id eval).

(** X9.  A session start that finds no game has seen the clock pass its
    limit, 30 s on a first start and 60 s after a game, and has sent a
    runtime error and nothing else.  One that finds a game returns a board
    that replays the list returned, hence with as many moves as the list
    has tokens, and a window that receives what it has sent shows exactly
    this list, whatever it showed before (for tokens without comma and a
    list that is not the single empty token). *)
Theorem session_start_outcomes (g : Supervisor.Window) :
  (forall w, snd session = SessionNone w ->
     messages (fst session) = [err_timed_out]
     /\ exists o, In o obs
          /\ (match previous_game_id with Some _ => 60000 | None => 30000 end
              < ao_elapsed o)%Z)
  /\ (forall b ml w id, snd session = SessionStarted b ml w id ->
        _try_build_board_from_moves ml = Some b
        /\ List.length (move_stack b) = List.length ml
        /\ (Forall (fun tok => PyText.contains "," tok = false) ml ->
            ml <> [""] ->
            window_shows (fst (Supervisor.receive g (messages (fst session)))) ml)).
Proof.
  unfold _start_game_session.
  destruct (_wait_for_active_game caps is_white
              match previous_game_id with Some _ => 60000%Z | None => 30000%Z end
              previous_game_id skip_modal_check obs)
    as [[[b0 ml0]|] w0|e|s] eqn:E; cbn [fst snd]; split; try discriminate.
  - intros b ml w id [= <- <- <- <-].
    pose proof (active_game_replays _ _ _ _ _ _ _ _ E) as Hb.
    split; [exact Hb|]. split.
    + unfold _try_build_board_from_moves in Hb. apply replay_stack in Hb.
      rewrite move_stack_start in Hb. exact Hb.
    + intros Hl Hne.
      rewrite !messages_app.
      replace (messages (if has_get_current_game_id caps
                         then [ActGetCurrentGameId] else [])) with (@nil string)
        by (destruct (has_get_current_game_id caps); reflexivity).
      cbn [app]. change (messages [Ev (EvSetPosition ?x)]) with (@nil string).
      cbn [app]. rewrite receive_eval_data.
      change (messages [Ev (EvPipeSend "START")]) with ["START"%string].
      cbn [app]. rewrite receive_cons.
      destruct (receive_START g) as (Hs & _).
      destruct ml0 as [|tok rest].
      * exact Hs.
      * change (messages [Ev (EvPipeSend ?m)]) with [m].
        rewrite receive_cons. apply receive_move_list; assumption.
  - intros w [= <-]. split; [reflexivity|].
    unfold _wait_for_active_game in E. apply loop_none in E. exact E.
Qed.

End SessionFacts.

Section RenewFacts.

Context `{C : Chess}.

(** X10.  The branch taken when the move list has shrunk.  When the
    list of moves or the colour cannot be read, the branch ends with the
    exception and has sent nothing.  When both are read, it sends
    [RESTART] and nothing more until [DELETE] is received.  When it goes
    on, both were read and [DELETE] was received; the game it goes on with
    has the colour read and a board that replays its list of moves: the
    list read after the reset when it replays, the empty list and the
    starting board when it does not or when no list was read; the counter
    of parse failures is the one before; and a window that receives what
    was sent shows this list (for tokens without comma and a list that is
    not the single empty token). *)
Theorem new_game_branch_outcomes (g : Game) (fresh : Call (option (list string)))
    (white : Call (option bool))
    (eval : option (string * string * string * string * string))
    (inbox : list (Call string)) (win : Supervisor.Window) :
  let r := new_game_branch g fresh white eval inbox in
  (forall e, fresh = Raises e ->
     r = ([Ev EvResetMovesList; Ev EvGetMoveList], RenewedRaised e))
  /\ (forall l e, fresh = Returns l -> white = Raises e ->
        snd r = RenewedRaised e /\ messages (fst r) = []
        /\ exists before, fst r = before ++ [Ev EvIsWhite])
  /\ (forall l w, fresh = Returns l -> white = Returns w ->
        (forall g', snd r <> RenewedGame g') ->
        messages (fst r) = ["RESTART"%string])
  /\ (forall g', snd r = RenewedGame g' ->
        (exists discarded rest,
           wait_for_gui_to_delete inbox = DeleteReceived discarded rest)
        /\ white = Returns (g_is_white g')
        /\ (exists l, fresh = Returns l)
        /\ _try_build_board_from_moves (g_move_list g') = Some (g_board g')
        /\ consistent g'
        /\ g_parse_error_count g' = g_parse_error_count g
        /\ (fresh = Returns None ->
            g_move_list g' = [] /\ g_board g' = start_board)
        /\ (forall l, fresh = Returns (Some l) ->
              match _try_build_board_from_moves l with
              | Some _ => g_move_list g' = l
              | None => g_move_list g' = [] /\ g_board g' = start_board
              end)
        /\ (Forall (fun tok => PyText.contains "," tok = false) (g_move_list g') ->
            g_move_list g' <> [""] ->
            window_shows (fst (Supervisor.receive win (messages (fst r))))
                         (g_move_list g'))).
Proof.
  cbv zeta. unfold new_game_branch.
  destruct fresh as [fr|e0].
  2:{ split; [intros e [= <-]; reflexivity|].
      split; [intros l e H; discriminate H|].
      split; [intros l w H; discriminate H|].
      cbn [snd]. intros g' H. discriminate H. }
  set (l0 := match fr with Some l => l | None => [] end).
  assert (Hpair : exists ml b,
    match _try_build_board_from_moves l0 with
    | Some board => (l0, board)
    | None => ([], start_board)
    end = (ml, b)
    /\ _try_build_board_from_moves ml = Some b
    /\ match _try_build_board_from_moves l0 with
       | Some _ => ml = l0
       | None => ml = [] /\ b = start_board
       end).
  { destruct (_try_build_board_from_moves l0) as [bd|] eqn:E.
    - exists l0, bd. rewrite E. auto.
    - exists [], start_board. auto. }
  destruct Hpair as (ml & b & -> & Hb & Hcase).
  split; [intros e H; discriminate H|].
  destruct white as [wh|e1].
  2:{ split.
      - intros l e _ [= <-]. cbn [fst snd]. split; [reflexivity|].
        split; [reflexivity|].
        exists [Ev EvResetMovesList; Ev EvGetMoveList;
                Ev (EvSetPosition (map uci (move_stack b)))]. reflexivity.
      - split; [intros l w _ H; discriminate H|].
        cbn [snd]. intros g' H. discriminate H. }
  split; [intros l e _ H; discriminate H|].
  destruct (wait_for_gui_to_delete inbox) as [d rest|d|d e] eqn:W; cbn [fst snd].
  - split.
    + intros l w _ _ H. exfalso.
      apply (H {| g_board := b; g_move_list := ml; g_is_white := wh;
                  g_parse_error_count := g_parse_error_count g |}).
      reflexivity.
    + intros g' [= <-]. cbn [g_board g_move_list g_is_white g_parse_error_count].
      split; [exists d, rest; reflexivity|].
      split; [reflexivity|]. split; [exists fr; reflexivity|].
      split; [exact Hb|]. split.
      * unfold consistent. cbn [g_board g_move_list].
        unfold _try_build_board_from_moves in Hb. apply replay_stack in Hb.
        rewrite move_stack_start in Hb. exact Hb.
      * split; [reflexivity|]. split; [|split].
        -- intros [= ->]. subst l0. revert Hcase Hb.
           unfold _try_build_board_from_moves. cbn [replay].
           intros -> [= <-]. auto.
        -- intros l [= ->]. exact Hcase.
        -- intros Hl Hne. rewrite !messages_app.
           change (messages [Ev EvResetMovesList; Ev EvGetMoveList;
                             Ev (EvSetPosition (map uci (move_stack b)));
                             Ev EvIsWhite])
             with (@nil string).
           change (messages [Ev (EvPipeSend "RESTART")]) with ["RESTART"%string].
           cbn [app]. rewrite receive_cons.
           change (fst (Supervisor.slots win (Supervisor._handle_message "RESTART")))
             with win.
           rewrite receive_eval_data.
           change (messages [Ev (EvPipeSend "START")]) with ["START"%string].
           cbn [app]. rewrite receive_cons.
           destruct (receive_START win) as (Hs & _).
           destruct ml as [|tok rest'].
           ++ exact Hs.
           ++ change (messages [Ev (EvPipeSend ?m)]) with [m].
              rewrite receive_cons. apply receive_move_list; assumption.
  - split; [intros; reflexivity | discriminate].
  - split; [intros; reflexivity | discriminate].
Qed.

End RenewFacts.

(** ** Boards and move lists stay in step *)

Section StepFacts.

Context `{C : Chess}.

Variable caps : Caps.

Lemma attempts_success_white (e : option nat) (env : nat -> ResyncObs)
    (w : option bool) (n : nat) : forall k b ml,
  rr_result (resync_attempts caps e env w n k) = ResyncReturn (Some (b, ml)) ->
  exists i t,
    resync_attempt caps e w (env i)
    = (Accept b ml (rr_is_white (resync_attempts caps e env w n k)), t).
Proof.
  induction n as [|n IH]; intros k b ml; simpl; [discriminate|].
  destruct (resync_attempt caps e w (env k)) as [[|b0 ml0 w0|ex] t] eqn:E; simpl.
  - intros H. exact (IH _ _ _ H).
  - intros [= <- <-]. exists k, t. exact E.
  - discriminate.
Qed.

(** X11.  A board and a list returned by a resync are in step: the board
    holds as many moves as the list has tokens.  With an expected count of
    moves [k], the list has at most [k + 2] tokens when [k <= 2] and
    [k + 4] otherwise.  And a resync that returns a list with a token in
    it has left [self.is_white] as it was. *)
Theorem resync_result_in_step (env : nat -> ResyncObs) (w : option bool)
    (reason : string) (e : option nat) (max_attempts : nat)
    (b : Board) (ml : list string) :
  rr_result (_resync_move_list_state caps env w reason e max_attempts)
  = ResyncReturn (Some (b, ml)) ->
  List.length (move_stack b) = List.length ml
  /\ (forall k, e = Some k ->
        List.length ml <= k + (if k <=? 2 then 2 else 4))
  /\ (ml <> [] ->
      rr_is_white (_resync_move_list_state caps env w reason e max_attempts) = w).
Proof.
  unfold _resync_move_list_state. cbn [rr_result rr_is_white]. intros H.
  destruct (attempts_success_white _ _ _ _ _ _ _ H) as (i & t & Ha).
  pose proof Ha as Hw.
  destruct (attempt_accept _ _ _ _ _ _ _ _ Ha) as (fresh & v & _ & _ & Hlong & _ & H5).
  assert (Hb : _try_build_board_from_moves ml = Some b).
  { destruct (truthy v); destruct H5 as [-> H5]; [subst; reflexivity | exact H5]. }
  split; [|split].
  - unfold _try_build_board_from_moves in Hb. apply replay_stack in Hb.
    rewrite move_stack_start in Hb. exact Hb.
  - intros k ->. unfold too_long, max_allowed in Hlong. apply Nat.ltb_ge in Hlong.
    destruct (truthy v); destruct H5 as [-> _]; simpl; lia.
  - intros Hne. revert Hw. unfold resync_attempt.
    repeat match goal with
           | |- context [match ?x with _ => _ end] => destruct x eqn:?
           end; intros [= ? ? ? ?]; subst; congruence.
Qed.

Lemma last_of_longer_by_one (new : list string) (n : nat) (tok : string) :
  List.length new = n + 1 ->
  nth_error new n = Some tok ->
  last (map Some new) None = Some tok.
Proof.
  intros Hlen Hn.
  rewrite <- (firstn_skipn n new) in Hn |- *.
  rewrite nth_error_app2 in Hn by (rewrite length_firstn; lia).
  rewrite length_firstn in Hn.
  replace (n - Nat.min n (List.length new)) with 0 in Hn by lia.
  pose proof (length_skipn n new) as Hs.
  destruct (skipn n new) as [|x [|y l]]; simpl in *; try lia; try discriminate.
  injection Hn as ->. rewrite map_app. cbn [map]. apply last_last.
Qed.

Variable enable_non_stop_matches : bool.

(** X12.  The opponent's turn keeps the board and the list in step.  From
    a game where they are, a turn of the wait that accepts a list has a
    list one token longer than before, the move parsed from its last token
    is pushed on the board, and board and list are in step again; and the
    state installed by a resync during the wait is in step too. *)
Theorem opponent_turn_in_step (g : Game) (o : PollObs) :
  consistent g ->
  match fst (opponent_poll caps enable_non_stop_matches g (g_move_list g) o) with
  | PollAdvanced new_move_list =>
      List.length new_move_list = List.length (g_move_list g) + 1
      /\ forall env game_over,
           exists m g',
             opponent_parse caps enable_non_stop_matches
               (advanced g new_move_list) env game_over
             = (Proceed (m, g'), [])
             /\ g_board g' = push (g_board g) m
             /\ g_move_list g' = new_move_list
             /\ consistent g'
  | PollResynced board move_list _ =>
      List.length (move_stack board) = List.length move_list
  | PollAgain | PollReturn | PollRestart | PollNewGame | PollRaised _ => True
  end.
Proof.
  intros Hg. unfold opponent_poll.
  destruct (po_game_over o); [destruct enable_non_stop_matches; exact I|].
  destruct (po_move_list o) as [new|]; [|exact I].
  destruct (move_list_has_result new);
    [destruct enable_non_stop_matches; exact I|].
  destruct (Nat.ltb_spec (List.length new) (List.length (g_move_list g)))
    as [H1|H1]; [exact I|].
  destruct (Nat.ltb_spec (List.length (g_move_list g) + 1) (List.length new))
    as [H2|H2].
  - set (r := _resync_move_list_state caps (po_resync o) (g_is_white g) _ _ _).
    pose proof (fun b ml => resync_result_replays caps (po_resync o) (g_is_white g)
                  "move list jumped"
                  (Some (List.length (move_stack (g_board g)) + 1))
                  default_max_attempts b ml) as Hbuild.
    fold r in Hbuild. clearbody r.
    destruct (rr_result r) as [[[board ml]|]|e]; cbn [fst]; try exact I.
    specialize (Hbuild board ml eq_refl).
    unfold _try_build_board_from_moves in Hbuild. apply replay_stack in Hbuild.
    rewrite move_stack_start in Hbuild. exact Hbuild.
  - destruct (Nat.ltb_spec (List.length (g_move_list g)) (List.length new))
      as [H3|H3]; [|exact I].
    destruct (nth_error new (List.length (g_move_list g))) as [tok|] eqn:Hn;
      [|apply nth_error_None in Hn; lia].
    destruct (_is_san_legal (g_board g) (Some tok)) eqn:Hlegal; [|exact I].
    cbn [fst]. split; [lia|]. intros env game_over.
    unfold _is_san_legal in Hlegal.
    destruct (String.eqb tok ""); [discriminate|].
    destruct (parse_san (g_board g) (_sanitize_san tok)) as [m|] eqn:Hp; [|discriminate].
    unfold opponent_parse, advanced. cbn [rebuilt g_move_list g_board].
    rewrite (last_of_longer_by_one new (List.length (g_move_list g)) tok)
      by (try lia; exact Hn).
    rewrite Hp. eexists. eexists. split; [reflexivity|].
    cbn [rebuilt g_move_list g_board]. split; [reflexivity|].
    split; [reflexivity|].
    unfold consistent in *. cbn [rebuilt g_move_list g_board].
    rewrite move_stack_push, length_app. simpl. lia.
Qed.

End StepFacts.

(** ** Squares of the page and of the screen *)

Lemma str_nat_digit (n : nat) :
  n <= 9 ->
  PyText.str_nat n = String (ascii_of_nat (48 + n)) ""
  /\ int_of_char (ascii_of_nat (48 + n)) = Some n.
Proof.
  intros H. do 10 (destruct n as [|n]; [split; reflexivity|]). lia.
Qed.

Lemma int_of_char_code (c : ascii) (n : nat) :
  int_of_char c = Some n -> n <= 9 /\ c = ascii_of_nat (48 + n).
Proof.
  unfold int_of_char.
  destruct (Nat.leb_spec 48 (nat_of_ascii c)) as [H1|H1]; [|discriminate].
  destruct (Nat.leb_spec (nat_of_ascii c) 57) as [H2|H2]; [|discriminate].
  cbn [andb]. intros [= <-]. split; [lia|].
  replace (48 + (nat_of_ascii c - 48)) with (nat_of_ascii c) by lia.
  symmetry. apply ascii_nat_embedding.
Qed.

Lemma char_to_num_file (f : nat) :
  1 <= f <= 8 ->
  char_to_num (ascii_of_nat (nat_of_ascii "a" + f - 1)) = Z.of_nat f.
Proof.
  intros H. unfold char_to_num. rewrite nat_ascii_embedding by (simpl; lia).
  simpl nat_of_ascii. lia.
Qed.

(** X13.  [_square_id_to_coord] returns a coordinate exactly for an id
    that begins with two digits from 1 to 8, whatever follows them; the
    coordinate has two characters, a file letter that [char_to_num] maps
    back to the first digit and a rank digit equal to the second. *)
Theorem square_id_to_coord_round_trip (square_id coord : string) :
  Board._square_id_to_coord square_id = Some coord <->
  exists c0 c1 rest f r,
    square_id = String c0 (String c1 rest)
    /\ int_of_char c0 = Some f /\ int_of_char c1 = Some r
    /\ 1 <= f <= 8 /\ 1 <= r <= 8
    /\ coord = String (ascii_of_nat (nat_of_ascii "a" + f - 1)) (String c1 "")
    /\ char_to_num (ascii_of_nat (nat_of_ascii "a" + f - 1)) = Z.of_nat f.
Proof.
  unfold Board._square_id_to_coord. split.
  - destruct square_id as [|c0 [|c1 rest]]; try discriminate.
    destruct (int_of_char c0) as [f|] eqn:E0; [|discriminate].
    destruct (int_of_char c1) as [r|] eqn:E1; [|discriminate].
    destruct (Nat.ltb_spec f 1); [discriminate|].
    destruct (Nat.ltb_spec 8 f); [discriminate|].
    destruct (Nat.ltb_spec r 1); [discriminate|].
    destruct (Nat.ltb_spec 8 r); [discriminate|].
    cbn [orb]. intros [= <-].
    exists c0, c1, rest, f, r.
    destruct (int_of_char_code _ _ E1) as (Hr & ->).
    destruct (str_nat_digit r Hr) as (-> & _).
    repeat split; auto; try lia. apply char_to_num_file. lia.
  - intros (c0 & c1 & rest & f & r & -> & E0 & E1 & Hf & Hr & -> & _).
    rewrite E0, E1.
    replace (f <? 1) with false by (symmetry; apply Nat.ltb_ge; lia).
    replace (8 <? f) with false by (symmetry; apply Nat.ltb_ge; lia).
    replace (r <? 1) with false by (symmetry; apply Nat.ltb_ge; lia).
    replace (8 <? r) with false by (symmetry; apply Nat.ltb_ge; lia).
    cbn [orb].
    destruct (int_of_char_code _ _ E1) as (Hr9 & ->).
    destruct (str_nat_digit r Hr9) as (-> & _). reflexivity.
Qed.

Section StartingFacts.

Import Board.

Lemma dict_get_In (d : list (string * string)) (k v : string) :
  dict_get d k = Some v -> In k (map fst d).
Proof.
  induction d as [|[k' v'] d IH]; simpl; [discriminate|].
  destruct (String.eqb_spec k k') as [->|Hne]; [auto|].
  intros H. right. exact (IH H).
Qed.

Lemma expected_squares_differ : NoDup (map fst expected).
Proof.
  assert (H : nodup string_dec (map fst expected) = map fst expected)
    by (vm_compute; reflexivity).
  rewrite <- H. apply NoDup_nodup.
Qed.

(** Whether [found] has every starting piece on its square. *)
Lemma all_expected_spec (found : list (string * string)) :
  forallb (fun kv => match dict_get found (fst kv) with
                     | Some piece => String.eqb piece (snd kv)
                     | None => false
                     end) expected = true
  <-> forall sq pc, In (sq, pc) expected -> dict_get found sq = Some pc.
Proof.
  rewrite forallb_forall. split.
  - intros H sq pc Hin. specialize (H (sq, pc) Hin). cbn [fst snd] in H.
    destruct (dict_get found sq) as [p|]; [|discriminate].
    apply String.eqb_eq in H. congruence.
  - intros H [sq pc] Hin. cbn [fst snd]. rewrite (H sq pc Hin).
    apply String.eqb_refl.
Qed.

Lemma all_expected_length (found : list (string * string)) :
  (forall sq pc, In (sq, pc) expected -> dict_get found sq = Some pc) ->
  List.length expected <= List.length found.
Proof.
  intros H.
  rewrite <- (length_map fst expected), <- (length_map fst found).
  apply NoDup_incl_length; [apply expected_squares_differ|].
  intros sq Hin. apply in_map_iff in Hin. destruct Hin as ([sq' pc] & <- & Hin).
  apply (dict_get_In found sq' pc). apply H. exact Hin.
Qed.

(** X14.  When the classes of every piece can be read, and there is a
    piece, [is_starting_position] answers [True] exactly when each of the 32
    starting squares is noted with its starting piece, and [False]
    otherwise: pieces noted on other squares change nothing, and the
    comparison of the counts never decides. *)
Theorem starting_position_answer (p : Call (list string))
    (ps : list (Call (list string))) (found : list (string * string)) :
  note_pieces [] (p :: ps) = Returns found ->
  (is_starting_position (Some (p :: ps)) = Returns (Some true) <->
   forall sq pc, In (sq, pc) expected -> dict_get found sq = Some pc)
  /\ (is_starting_position (Some (p :: ps)) = Returns (Some true)
      \/ is_starting_position (Some (p :: ps)) = Returns (Some false)).
Proof.
  intros Hfound. unfold is_starting_position. rewrite Hfound.
  pose proof (all_expected_spec found) as Hspec.
  pose proof (all_expected_length found) as Hlen.
  destruct (Nat.ltb_spec (List.length found) (List.length expected)) as [Hlt|Hge].
  - split; [|right; reflexivity]. split; [discriminate|].
    intros H. apply Hlen in H. lia.
  - destruct (forallb _ expected) eqn:E.
    + split; [|left; reflexivity]. split; [intros _; apply Hspec; reflexivity|].
      reflexivity.
    + split; [|right; reflexivity]. split; [discriminate|].
      intros H. apply Hspec in H. discriminate.
Qed.

End StartingFacts.

(** ** Playing a move with the mouse *)

Lemma promotion_offset_range (p : ascii) (offset : Z) :
  promotion_offset p = Some offset -> (0 <= offset <= 3)%Z.
Proof.
  unfold promotion_offset.
  repeat match goal with
         | |- context [if ?b then _ else _] => destruct b
         end; intros [= <-]; lia.
Qed.

(** A square of two characters whose rank is a digit from 1 to 8. *)
Lemma on_board_square (file : ascii) (n : nat) :
  1 <= n <= 8 ->
  exists rank, String file (PyText.str_nat n) = String file (String rank "")
               /\ int_of_char rank = Some n.
Proof.
  intros H. destruct (str_nat_digit n) as (-> & Hd); [lia|].
  eexists. split; [reflexivity | exact Hd].
Qed.

(** X15.  A promotion is completed by one click on a square of the board:
    after the drag, for a move of five characters whose last names a queen,
    rook, bishop or knight (in either case), the mouse goes to the file of
    the arrival square, at a rank from 1 to 8, and clicks.  Playing White
    and arriving on rank 8, the rank clicked is 8, 7, 6 or 5; otherwise,
    arriving on rank 1, it is 1, 2, 3 or 4. *)
Theorem promotion_click_on_board (is_white : option bool) (mouse_latency : Z)
    (s0 s1 f r p : ascii) (offset : Z) (n : nat) :
  on_screen (String s0 (String s1 "")) = true ->
  int_of_char r = Some n ->
  1 <= n <= 8 ->
  promotion_offset (PyStr.lower_char p) = Some offset ->
  exists rank k,
    make_move is_white mouse_latency
      (String s0 (String s1 (String f (String r (String p "")))))
    = Returns [ActMoveTo (String s0 (String s1 "")); Ev (EvSleep mouse_latency);
               ActDragTo (String f (String r "")); Ev (EvSleep 100);
               ActMoveTo (String f (String rank "")); ActClick]
    /\ int_of_char rank = Some k /\ 1 <= k <= 8
    /\ (is_white = Some true -> n = 8 -> Z.of_nat k = (8 - offset)%Z)
    /\ (is_white <> Some true -> n = 1 -> Z.of_nat k = (1 + offset)%Z).
Proof.
  intros Hsrc Hr Hn Hoff.
  pose proof (promotion_offset_range _ _ Hoff) as Hrange.
  unfold make_move.
  change (slice 0 2 (String s0 (String s1 (String f (String r (String p ""))))))
    with (String s0 (String s1 "")).
  change (slice 2 4 (String s0 (String s1 (String f (String r (String p ""))))))
    with (String f (String r "")).
  rewrite Hsrc. unfold on_screen at 1. rewrite Hr. cbn [andb negb].
  change (String.length (String s0 (String s1 (String f (String r (String p "")))))
          =? 5) with true.
  cbv iota.
  change (String.get 4 (String s0 (String s1 (String f (String r (String p ""))))))
    with (Some p).
  change (String.get 3 (String s0 (String s1 (String f (String r (String p ""))))))
    with (Some r).
  change (String.get 2 (String s0 (String s1 (String f (String r (String p ""))))))
    with (Some f).
  cbv iota. rewrite Hoff, Hr. cbv zeta.
  set (direction := match is_white with Some true => (-1)%Z | _ => 1%Z end).
  destruct ((1 <=? Z.of_nat n + direction * offset)%Z
            && (Z.of_nat n + direction * offset <=? 8)%Z) eqn:Hin.
  - apply andb_true_iff in Hin. destruct Hin as (H1 & H2).
    apply Z.leb_le in H1. apply Z.leb_le in H2.
    destruct (on_board_square f (Z.to_nat (Z.of_nat n + direction * offset)))
      as (rank & -> & Hrank); [lia|].
    exists rank, (Z.to_nat (Z.of_nat n + direction * offset)).
    split; [reflexivity|]. split; [exact Hrank|]. split; [lia|]. split.
    + intros -> ->. unfold direction. lia.
    + intros Hw ->. unfold direction.
      destruct is_white as [[|]|]; try congruence; lia.
  - exists r, n. split; [reflexivity|]. split; [exact Hr|]. split; [exact Hn|].
    apply andb_false_iff in Hin. split.
    + intros -> ->. unfold direction in Hin.
      destruct Hin as [H|H]; [apply Z.leb_gt in H | apply Z.leb_gt in H]; lia.
    + intros Hw ->. unfold direction in Hin.
      destruct is_white as [[|]|]; try congruence;
        (destruct Hin as [H|H]; [apply Z.leb_gt in H | apply Z.leb_gt in H]; lia).
Qed.

(** ** Notations that differ by their marks *)

Section NotationFacts.

Import PyStr.

Lemma chars_app (a b : string) :
  list_ascii_of_string (a ++ b) = list_ascii_of_string a ++ list_ascii_of_string b.
Proof. induction a as [|c a IH]; simpl; [reflexivity | rewrite IH; reflexivity]. Qed.

Lemma lstrip_by_mid (p : ascii -> bool) (c : ascii) (l v : chars) :
  p c = false -> lstrip_by p (l ++ c :: v) = lstrip_by p l ++ c :: v.
Proof.
  intros Hc. induction l as [|x l IH]; simpl.
  - rewrite Hc. reflexivity.
  - destruct (p x); [exact IH | reflexivity].
Qed.

Lemma lstrip_by_all (p : ascii -> bool) (u l : chars) :
  Forall (fun c => p c = true) u -> lstrip_by p (u ++ l) = lstrip_by p l.
Proof.
  induction 1 as [|c u Hc _ IH]; simpl; [reflexivity|]. rewrite Hc. exact IH.
Qed.

Lemma rstrip_by_all (p : ascii -> bool) (l u : chars) :
  Forall (fun c => p c = true) u -> rstrip_by p (l ++ u) = rstrip_by p l.
Proof.
  intros H. unfold rstrip_by. rewrite rev_app_distr.
  rewrite lstrip_by_all; [reflexivity|]. apply Forall_rev. exact H.
Qed.

(** Nothing is stripped on the right of a text that ends with characters
    that are kept. *)
Lemma rstrip_by_kept (p : ascii -> bool) (l : chars) (c : ascii) (u : chars) :
  p c = false -> Forall (fun d => p d = false) u ->
  rstrip_by p (l ++ c :: u) = l ++ c :: u.
Proof.
  intros Hc Hu. unfold rstrip_by.
  assert (H : lstrip_by p (rev (l ++ c :: u)) = rev (l ++ c :: u)).
  { rewrite rev_app_distr.
    assert (Hall : Forall (fun d => p d = false) (rev (c :: u)))
      by (apply Forall_rev; constructor; assumption).
    destruct (rev (c :: u)) as [|h t] eqn:E.
    - apply (f_equal (@List.length ascii)) in E. rewrite length_rev in E.
      discriminate.
    - inversion Hall as [|? ? Hh _]; subst. simpl. rewrite Hh. reflexivity. }
  rewrite H. apply rev_involutive.
Qed.

Lemma lstrip_by_length (p : ascii -> bool) (q : chars) :
  List.length (lstrip_by p q) <= List.length q.
Proof. induction q as [|x q IH]; simpl; [lia|]. destruct (p x); simpl; lia. Qed.

(** A text that [rstrip_by] leaves as it is, is empty or ends with a
    character that is kept. *)
Lemma rstrip_by_fixed (p : ascii -> bool) (l : chars) :
  rstrip_by p l = l -> l = [] \/ exists l' c, l = l' ++ [c] /\ p c = false.
Proof.
  destruct (rev l) as [|c r] eqn:E.
  - intros _. left. apply (f_equal (@rev ascii)) in E.
    rewrite rev_involutive in E. exact E.
  - intros H. right. exists (rev r), c.
    assert (Hl : l = rev r ++ [c]).
    { apply (f_equal (@rev ascii)) in E. rewrite rev_involutive in E. exact E. }
    split; [exact Hl|].
    destruct (p c) eqn:Hc; [|reflexivity]. exfalso.
    unfold rstrip_by in H. rewrite E in H. simpl in H. rewrite Hc in H.
    apply (f_equal (@List.length ascii)) in H.
    rewrite length_rev, Hl, length_app, length_rev in H. simpl in H.
    pose proof (lstrip_by_length p r). lia.
Qed.

Section Replace.

Variables old new : chars.
Hypothesis old_not_empty : old <> [].

Lemma starts_with_tail (u o : chars) : forall a rest,
  starts_with o a = Some rest -> starts_with o (a ++ u) = Some (rest ++ u).
Proof.
  induction o as [|x o IH]; intros a rest; simpl.
  - intros [= <-]. reflexivity.
  - destruct a as [|y a]; [discriminate|]. simpl.
    destruct (Ascii.eqb x y); [apply IH | discriminate].
Qed.

Lemma starts_with_length (o : chars) : forall a rest,
  starts_with o a = Some rest -> List.length a = List.length o + List.length rest.
Proof.
  induction o as [|x o IH]; intros a rest; simpl.
  - intros [= <-]. reflexivity.
  - destruct a as [|y a]; [discriminate|]. simpl.
    destruct (Ascii.eqb x y); [|discriminate]. intros H. rewrite (IH _ _ H). reflexivity.
Qed.

Lemma starts_with_none (u o : chars) : forall a,
  Forall (fun c => existsb (Ascii.eqb c) o = false) u ->
  starts_with o a = None -> starts_with o (a ++ u) = None.
Proof.
  induction o as [|x o IH]; intros a Hu; simpl; [discriminate|].
  destruct a as [|y a]; simpl.
  - intros _. destruct u as [|z w]; [reflexivity|].
    inversion Hu as [|? ? Hz _]; subst. simpl in Hz.
    apply orb_false_iff in Hz. destruct Hz as (Hz & _).
    rewrite Ascii.eqb_sym, Hz. reflexivity.
  - destruct (Ascii.eqb x y); [|reflexivity].
    apply IH. eapply Forall_impl; [|exact Hu].
    intros c Hc. simpl in Hc. apply orb_false_iff in Hc. tauto.
Qed.

Lemma replace_aux_nil (m : nat) : replace_aux m old new [] = [].
Proof. destruct m; reflexivity. Qed.

Lemma replace_aux_apart (u : chars) :
  Forall (fun c => existsb (Ascii.eqb c) old = false) u ->
  forall m, replace_aux m old new u = u.
Proof.
  induction 1 as [|c w Hc Hw IH]; intros m; [apply replace_aux_nil|].
  destruct m as [|m]; [reflexivity|].
  assert (Hs : starts_with old (c :: w) = None).
  { apply (starts_with_none (c :: w) old []).
    - constructor; assumption.
    - destruct old; [congruence | reflexivity]. }
  cbn [replace_aux]. rewrite Hs, IH. reflexivity.
Qed.

Lemma replace_aux_app (u : chars) :
  Forall (fun c => existsb (Ascii.eqb c) old = false) u ->
  forall n a m m',
    List.length a <= n -> List.length a <= m -> List.length a <= m' ->
    replace_aux m' old new (a ++ u) = replace_aux m old new a ++ u.
Proof.
  intros Hu. induction n as [|n IH]; intros a m m' Hn Hm Hm'.
  - destruct a; [|simpl in Hn; lia]. simpl.
    rewrite replace_aux_apart, replace_aux_nil by exact Hu. reflexivity.
  - destruct a as [|c r].
    + simpl. rewrite replace_aux_apart, replace_aux_nil by exact Hu. reflexivity.
    + destruct m as [|m]; [simpl in Hm; lia|].
      destruct m' as [|m']; [simpl in Hm'; lia|].
      cbn [app replace_aux].
      destruct (starts_with old (c :: r)) as [rest|] eqn:E.
      * change (c :: r ++ u) with ((c :: r) ++ u).
        rewrite (starts_with_tail u _ _ _ E).
        pose proof (starts_with_length _ _ _ E) as Hlen.
        assert (0 < List.length old) by (destruct old; [congruence | simpl; lia]).
        simpl in Hlen, Hn, Hm, Hm'.
        rewrite (IH rest m m') by lia. rewrite <- app_assoc. reflexivity.
      * change (c :: r ++ u) with ((c :: r) ++ u).
        rewrite (starts_with_none u _ _ Hu E).
        simpl in Hn, Hm, Hm'.
        rewrite (IH r m m') by lia. reflexivity.
Qed.

End Replace.

Lemma replace_tail (old new s marks : string) :
  old <> "" ->
  Forall (fun c => existsb (Ascii.eqb c) (list_ascii_of_string old) = false)
         (list_ascii_of_string marks) ->
  replace old new (s ++ marks) = (replace old new s ++ marks)%string.
Proof.
  intros Hold Hm. unfold replace. cbv zeta. rewrite chars_app.
  assert (Hne : list_ascii_of_string old <> [])
    by (destruct old; [congruence | discriminate]).
  rewrite (replace_aux_app (list_ascii_of_string old) (list_ascii_of_string new)
             Hne _ Hm (List.length (list_ascii_of_string s))
             (list_ascii_of_string s) (List.length (list_ascii_of_string s)))
    by (rewrite ?length_app; lia).
  generalize (replace_aux (List.length (list_ascii_of_string s))
                (list_ascii_of_string old) (list_ascii_of_string new)
                (list_ascii_of_string s)).
  intros l. induction l as [|c l IH]; simpl;
    [apply string_of_list_ascii_of_string|].
  rewrite IH. reflexivity.
Qed.

End NotationFacts.

Section MarksFacts.

Import PyStr.

Lemma string_of_chars_app (a b : chars) :
  string_of_list_ascii (a ++ b)
  = (string_of_list_ascii a ++ string_of_list_ascii b)%string.
Proof. induction a as [|c a IH]; simpl; [reflexivity | rewrite IH; reflexivity]. Qed.

(** A mark is no space, and no character of a castling. *)
Lemma mark_apart (c : ascii) :
  mem_char c "+#!?" = true ->
  is_space c = false
  /\ existsb (Ascii.eqb c) (list_ascii_of_string "0-0-0") = false
  /\ existsb (Ascii.eqb c) (list_ascii_of_string "0-0") = false.
Proof.
  unfold mem_char. simpl.
  destruct (Ascii.eqb_spec c "+") as [->|_]; [intros _; repeat split|].
  destruct (Ascii.eqb_spec c "#") as [->|_]; [intros _; repeat split|].
  destruct (Ascii.eqb_spec c "!") as [->|_]; [intros _; repeat split|].
  destruct (Ascii.eqb_spec c "?") as [->|_]; [intros _; repeat split|].
  discriminate.
Qed.

Variables san marks : string.
Hypothesis only_marks :
  Forall (fun c => mem_char c "+#!?" = true) (list_ascii_of_string marks).
Hypothesis no_space_at_end :
  rstrip_by is_space (list_ascii_of_string san) = list_ascii_of_string san.

Lemma strip_tail : strip (san ++ marks) = (strip san ++ marks)%string.
Proof.
  assert (Hsp : Forall (fun d => is_space d = false) (list_ascii_of_string marks)).
  { eapply Forall_impl; [|exact only_marks]. intros c Hc. apply (mark_apart c Hc). }
  unfold strip. rewrite chars_app.
  destruct (rstrip_by_fixed _ _ no_space_at_end) as [E|(l' & c & E & Hc)]; rewrite E.
  - cbn [app lstrip_by]. unfold rstrip_by at 2. cbn [rev lstrip_by string_of_list_ascii].
    destruct (list_ascii_of_string marks) as [|d u] eqn:Em.
    + destruct marks; [reflexivity | discriminate].
    + inversion Hsp as [|? ? Hd Hu]; subst.
      cbn [lstrip_by]. rewrite Hd.
      pose proof (rstrip_by_kept is_space [] d u Hd Hu) as K.
      cbn [app] in K. rewrite K.
      rewrite <- Em. rewrite string_of_list_ascii_of_string. reflexivity.
  - rewrite <- app_assoc. cbn [app].
    rewrite (lstrip_by_mid is_space c l' _ Hc).
    rewrite (rstrip_by_kept is_space _ c _ Hc Hsp).
    rewrite (lstrip_by_mid is_space c l' [] Hc).
    rewrite (rstrip_by_kept is_space _ c [] Hc (Forall_nil _)).
    replace (lstrip_by is_space l' ++ c :: list_ascii_of_string marks)
      with ((lstrip_by is_space l' ++ [c]) ++ list_ascii_of_string marks)
      by (rewrite <- app_assoc; reflexivity).
    rewrite string_of_chars_app, string_of_list_ascii_of_string. reflexivity.
Qed.

Lemma rstrip_marks_tail (x : string) :
  rstrip_chars "+#!?" (x ++ marks) = rstrip_chars "+#!?" x.
Proof.
  unfold rstrip_chars. rewrite chars_app, rstrip_by_all; [reflexivity|].
  exact only_marks.
Qed.

Lemma castling_tail (x : string) :
  replace "0-0" "O-O" (replace "0-0-0" "O-O-O" (x ++ marks))
  = (replace "0-0" "O-O" (replace "0-0-0" "O-O-O" x) ++ marks)%string.
Proof.
  rewrite replace_tail; [rewrite replace_tail; [reflexivity | discriminate |] | discriminate |];
    (eapply Forall_impl; [|exact only_marks]; intros c Hc; apply (mark_apart c Hc)).
Qed.

(** X16.  Trailing marks of check, mate and annotation do not count when
    two notations are compared: a notation that does not end with white
    space matches itself followed by any run of [+], [#], [!] and [?]. *)
Theorem san_matches_ignores_marks :
  _normalize_san (san ++ marks) = _normalize_san san
  /\ _san_matches san (san ++ marks) = true.
Proof.
  assert (H : _normalize_san (san ++ marks) = _normalize_san san).
  { unfold _normalize_san.
    assert (Hbody :
      lower (replace "=" "" (rstrip_chars "+#!?"
               (replace "0-0" "O-O" (replace "0-0-0" "O-O-O" (strip (san ++ marks))))))
      = lower (replace "=" "" (rstrip_chars "+#!?"
               (replace "0-0" "O-O" (replace "0-0-0" "O-O-O" (strip san)))))).
    { rewrite strip_tail, castling_tail, rstrip_marks_tail. reflexivity. }
    cbv zeta. rewrite Hbody.
    destruct san as [|c s]; [|reflexivity].
    destruct (String.eqb ("" ++ marks) ""); reflexivity. }
  split; [exact H|]. unfold _san_matches. rewrite H. apply String.eqb_refl.
Qed.

End MarksFacts.

(** ** The game as text *)

Section PgnFacts.

Import PyText Supervisor.

Variable moves : list string.

Local Abbreviation pgn_step :=
  (fun (pgn_parts : list string) (i : nat) =>
     if i + 1 <? List.length moves
     then pgn_parts ++ [str_nat (i / 2 + 1) ++ ". " ++ item moves i
                          ++ " " ++ item moves (i + 1)]%string
     else pgn_parts ++ [str_nat (i / 2 + 1) ++ ". " ++ item moves i]%string).

Lemma pgn_loop (m : nat) : forall a acc rest,
  skipn (2 * a) moves = rest ->
  m = (List.length rest + 1) / 2 ->
  fold_left pgn_step (map (fun k => 2 * k) (seq a m)) acc
  = acc ++ map row_text (paired a rest).
Proof.
  induction m as [|m IH]; intros a acc rest Hrest Hm.
  - symmetry in Hm. apply half_zero in Hm. destruct rest; [|discriminate].
    simpl. rewrite app_nil_r. reflexivity.
  - destruct rest as [|w r1]; [discriminate|].
    destruct (skipn_cons_nth _ _ _ _ "" Hrest) as (Hw & Hskip & Hlen).
    cbn [seq map fold_left]. unfold item. rewrite Hw.
    replace (2 * a / 2) with a
      by (rewrite Nat.mul_comm, Nat.div_mul; [reflexivity | discriminate]).
    destruct r1 as [|b r2].
    + replace (2 * a + 1 <? List.length moves) with false
        by (symmetry; apply Nat.ltb_ge; simpl in Hlen; lia).
      simpl in Hm. injection Hm as ->. reflexivity.
    + replace (2 * a + 1 <? List.length moves) with true
        by (symmetry; apply Nat.ltb_lt; simpl in Hlen; lia).
      replace (2 * a + 1) with (S (2 * a)) by lia.
      destruct (skipn_cons_nth _ _ _ _ "" Hskip) as (Hb & Hskip2 & _).
      rewrite Hb.
      rewrite (IH (S a) _ r2).
      * rewrite <- app_assoc. replace (S (2 * a)) with (2 * a + 1) by lia.
        reflexivity.
      * replace (2 * S a) with (S (S (2 * a))) by lia. exact Hskip2.
      * cbn [List.length] in Hm. rewrite half_step in Hm. lia.
Qed.

End PgnFacts.

Lemma get_pgn_paired (t : Supervisor.MovesTable) :
  get_pgn t = join " " (map row_text (Supervisor.paired 0 (Supervisor._moves t))).
Proof.
  unfold get_pgn, Supervisor.range_by_two. cbv zeta.
  rewrite (pgn_loop (Supervisor._moves t) _ 0 [] (Supervisor._moves t));
    reflexivity.
Qed.

(** X17.  The text of a game reads the table row by row: after
    [set_moves], [get_pgn] gives the rows of the table, each as its
    number, a dot and its moves, with a space between two rows.  The text
    of a table that has a move is never empty, so the export, which is
    refused for a table without moves, never writes an empty file. *)
Theorem pgn_reads_the_table :
  (forall t moves,
     get_pgn (Supervisor.set_moves t moves)
     = join " " (map row_text (Supervisor.rows (Supervisor.set_moves t moves))))
  /\ (forall t, Supervisor.get_moves t <> [] -> get_pgn t <> "").
Proof.
  split.
  - intros t moves. rewrite get_pgn_paired, set_moves_rows. reflexivity.
  - intros t Hne. rewrite get_pgn_paired. unfold Supervisor.get_moves in Hne.
    destruct (Supervisor._moves t) as [|w [|b r]]; [congruence | discriminate |].
    cbn [Supervisor.paired map join].
    destruct (map row_text (Supervisor.paired 1 r)); discriminate.
Qed.

(** ** Material *)

Lemma digits_no_bar (u : Decimal.uint) :
  PyText.contains "|" (NilEmpty.string_of_uint u) = false.
Proof. induction u; simpl; auto. Qed.

Lemma str_nat_no_bar (n : nat) : PyText.contains "|" (PyText.str_nat n) = false.
Proof. apply digits_no_bar. Qed.

(** X18.  The material field of an evaluation message.  Each side counts
    a pawn for 1, a knight or a bishop for 3, a rook for 5 and a queen
    for 9, and kings for nothing; the field is [0] when the sides are
    level, [+] and the difference when White is ahead, [-] and the
    difference when Black is ahead.  It never holds a [|], so it cannot
    break the message in which it is sent. *)
Theorem material_field (pieces : PieceType -> bool -> nat) :
  let side := fun c =>
    pieces PAWN c + 3 * pieces KNIGHT c + 3 * pieces BISHOP c
    + 5 * pieces ROOK c + 9 * pieces QUEEN c in
  (side true = side false <-> calculate_material_advantage pieces = "0")
  /\ (side false < side true <->
      calculate_material_advantage pieces
      = ("+" ++ PyText.str_nat (side true - side false))%string)
  /\ (side true < side false <->
      calculate_material_advantage pieces
      = ("-" ++ PyText.str_nat (side false - side true))%string)
  /\ PyText.contains "|" (calculate_material_advantage pieces) = false.
Proof.
  intros side.
  assert (E : calculate_material_advantage pieces
              = if (Z.of_nat (side true) - Z.of_nat (side false) >? 0)%Z
                then ("+" ++ PyText.str_nat (side true - side false))%string
                else if (Z.of_nat (side true) - Z.of_nat (side false) <? 0)%Z
                     then ("-" ++ PyText.str_nat (side false - side true))%string
                     else "0").
  { unfold calculate_material_advantage, piece_values. cbn [fold_left].
    set (w := (0 + Z.of_nat (pieces PAWN true) * 1 + _ + _ + _ + _)%Z).
    set (b := (0 + Z.of_nat (pieces PAWN false) * 1 + _ + _ + _ + _)%Z).
    assert (Hw : w = Z.of_nat (side true)) by (subst w side; cbv beta; lia).
    assert (Hb : b = Z.of_nat (side false)) by (subst b side; cbv beta; lia).
    rewrite Hw, Hb. clearbody side. clear w b Hw Hb.
    unfold str_int.
    destruct (Z.gtb_spec (Z.of_nat (side true) - Z.of_nat (side false)) 0) as [Hp|Hp].
    - replace (Z.of_nat (side true) - Z.of_nat (side false) <? 0)%Z with false
        by (symmetry; apply Z.ltb_ge; lia).
      replace (Z.to_nat (Z.of_nat (side true) - Z.of_nat (side false)))
        with (side true - side false) by lia.
      reflexivity.
    - destruct (Z.ltb_spec (Z.of_nat (side true) - Z.of_nat (side false)) 0) as [Hn|Hn];
        [|reflexivity].
      replace (Z.to_nat (- (Z.of_nat (side true) - Z.of_nat (side false))))
        with (side false - side true) by lia.
      reflexivity. }
  clearbody side. rewrite E.
  destruct (Z.gtb_spec (Z.of_nat (side true) - Z.of_nat (side false)) 0) as [Hp|Hp];
    [|destruct (Z.ltb_spec (Z.of_nat (side true) - Z.of_nat (side false)) 0) as [Hn|Hn]];
    (split; [|split; [|split]]);
    try (split; intros H; first [lia | discriminate | reflexivity]);
    first [reflexivity | apply (str_nat_no_bar (side true - side false))
           | apply (str_nat_no_bar (side false - side true))].
Qed.

(** ** The properties on worked cases *)

Lemma move_list_message_round_trip_witness :
  Supervisor._handle_message ("M_MOVE" ++ join_comma ["e4"; "e5"; "Nf3"])%string
  = [Supervisor.multiple_moves ["e4"; "e5"; "Nf3"]].
Proof.
  apply (move_list_message_round_trip ["e4"; "e5"; "Nf3"]).
  - repeat constructor.
  - discriminate.
Defined.

Lemma eval_message_round_trip_witness :
  Supervisor._handle_message
    ("EVAL|" ++ "0.31" ++ "|" ++ "40.0/50.0/10.0" ++ "|" ++ "0" ++ "|" ++ "-"
             ++ "|" ++ "-")%string
  = [Supervisor.eval_updated "0.31" "40.0/50.0/10.0" "0" "-" "-"].
Proof.
  apply (eval_message_round_trip "0.31" "40.0/50.0/10.0" "0" "-" "-");
    reflexivity.
Defined.

Lemma set_moves_layout_witness :
  nth_error (Supervisor.rows
               (Supervisor.set_moves (Supervisor.moves_table Cases2.window)
                                     ["e4"; "e5"; "Nf3"])) 1
  = Some {| Supervisor.cell0 := "2"; Supervisor.cell1 := "Nf3";
            Supervisor.cell2 := None |}
  /\ List.length (Supervisor.rows
                    (Supervisor.set_moves (Supervisor.moves_table Cases2.window)
                                          ["e4"; "e5"; "Nf3"])) = 2
  /\ Supervisor.get_moves
       (Supervisor.set_moves (Supervisor.moves_table Cases2.window)
                             ["e4"; "e5"; "Nf3"]) = ["e4"; "e5"; "Nf3"].
Proof.
  apply (set_moves_layout (Supervisor.moves_table Cases2.window)
                          ["e4"; "e5"; "Nf3"] 1).
  simpl. lia.
Defined.

Lemma resync_reaches_moves_table_witness :
  sent (rr_trace (_resync_move_list_state (C := Book.chess) chesscom_caps
                    Cases.settling (Some false) "move list jumped" (Some 3) 10))
  = ["M_MOVEe4,e5,Nf3"]
  /\ window_shows
       (fst (Supervisor.receive Cases2.window
               (sent (rr_trace (_resync_move_list_state (C := Book.chess)
                                  chesscom_caps Cases.settling (Some false)
                                  "move list jumped" (Some 3) 10)))))
       ["e4"; "e5"; "Nf3"].
Proof.
  apply (resync_reaches_moves_table (C := Book.chess) chesscom_caps (Some 3)
           Cases.settling (Some false) "move list jumped" 10
           ["e4"; "e5"; "Nf3"] ["e4"; "e5"; "Nf3"] Cases2.window).
  - reflexivity.
  - repeat constructor.
  - discriminate.
Defined.

Lemma leaving_handshake_witness :
  snd (find_new_online_match Cases2.leaving) = LeftDone []
  /\ Supervisor.receive Cases2.window
       (messages (fst (find_new_online_match Cases2.leaving)))
     = (Cases2.window, ["DELETE"]).
Proof.
  apply (leaving_handshake Cases2.leaving Cases2.window []); reflexivity.
Defined.

Lemma resync_result_in_step_witness :
  List.length (move_stack (Chess := Book.chess) ["e4"; "e5"; "Nf3"]) = 3
  /\ rr_is_white (_resync_move_list_state (C := Book.chess) chesscom_caps
                    Cases.settling (Some false) "move list jumped" (Some 3) 10)
     = Some false.
Proof.
  destruct (resync_result_in_step (C := Book.chess) chesscom_caps
              Cases.settling (Some false) "move list jumped" (Some 3) 10
              ["e4"; "e5"; "Nf3"] ["e4"; "e5"; "Nf3"] eq_refl)
    as (Hlen & _ & Hwhite).
  split; [exact Hlen | apply Hwhite; discriminate].
Defined.

Lemma opponent_turn_in_step_witness :
  exists (m : Move (Chess := Book.chess)) (g' : Game (C := Book.chess)),
    opponent_parse chesscom_caps false (advanced (Cases.bot_game 0) ["e4"])
                   Cases.settling false
    = (Proceed (m, g'), [])
    /\ g_move_list g' = ["e4"] /\ consistent g'.
Proof.
  pose proof (opponent_turn_in_step (C := Book.chess) chesscom_caps false
                (Cases.bot_game 0) (Cases.poll_of ["e4"]) eq_refl) as H.
  change (fst (opponent_poll chesscom_caps false (Cases.bot_game 0)
                 (g_move_list (Cases.bot_game 0)) (Cases.poll_of ["e4"])))
    with (PollAdvanced (C := Book.chess) ["e4"]) in H.
  destruct H as (_ & H).
  destruct (H Cases.settling false) as (m & g' & E & _ & Hl & Hc).
  exists m, g'. split; [exact E | split; [exact Hl | exact Hc]].
Defined.

Lemma starting_position_answer_witness :
  Board.is_starting_position (Some (Cases3.first_piece :: Cases3.other_pieces))
  = Returns (Some true).
Proof.
  destruct (starting_position_answer Cases3.first_piece Cases3.other_pieces
              Cases3.found eq_refl) as ((_ & Hback) & _).
  apply Hback. intros sq pc Hin. simpl in Hin.
  repeat (destruct Hin as [Hin|Hin];
          [injection Hin as <- <-; reflexivity|]).
  contradiction.
Defined.

Lemma promotion_click_on_board_witness :
  exists (rank : ascii) (k : nat),
    make_move (Some true) 50 "e7e8r"
    = Returns [ActMoveTo "e7"; Ev (EvSleep 50); ActDragTo "e8";
               Ev (EvSleep 100); ActMoveTo (String "e" (String rank ""));
               ActClick]
    /\ int_of_char rank = Some k
    /\ 1 <= k <= 8
    /\ (Some true = Some true -> 8 = 8 -> Z.of_nat k = (8 - 1)%Z)
    /\ (Some true <> Some true -> 8 = 1 -> Z.of_nat k = (1 + 1)%Z).
Proof.
  apply (promotion_click_on_board (Some true) 50 "e" "7" "e" "8" "r" 1 8);
    [reflexivity | reflexivity | lia | reflexivity].
Defined.

Lemma san_matches_ignores_marks_witness :
  _normalize_san ("Qh4" ++ "#!?") = _normalize_san "Qh4"
  /\ _san_matches "Qh4" ("Qh4" ++ "#!?") = true.
Proof.
  apply (san_matches_ignores_marks "Qh4" "#!?").
  - repeat constructor.
  - reflexivity.
Defined.
